(** * qsiprep reconstruction workflows: building a workflow from a spec

    A shallow embedding of [qsiprep/workflows/recon/build_workflow.py] and of
    the per-subject assembly of [qsiprep/workflows/recon/base.py], with the
    properties of the spec-to-pipeline compiler stated and proved over it.

    Python values are modelled as follows.
    - [str] is [string]; [set] of strings is [gset string]; a [dict] with
      string keys is [gmap string _]; a list is [list].
    - A node of the JSON spec is the record [NodeSpec]; a key that may be
      absent is an [option] field, and subscripting an absent key raises
      [KeyError].
    - An exception is a value of [error]; code that may raise returns
      [result].  The source raises the bare [Exception] everywhere, so the
      constructors of [error] name the raising statement. *)

From stdpp Require Import gmap strings list fin_maps.
From Stdlib Require Import ZArith Relations Ascii.

Set Warnings "-register-all,-clear-no-such-hyp".
Set Default Proof Using "Type".

(** ** Python string operations *)

Module PyStr.

(** [s.startswith(p)] *)
Fixpoint startswith (p s : string) : bool :=
  match p, s with
  | EmptyString, _ => true
  | String a p', String b s' => if decide (a = b) then startswith p' s' else false
  | String _ _, EmptyString => false
  end.

(** [sub in s] *)
Fixpoint contains (sub s : string) : bool :=
  startswith sub s ||
  match s with
  | EmptyString => false
  | String _ s' => contains sub s'
  end.

(** [s.split(sep)] for a one-character separator: never empty, and the
    components do not hold the separator. *)
Fixpoint split (sep : ascii) (s : string) : list string :=
  match s with
  | EmptyString => [EmptyString]
  | String c s' =>
      if decide (c = sep) then EmptyString :: split sep s'
      else match split sep s' with
           | h :: t => String c h :: t
           | [] => [String c EmptyString]
           end
  end.

(** [sep.join(parts)] *)
Fixpoint join (sep : string) (parts : list string) : string :=
  match parts with
  | [] => ""
  | [p] => p
  | p :: rest => p +:+ sep +:+ join sep rest
  end.

Definition split_dot : string → list string := split "."%char.
Definition join_dot : list string → string := join ".".

(** [s.replace(a, b)] for single characters. *)
Fixpoint replace_char (a b : ascii) (s : string) : string :=
  match s with
  | EmptyString => EmptyString
  | String c s' => String (if decide (c = a) then b else c) (replace_char a b s')
  end.

(** [s.endswith(p)] *)
Definition endswith (p s : string) : bool :=
  bool_decide (String.length p ≤ String.length s)%nat &&
  bool_decide (String.substring (String.length s - String.length p) (String.length p) s = p).

(** [s.split('.')[-1]] *)
Definition last_component (s : string) : string :=
  List.last (split_dot s) "".

Fixpoint has_dot (s : string) : bool :=
  match s with
  | EmptyString => false
  | String c s' => if decide (c = "."%char) then true else has_dot s'
  end.

(** [sorted(l)] on strings: insertion into an ordered list, by code point. *)
Fixpoint insert_sorted (x : string) (l : list string) : list string :=
  match l with
  | [] => [x]
  | y :: l' => if String.leb x y then x :: l else y :: insert_sorted x l'
  end.

Definition sorted (l : list string) : list string := foldr insert_sorted [] l.

End PyStr.

(** ** Exceptions *)

Inductive error :=
  | NodeHasNoName          (* build_workflow.py:49  "Node has no name" *)
  | UnableToCreateNode     (* build_workflow.py:56  "Unable to create a node" *)
  | RepeatedNames          (* build_workflow.py:30  [_check_repeats] *)
  | NodeMustHaveName       (* build_workflow.py:135 "must have a name attribute" *)
  | UnknownNode            (* build_workflow.py:201 "Unknown node" *)
  | KeyError (key : string)        (* subscript of an absent dict key *)
  | AttributeError                 (* attribute of [None]: a node was not found *)
  | DuplicateConnection (slot : string)  (* the engine: input already connected *)
  | SubjectDirNotFound     (* base.py:167 *)
  | SpecNotFound           (* base.py:314 *)
  | SpecUnreadable.        (* base.py:319 *)

Inductive result (A : Type) :=
  | Ok (a : A)
  | Raise (e : error).
Arguments Ok {A} a.
Arguments Raise {A} e.

Global Instance result_ret : MRet result := λ A a, Ok a.
Global Instance result_bind : MBind result := λ A B f r,
  match r with
  | Ok a => f a
  | Raise e => Raise e
  end.

Definition is_Ok {A} (r : result A) : Prop := ∃ a, r = Ok a.

(** [d[key]] on an optional field. *)
Definition subscript {A} (key : string) (field : option A) : result A :=
  match field with
  | Some a => Ok a
  | None => Raise (KeyError key)
  end.

(** ** The spec document *)

Inductive json :=
  | JNull
  | JBool (b : bool)
  | JNum (n : Z)
  | JStr (s : string)
  | JArr (l : list json)
  | JObj (m : gmap string json).

(** One entry of [workflow_spec['nodes']]. *)
Record NodeSpec := {
  ns_name : option string;
  ns_software : option string;
  ns_action : option string;
  ns_parameters : option (gmap string json);
  ns_output_suffix : option string;
  ns_input : option string;
}.

Record Spec := {
  spec_name : string;
  spec_space : string;
  spec_atlases : list string;
  spec_anatomical : list string;
  spec_nodes : list NodeSpec;
}.

(** ** The builders of the reconstruction sub-workflows *)

(** The functions imported at build_workflow.py:8-20. *)
Inductive Builder :=
  | init_dsi_studio_recon_wf
  | init_dsi_studio_export_wf
  | init_dsi_studio_tractography_wf
  | init_dsi_studio_connectivity_wf
  | init_dsi_studio_autotrack_wf
  | init_mrtrix_csd_recon_wf
  | init_global_tractography_wf
  | init_mrtrix_tractography_wf
  | init_mrtrix_connectivity_wf
  | init_dipy_brainsuite_shore_recon_wf
  | init_dipy_mapmri_recon_wf
  | init_dipy_dki_recon_wf
  | init_amico_noddi_fit_wf
  | init_pyafq_wf
  | init_controllability_wf
  | init_discard_repeated_samples_wf
  | init_conform_dwi_wf
  | init_mif_to_fibgz_wf
  | init_qsiprep_to_fsl_wf
  | init_steinhardt_order_param_wf.

(** The [kwargs] of build_workflow.py:136-141. *)
Record Kwargs := {
  kw_omp_nthreads : nat;
  kw_available_anatomical_data : gmap string json;
  kw_name : string;
  kw_output_suffix : string;
  kw_params : gmap string json;
}.

(** What a built sub-workflow exposes: the fields of its [inputnode], the
    fields of its [outputnode], and the dotted paths of its other leaf nodes
    (data sinks among them). *)
Record Contract := {
  c_inputs : gset string;
  c_outputs : gset string;
  c_leaves : list string;
}.

(** A sub-workflow returned by a builder, named [kw_name]. *)
Record Unit := {
  u_builder : Builder;
  u_kwargs : Kwargs;
  u_contract : Contract;
}.

Definition u_name (u : Unit) : string := kw_name (u_kwargs u).

(** The parts of the repository that the two source files import and that
    are taken as given: the field list and the default input set of
    [qsiprep.interfaces.interchange], and the builders, each of which
    returns the contract of the sub-workflow it builds, or [None]. *)
Record Env := {
  recon_workflow_input_fields : list string;
  default_input_set : gset string;
  run_builder : Builder → Kwargs → option Contract;
}.

(** ** The workflow engine *)

(** A node object as the source holds it: the workflow's own [inputnode]
    (the global source), a sub-workflow of the workflow, or a leaf node
    inside a sub-workflow, named by its dotted path there. *)
Inductive NodeRef :=
  | GlobalSource
  | UnitRef (unit_name : string)
  | LeafRef (unit_name : string) (leaf : string).

Global Instance NodeRef_eq_dec : EqDecision NodeRef.
Proof. solve_decision. Defined.

Global Instance NodeRef_countable : Countable NodeRef.
Proof.
  refine (inj_countable'
    (λ r, match r with
          | GlobalSource => inl ()
          | UnitRef u => inr (inl u)
          | LeafRef u l => inr (inr (u, l))
          end)
    (λ x, match x with
          | inl _ => GlobalSource
          | inr (inl u) => UnitRef u
          | inr (inr (u, l)) => LeafRef u l
          end) _).
  by intros [].
Defined.

(** One connection: output [c_src_slot] of [c_src] feeds input [c_dst_slot]
    of [c_dst]. *)
Record Connection := {
  c_src : NodeRef;
  c_src_slot : string;
  c_dst : NodeRef;
  c_dst_slot : string;
}.

Global Instance Connection_eq_dec : EqDecision Connection.
Proof. solve_decision. Defined.

(** Modelled from the spec: the [Workflow] class of [qsiprep.engine] (built
    on the nipype pipeline engine) is not among the sources.  Following the
    spec's Pipeline, a workflow owns its sub-workflows, the global source and
    the connections; names are dotted paths, a node is looked up by name, and
    a destination slot is filled at most once: connecting to a slot that is
    already connected raises.  The engine does not ask whether the
    destination declares the slot ("wire everything available"), and it does
    not refuse a sub-workflow whose name is already taken: the source checks
    the names itself after insertion. *)
Record Workflow := {
  wf_name : string;
  wf_units : list Unit;
  wf_inputnode : bool;
  wf_connections : list Connection;
  wf_base_directory : gmap NodeRef string;
}.

(** Modelled from the spec: the operations of that class which the sources
    call ([add_nodes], [list_node_names], [get_node], [connect] and the
    assignment of a sink's [base_directory]), over the record above. *)
Module Engine.

(** [Workflow(name=name)] *)
Definition new (name : string) : Workflow :=
  {| wf_name := name; wf_units := []; wf_inputnode := false;
     wf_connections := []; wf_base_directory := ∅ |}.

(** [workflow.add_nodes(nodes)] *)
Definition add_nodes (wf : Workflow) (nodes : list Unit) : Workflow :=
  {| wf_name := wf_name wf; wf_units := wf_units wf ++ nodes;
     wf_inputnode := wf_inputnode wf;
     wf_connections := wf_connections wf;
     wf_base_directory := wf_base_directory wf |}.

(** The leaf nodes of a sub-workflow: its two ports and the others. *)
Definition leaf_names (u : Unit) : list string :=
  "inputnode" :: "outputnode" :: c_leaves (u_contract u).

Definition unit_node_names (u : Unit) : list string :=
  (λ leaf, u_name u +:+ "." +:+ leaf) <$> leaf_names u.

(** [workflow.list_node_names()]: the sorted dotted names of all leaf
    nodes; the workflow's [inputnode] is among them once it is connected. *)
Definition list_node_names (wf : Workflow) : list string :=
  PyStr.sorted
    ((if wf_inputnode wf then ["inputnode"] else []) ++
     (wf_units wf ≫= unit_node_names)).

Definition find_unit (wf : Workflow) (name : string) : option Unit :=
  List.find (λ u, bool_decide (u_name u = name)) (wf_units wf).

(** [workflow.get_node(name)]: [None] when there is no such node. *)
Definition get_node (wf : Workflow) (name : string) : option NodeRef :=
  match PyStr.split_dot name with
  | [] => None
  | head :: rest =>
      match find_unit wf head with
      | Some u =>
          match rest with
          | [] => Some (UnitRef head)
          | _ :: _ =>
              if bool_decide (PyStr.join_dot rest ∈ leaf_names u)
              then Some (LeafRef head (PyStr.join_dot rest))
              else None
          end
      | None =>
          if wf_inputnode wf && bool_decide (head = "inputnode")
             && bool_decide (rest = [])
          then Some GlobalSource
          else None
      end
  end.

(** [node.outputs.get().keys()] for the nodes whose interface is known:
    the global source and the two ports of a sub-workflow. *)
Definition output_fields (env : Env) (wf : Workflow) (node : NodeRef)
  : option (gset string) :=
  match node with
  | GlobalSource => Some (list_to_set (recon_workflow_input_fields env))
  | UnitRef _ => None
  | LeafRef unit_name leaf =>
      u ← find_unit wf unit_name;
      if bool_decide (leaf = "inputnode") then Some (c_inputs (u_contract u))
      else if bool_decide (leaf = "outputnode") then Some (c_outputs (u_contract u))
      else None
  end.

Definition is_connected (conns : list Connection) (dst : NodeRef) (slot : string) : bool :=
  bool_decide (Exists (λ c, c_dst c = dst ∧ c_dst_slot c = slot) conns).

Fixpoint add_connections (conns : list Connection) (src dst : NodeRef)
    (pairs : list (string * string)) : result (list Connection) :=
  match pairs with
  | [] => Ok conns
  | (source, dest) :: pairs' =>
      if is_connected conns dst dest then Raise (DuplicateConnection dest)
      else add_connections
             (conns ++ [{| c_src := src; c_src_slot := source;
                           c_dst := dst; c_dst_slot := dest |}])
             src dst pairs'
  end.

(** [workflow.connect([(src, dst, pairs)])].  A node that is [None] has no
    attributes; a source that is the workflow's [inputnode] becomes a node
    of the workflow. *)
Definition connect (wf : Workflow) (src dst : option NodeRef)
    (pairs : list (string * string)) : result Workflow :=
  match src, dst with
  | Some s, Some d =>
      conns ← add_connections (wf_connections wf) s d pairs;
      Ok {| wf_name := wf_name wf; wf_units := wf_units wf;
            wf_inputnode := wf_inputnode wf || bool_decide (s = GlobalSource);
            wf_connections := conns;
            wf_base_directory := wf_base_directory wf |}
  | _, _ => Raise AttributeError
  end.

(** [node.inputs.base_directory = base_dir] *)
Definition set_base_directory (wf : Workflow) (node : option NodeRef)
    (base_dir : string) : result Workflow :=
  match node with
  | Some n =>
      Ok {| wf_name := wf_name wf; wf_units := wf_units wf;
            wf_inputnode := wf_inputnode wf;
            wf_connections := wf_connections wf;
            wf_base_directory := <[n := base_dir]> (wf_base_directory wf) |}
  | None => Raise AttributeError
  end.

End Engine.

(** ** build_workflow.py *)

(** [_check_repeats(nodelist)] *)
Definition _check_repeats (nodelist : list string) : result () :=
  let total_len := length nodelist in
  let unique_len := size (list_to_set nodelist : gset string) in
  if negb (bool_decide (total_len = unique_len)) then Raise RepeatedNames
  else Ok ().

(** [_as_connections(attr_list, src_prefix, dest_prefix)] *)
Definition _as_connections (attr_list : list string) (src_prefix dest_prefix : string)
  : list (string * string) :=
  (λ item, (src_prefix +:+ item, dest_prefix +:+ item)) <$> attr_list.

(** The dispatch of build_workflow.py:144-199 on the software and the
    action; [None] when control reaches the final [raise]. *)
Definition select_builder (software action : string) : option Builder :=
  if String.eqb software "DSI Studio" then
    if String.eqb action "reconstruction" then Some init_dsi_studio_recon_wf
    else if String.eqb action "export" then Some init_dsi_studio_export_wf
    else if String.eqb action "tractography" then Some init_dsi_studio_tractography_wf
    else if String.eqb action "connectivity" then Some init_dsi_studio_connectivity_wf
    else if String.eqb action "autotrack" then Some init_dsi_studio_autotrack_wf
    else None
  else if String.eqb software "MRTrix3" then
    if String.eqb action "csd" then Some init_mrtrix_csd_recon_wf
    else if String.eqb action "global_tractography" then Some init_global_tractography_wf
    else if String.eqb action "tractography" then Some init_mrtrix_tractography_wf
    else if String.eqb action "connectivity" then Some init_mrtrix_connectivity_wf
    else None
  else if String.eqb software "Dipy" then
    if String.eqb action "3dSHORE_reconstruction" then Some init_dipy_brainsuite_shore_recon_wf
    else if String.eqb action "MAPMRI_reconstruction" then Some init_dipy_mapmri_recon_wf
    else if String.eqb action "DKI_reconstruction" then Some init_dipy_dki_recon_wf
    else None
  else if String.eqb software "AMICO" then
    if String.eqb action "fit_noddi" then Some init_amico_noddi_fit_wf
    else None
  else if String.eqb software "pyAFQ" then
    if String.eqb action "pyafq_tractometry" then Some init_pyafq_wf
    else None
  else
    if String.eqb action "controllability" then Some init_controllability_wf
    else if String.eqb action "discard_repeated_samples" then Some init_discard_repeated_samples_wf
    else if String.eqb action "conform" then Some init_conform_dwi_wf
    else if String.eqb action "mif_to_fib" then Some init_mif_to_fibgz_wf
    else if String.eqb action "reorient_fslstd" then Some init_qsiprep_to_fsl_wf
    else if String.eqb action "steinhardt_order_parameters" then Some init_steinhardt_order_param_wf
    else None.

(** [parameters['plot_reports'] = False] at build_workflow.py:132.
    [parameters] is the dict stored in the node spec when the spec has one
    (the write is then seen through the spec), a new dict otherwise. *)
Definition set_plot_reports (node_spec : NodeSpec) : NodeSpec :=
  {| ns_name := ns_name node_spec;
     ns_software := ns_software node_spec;
     ns_action := ns_action node_spec;
     ns_parameters := <["plot_reports" := JBool false]> <$> ns_parameters node_spec;
     ns_output_suffix := ns_output_suffix node_spec;
     ns_input := ns_input node_spec |}.

(** [workflow_from_spec]: the node spec as the call leaves it, and the
    sub-workflow returned ([None] when the builder returns [None]) or the
    exception raised. *)
Definition workflow_from_spec (env : Env) (omp_nthreads : nat)
    (available_anatomical_data : gmap string json)
    (node_spec : NodeSpec) (skip_odf_plots : bool)
  : NodeSpec * result (option Unit) :=
  let software := default "qsiprep" (ns_software node_spec) in
  let output_suffix := default "" (ns_output_suffix node_spec) in
  let node_name := ns_name node_spec in
  let parameters := default ∅ (ns_parameters node_spec) in
  let '(node_spec, parameters) :=
    if skip_odf_plots
    then (set_plot_reports node_spec, <["plot_reports" := JBool false]> parameters)
    else (node_spec, parameters) in
  (node_spec,
   match node_name with
   | None => Raise NodeMustHaveName
   | Some node_name =>
       let kwargs :=
         {| kw_omp_nthreads := omp_nthreads;
            kw_available_anatomical_data := available_anatomical_data;
            kw_name := node_name;
            kw_output_suffix := output_suffix;
            kw_params := parameters |} in
       action ← subscript "action" (ns_action node_spec);
       match select_builder software action with
       | Some builder =>
           Ok ((λ c, {| u_builder := builder; u_kwargs := kwargs; u_contract := c |})
                 <$> run_builder env builder kwargs)
       | None => Raise UnknownNode
       end
   end).

Section build_workflow.
Context (env : Env).
Context (output_dir reportlets_dir : string).
Context (available_anatomical_data : gmap string json).
Context (omp_nthreads : nat) (skip_odf_plots : bool).

(** One turn of the loop at build_workflow.py:47-57: the node spec as the
    turn leaves it and the sub-workflow appended to [nodes_to_add]. *)
Definition resolve_node (node_spec : NodeSpec) : result (NodeSpec * Unit) :=
  name ← subscript "name" (ns_name node_spec);
  if bool_decide (name = "") then Raise NodeHasNoName
  else
    let '(node_spec, returned) :=
      workflow_from_spec env omp_nthreads available_anatomical_data
        node_spec skip_odf_plots in
    new_node ← returned;
    match new_node with
    | None => Raise UnableToCreateNode
    | Some new_node => Ok (node_spec, new_node)
    end.

(** The loop at build_workflow.py:46-57. *)
Fixpoint resolve_nodes (nodes : list NodeSpec) : result (list NodeSpec * list Unit) :=
  match nodes with
  | [] => Ok ([], [])
  | node_spec :: nodes' =>
      '(node_spec, new_node) ← resolve_node node_spec;
      '(nodes', nodes_to_add) ← resolve_nodes nodes';
      Ok (node_spec :: nodes', new_node :: nodes_to_add)
  end.

(** One turn of the loop at build_workflow.py:62-108. *)
Definition connect_node (workflow : Workflow) (node_spec : NodeSpec) : result Workflow :=
  node_name ← subscript "name" (ns_name node_spec);
  let node := Engine.get_node workflow node_name in
  if bool_decide (default "qsiprep" (ns_input node_spec) = "qsiprep") then
    Engine.connect workflow (Some GlobalSource) node
      (_as_connections (recon_workflow_input_fields env) "" "inputnode.")
  else
    input ← subscript "input" (ns_input node_spec);
    let upstream_node := Engine.get_node workflow input in
    let upstream_outputnode_name := input +:+ ".outputnode" in
    let upstream_outputnode := Engine.get_node workflow upstream_outputnode_name in
    upstream_outputs ←
      from_option Ok (Raise AttributeError)
        (upstream_outputnode ≫= Engine.output_fields env workflow);
    let downstream_inputnode_name := node_name +:+ ".inputnode" in
    let downstream_inputnode := Engine.get_node workflow downstream_inputnode_name in
    downstream_inputs ←
      from_option Ok (Raise AttributeError)
        (downstream_inputnode ≫= Engine.output_fields env workflow);
    let connect_from_upstream := upstream_outputs ∩ downstream_inputs in
    let connect_from_qsiprep := default_input_set env ∖ connect_from_upstream in
    workflow ← Engine.connect workflow (Some GlobalSource) node
      (_as_connections (elements connect_from_qsiprep) "" "inputnode.");
    _ ← _check_repeats (Engine.list_node_names workflow);
    workflow ← Engine.connect workflow upstream_node node
      (_as_connections (elements connect_from_upstream) "outputnode." "inputnode.");
    _ ← _check_repeats (Engine.list_node_names workflow);
    Ok workflow.

(** The loop at build_workflow.py:62-108. *)
Fixpoint connect_nodes (workflow : Workflow) (nodes : list NodeSpec) : result Workflow :=
  match nodes with
  | [] => Ok workflow
  | node_spec :: nodes' =>
      workflow ← connect_node workflow node_spec;
      connect_nodes workflow nodes'
  end.

(** One turn of the loop at build_workflow.py:111-118. *)
Definition fill_datasink (workflow : Workflow) (node : string) : result Workflow :=
  let node_suffix := PyStr.last_component node in
  if PyStr.startswith "ds" node_suffix then
    let base_dir :=
      if PyStr.contains "report" node_suffix then reportlets_dir else output_dir in
    workflow ← Engine.set_base_directory workflow (Engine.get_node workflow node) base_dir;
    if PyStr.startswith "ds_" node_suffix then
      Engine.connect workflow (Some GlobalSource) (Engine.get_node workflow node)
        [("dwi_file", "source_file")]
    else Ok workflow
  else Ok workflow.

(** The loop at build_workflow.py:111-118 over a list of node names. *)
Fixpoint fill_datasinks (workflow : Workflow) (names : list string) : result Workflow :=
  match names with
  | [] => Ok workflow
  | node :: names' =>
      workflow ← fill_datasink workflow node;
      fill_datasinks workflow names'
  end.

(** [init_dwi_recon_workflow]: convert a workflow spec into a workflow. *)
Definition init_dwi_recon_workflow (workflow_spec : Spec) (name : string)
  : result Workflow :=
  let workflow := Engine.new name in
  '(nodes, nodes_to_add) ← resolve_nodes (spec_nodes workflow_spec);
  let workflow := Engine.add_nodes workflow nodes_to_add in
  _ ← _check_repeats (Engine.list_node_names workflow);
  workflow ← connect_nodes workflow nodes;
  fill_datasinks workflow (Engine.list_node_names workflow).

End build_workflow.

(** ** base.py: the workflow of one subject *)

(** A file found by the BIDS layout. *)
Record BIDSFile := {
  path : string;
  filename : string;
}.

(** What [init_single_subject_wf] reads from outside the two source files:
    the file system, the layout of the input directory, the packaged
    pipelines, and the functions and field lists it imports. *)
Record World := {
  op_exists : string → bool;
  prepackaged_dir : string;
  prepackaged : list string;
  json_load : string → option Spec;
  make_sloppy : Spec → Spec;
  layout_get_dwi : string → string → list BIDSFile;
  split_filename : string → string * string * string;
  init_recon_anatomical_wf :
    string → string → list string → string → result (list string * gmap string json);
  init_dwi_recon_anatomical_workflow :
    list string → string → gmap string json → result (gmap string json);
  qsiprep_output_names : list string;
  anatomical_workflow_outputs : list string;
  recon_workflow_anatomical_input_fields : list string;
}.

(** [os.path.join(a, b)] *)
Definition op_join (a b : string) : string :=
  if PyStr.startswith "/" b then b
  else if bool_decide (a = "") || PyStr.endswith "/" a then a +:+ b
  else a +:+ "/" +:+ b.

(** The nodes of a subject's workflow. *)
Inductive SubjectNode :=
  | IngressNode (name : string) (dwi_file : string)
  | AnatIngressWf (base_directory source_file : gmap string string)
  | DwiAnatWf (name : string)
  | ReconInputsNode (name : string)
  | ReconWf (wf : Workflow).

Definition subject_node_name (n : SubjectNode) : string :=
  match n with
  | IngressNode name _ => name
  | AnatIngressWf _ _ => "anat_ingress_wf"
  | DwiAnatWf name => name
  | ReconInputsNode name => name
  | ReconWf wf => wf_name wf
  end.

(** The workflow of one subject: its name, its nodes and the connection
    lists between them, by node name. *)
Record SubjectWorkflow := {
  sw_name : string;
  sw_nodes : list SubjectNode;
  sw_connections : list (string * string * list (string * string));
}.

Section base.
Context (world : World) (env : Env).

(** [_load_recon_spec(spec_name, sloppy)] *)
Definition _load_recon_spec (spec_name : string) (sloppy : bool) : result Spec :=
  recon_spec ←
    (if op_exists world spec_name then Ok spec_name
     else if bool_decide (spec_name ∈ prepackaged world)
     then Ok (prepackaged_dir world +:+ "/" +:+ spec_name +:+ ".json")
     else Raise SpecNotFound);
  spec ← from_option Ok (Raise SpecUnreadable) (json_load world recon_spec);
  Ok (if sloppy then make_sloppy world spec else spec).

(** [_get_wf_name(dwi_file)] *)
Definition _get_wf_name (dwi_file : string) : string :=
  let '(basedir, fname, ext) := split_filename world dwi_file in
  let tokens := PyStr.split "_"%char fname in
  PyStr.replace_char "-"%char "_"%char (PyStr.join "_" (removelast tokens)).

(** The loop at base.py:223-229 over the leaves of the anatomical workflow. *)
Definition fill_anat_datasinks (output_dir reportlets_dir subject_id : string)
    (names : list string) : SubjectNode :=
  let sinks :=
    filter (λ n, Is_true (PyStr.startswith "ds" (PyStr.last_component n))) names in
  AnatIngressWf
    (list_to_map
       ((λ n, (n, if PyStr.contains "report" (PyStr.last_component n)
                  then reportlets_dir else output_dir)) <$> sinks))
    (list_to_map
       ((λ n, (n, "anat/sub-" +:+ subject_id +:+ "_desc-preproc_T1w.nii.gz")) <$> sinks)).

(** One turn of the loop at base.py:239-295: the four nodes made for a scan
    and the connections between them. *)
Definition assemble_scan (output_dir reportlets_dir freesurfer_input : string)
    (omp_nthreads : nat) (skip_odf_plots : bool) (spec : Spec)
    (available_anatomical_data : gmap string json)
    (workflow : SubjectWorkflow) (dwi_file : string) : result SubjectWorkflow :=
  let wf_name := _get_wf_name dwi_file in
  let ingress := IngressNode (wf_name +:+ "_ingressed_dwi_data") dwi_file in
  dwi_available_anatomical_data ←
    init_dwi_recon_anatomical_workflow world (spec_atlases spec)
      (wf_name +:+ "_anat_wf") available_anatomical_data;
  let anat := DwiAnatWf (wf_name +:+ "_anat_wf") in
  let recon_inputs := ReconInputsNode (wf_name +:+ "_recon_inputs") in
  recon_wf ←
    init_dwi_recon_workflow env output_dir reportlets_dir
      dwi_available_anatomical_data omp_nthreads skip_odf_plots
      spec (wf_name +:+ "_recon_wf");
  let trait_pairs (src_prefix dest_prefix : string) (traits : list string) :=
    (λ trait, (src_prefix +:+ trait, dest_prefix +:+ trait)) <$> traits in
  Ok {| sw_name := sw_name workflow;
        sw_nodes := sw_nodes workflow ++ [ingress; recon_inputs; anat; ReconWf recon_wf];
        sw_connections := sw_connections workflow ++
          [ (subject_node_name ingress, subject_node_name recon_inputs,
             trait_pairs "" "" (qsiprep_output_names world));
            ("anat_ingress_wf", subject_node_name anat,
             trait_pairs "outputnode." "inputnode." (anatomical_workflow_outputs world));
            (subject_node_name ingress, subject_node_name anat,
             trait_pairs "" "inputnode." (qsiprep_output_names world));
            (subject_node_name anat, subject_node_name recon_inputs,
             trait_pairs "outputnode." "" (recon_workflow_anatomical_input_fields world));
            (subject_node_name recon_inputs, wf_name +:+ "_recon_wf",
             trait_pairs "" "inputnode." (recon_workflow_input_fields env)) ] |}.

Fixpoint assemble_scans (output_dir reportlets_dir freesurfer_input : string)
    (omp_nthreads : nat) (skip_odf_plots : bool) (spec : Spec)
    (available_anatomical_data : gmap string json)
    (workflow : SubjectWorkflow) (dwi_files : list string) : result SubjectWorkflow :=
  match dwi_files with
  | [] => Ok workflow
  | dwi_file :: dwi_files' =>
      workflow ← assemble_scan output_dir reportlets_dir freesurfer_input
        omp_nthreads skip_odf_plots spec available_anatomical_data workflow dwi_file;
      assemble_scans output_dir reportlets_dir freesurfer_input omp_nthreads
        skip_odf_plots spec available_anatomical_data workflow dwi_files'
  end.

(** The spec and the scans of base.py:148-180. *)
Definition find_scans (subject_id name recon_input recon_spec : string)
    (sloppy : bool) : result (Spec * list string * string) :=
  if bool_decide (name ∈ ["single_subject_wf"; "single_subject_test_recon_wf"]) then
    let spec := {| spec_name := "fake"; spec_atlases := []; spec_space := "T1w";
                   spec_anatomical := []; spec_nodes := [] |} in
    Ok (spec, ["/made/up/outputs/sub-X_dwi.nii.gz"], recon_input)
  else
    let subject_dir := "sub-" +:+ subject_id in
    recon_input ←
      (if negb (op_exists world (op_join recon_input subject_dir)) then
         let qp_recon_input := op_join recon_input "qsiprep" in
         if negb (op_exists world (op_join qp_recon_input subject_dir))
         then Raise SubjectDirNotFound
         else Ok qp_recon_input
       else Ok recon_input);
    spec ← _load_recon_spec recon_spec sloppy;
    let space := spec_space spec in
    let dwi_files :=
      path <$> filter (λ f, Is_true (PyStr.contains ("space-" +:+ space) (filename f)))
                 (layout_get_dwi world recon_input subject_id) in
    Ok (spec, dwi_files, recon_input).

(** [init_single_subject_wf]: the reconstruction workflow of one subject. *)
Definition init_single_subject_wf (subject_id name reportlets_dir output_dir
    freesurfer_input : string) (skip_odf_plots low_mem : bool) (omp_nthreads : nat)
    (recon_input recon_spec : string) (sloppy : bool) : result SubjectWorkflow :=
  '(spec, dwi_files, recon_input) ←
    find_scans subject_id name recon_input recon_spec sloppy;
  let workflow :=
    {| sw_name := "sub-" +:+ subject_id +:+ "_" +:+ spec_name spec;
       sw_nodes := []; sw_connections := [] |} in
  if bool_decide (length dwi_files = 0) then Ok workflow
  else
    '(anat_node_names, available_anatomical_data) ←
      init_recon_anatomical_wf world subject_id recon_input
        (spec_anatomical spec) freesurfer_input;
    let anat_ingress_wf :=
      fill_anat_datasinks output_dir reportlets_dir subject_id anat_node_names in
    let workflow :=
      {| sw_name := sw_name workflow; sw_nodes := [anat_ingress_wf];
         sw_connections := [] |} in
    assemble_scans output_dir reportlets_dir freesurfer_input omp_nthreads
      skip_odf_plots spec available_anatomical_data workflow dwi_files.

End base.

(** ** base.py: the workflow of all subjects *)

Global Instance Builder_eq_dec : EqDecision Builder.
Proof. solve_decision. Defined.

(** [os.path.join(a, *p)] *)
Definition op_join_all (a : string) (p : list string) : string := foldl op_join a p.

(** A subject's workflow as [init_qsirecon_wf] holds it.  [se_crashdump_dir]
    is [config['execution']['crashdump_dir']]; base.py:110-111 copies the
    config to every node of the subject's workflow, so the one value stands
    for the workflow and for its nodes. *)
Record SubjectEntry := {
  se_workflow : SubjectWorkflow;
  se_crashdump_dir : string;
}.

(** Modelled from the spec: the outer [Workflow] of base.py:88, with its
    name, its [base_dir] and the sub-workflows that [add_nodes] appended, as
    for the workflow of one scan. *)
Record QsireconWorkflow := {
  qw_name : string;
  qw_base_dir : string;
  qw_nodes : list SubjectEntry;
}.

Section qsirecon.
Context (world : World) (env : Env).

(** The loop at base.py:92-113.  [b0_threshold] only reaches the builder of
    the anatomical workflows, which [World] takes as given. *)
Fixpoint add_subjects (run_uuid output_dir recon_input recon_spec : string)
    (low_mem : bool) (omp_nthreads : nat) (sloppy : bool) (freesurfer_input : string)
    (skip_odf_plots : bool) (reportlets_dir : string)
    (qsiprep_wf : QsireconWorkflow) (subject_list : list string)
  : result QsireconWorkflow :=
  match subject_list with
  | [] => Ok qsiprep_wf
  | subject_id :: subject_list' =>
      single_subject_wf ←
        init_single_subject_wf world env subject_id
          ("single_subject_" +:+ subject_id +:+ "_recon_wf")
          reportlets_dir output_dir freesurfer_input skip_odf_plots low_mem
          omp_nthreads recon_input recon_spec sloppy;
      let crashdump_dir :=
        op_join_all output_dir ["qsirecon"; "sub-" +:+ subject_id; "log"; run_uuid] in
      let qsiprep_wf :=
        {| qw_name := qw_name qsiprep_wf; qw_base_dir := qw_base_dir qsiprep_wf;
           qw_nodes := qw_nodes qsiprep_wf ++
             [{| se_workflow := single_subject_wf;
                 se_crashdump_dir := crashdump_dir |}] |} in
      add_subjects run_uuid output_dir recon_input recon_spec low_mem omp_nthreads
        sloppy freesurfer_input skip_odf_plots reportlets_dir qsiprep_wf subject_list'
  end.

(** [init_qsirecon_wf]: a sub-workflow for each subject. *)
Definition init_qsirecon_wf (subject_list : list string)
    (run_uuid work_dir output_dir recon_input recon_spec : string)
    (low_mem : bool) (omp_nthreads : nat) (sloppy : bool) (freesurfer_input : string)
    (b0_threshold : Z) (skip_odf_plots : bool) (name : string)
  : result QsireconWorkflow :=
  let qsiprep_wf := {| qw_name := name; qw_base_dir := work_dir; qw_nodes := [] |} in
  let reportlets_dir := op_join work_dir "reportlets" in
  add_subjects run_uuid output_dir recon_input recon_spec low_mem omp_nthreads
    sloppy freesurfer_input skip_odf_plots reportlets_dir qsiprep_wf subject_list.

End qsirecon.

(** ** Notions used in the statements *)

(** The connection from field [slot] of the global source to the input of
    that name of sub-workflow [node]. *)
Definition from_global (node slot : string) : Connection :=
  {| c_src := GlobalSource; c_src_slot := slot;
     c_dst := UnitRef node; c_dst_slot := "inputnode." +:+ slot |}.

(** The connection from output [slot] of sub-workflow [upstream] to the
    input of that name of sub-workflow [node]. *)
Definition from_upstream (upstream node slot : string) : Connection :=
  {| c_src := UnitRef upstream; c_src_slot := "outputnode." +:+ slot;
     c_dst := UnitRef node; c_dst_slot := "inputnode." +:+ slot |}.

(** The connection that gives a data sink the scan it derives from. *)
Definition source_file_connection (sink : NodeRef) : Connection :=
  {| c_src := GlobalSource; c_src_slot := "dwi_file";
     c_dst := sink; c_dst_slot := "source_file" |}.

(** The [input] of the node spec is absent or is the string "qsiprep". *)
Definition uses_global_source (node_spec : NodeSpec) : Prop :=
  ns_input node_spec = None ∨ ns_input node_spec = Some "qsiprep".

(** The three name tests of the sink pass, on a dotted node name. *)
Definition is_sink (node : string) : bool :=
  PyStr.startswith "ds" (PyStr.last_component node).

Definition is_reportlet (node : string) : bool :=
  PyStr.contains "report" (PyStr.last_component node).

Definition has_source_file (node : string) : bool :=
  PyStr.startswith "ds_" (PyStr.last_component node).

Definition sink_directory (output_dir reportlets_dir node : string) : string :=
  if is_reportlet node then reportlets_dir else output_dir.





(** No two connections fill the same input of the same node. *)
Definition single_writer (conns : list Connection) : Prop :=
  NoDup ((λ c, (c_dst c, c_dst_slot c)) <$> conns).



(** The dispatch table in the words of the spec: the registered
    (software, action) pairs and their builders. *)
Definition registered : list (string * string * Builder) :=
  [ ("DSI Studio", "reconstruction", init_dsi_studio_recon_wf);
    ("DSI Studio", "export", init_dsi_studio_export_wf);
    ("DSI Studio", "tractography", init_dsi_studio_tractography_wf);
    ("DSI Studio", "connectivity", init_dsi_studio_connectivity_wf);
    ("DSI Studio", "autotrack", init_dsi_studio_autotrack_wf);
    ("MRTrix3", "csd", init_mrtrix_csd_recon_wf);
    ("MRTrix3", "global_tractography", init_global_tractography_wf);
    ("MRTrix3", "tractography", init_mrtrix_tractography_wf);
    ("MRTrix3", "connectivity", init_mrtrix_connectivity_wf);
    ("Dipy", "3dSHORE_reconstruction", init_dipy_brainsuite_shore_recon_wf);
    ("Dipy", "MAPMRI_reconstruction", init_dipy_mapmri_recon_wf);
    ("Dipy", "DKI_reconstruction", init_dipy_dki_recon_wf);
    ("AMICO", "fit_noddi", init_amico_noddi_fit_wf);
    ("pyAFQ", "pyafq_tractometry", init_pyafq_wf);
    ("qsiprep", "controllability", init_controllability_wf);
    ("qsiprep", "discard_repeated_samples", init_discard_repeated_samples_wf);
    ("qsiprep", "conform", init_conform_dwi_wf);
    ("qsiprep", "mif_to_fib", init_mif_to_fibgz_wf);
    ("qsiprep", "reorient_fslstd", init_qsiprep_to_fsl_wf);
    ("qsiprep", "steinhardt_order_parameters", init_steinhardt_order_param_wf) ].

Definition external_backends : list string :=
  ["DSI Studio"; "MRTrix3"; "Dipy"; "AMICO"; "pyAFQ"].

(** The backend a software tag is dispatched to: any tag that is not one of
    the five external backends is handled as "qsiprep". *)
Definition backend_of (software : string) : string :=
  if bool_decide (software ∈ external_backends) then software else "qsiprep".

Definition lookup_registered (software action : string) : option Builder :=
  snd <$> List.find (λ e, bool_decide (e.1 = (software, action))) registered.

(** The connection [workflow.connect] records for one (source, dest) pair. *)
Definition connection_of (src dst : NodeRef) (pair : string * string) : Connection :=
  {| c_src := src; c_src_slot := pair.1; c_dst := dst; c_dst_slot := pair.2 |}.

(** The connections the sink pass adds when it visits [names]. *)
Definition sink_connections (wf : Workflow) (names : list string) : list Connection :=
  omap (λ node, if has_source_file node
                then source_file_connection <$> Engine.get_node wf node
                else None) names.

(** The connections the wiring loop makes for one node spec, in a workflow
    whose sub-workflows are those of [wf]. *)
Inductive routed (env : Env) (wf : Workflow) (ns : NodeSpec) : Connection → Prop :=
  | routed_sentinel n dst field :
      ns_name ns = Some n → uses_global_source ns →
      Engine.get_node wf n = Some dst → dst ≠ GlobalSource →
      field ∈ recon_workflow_input_fields env →
      routed env wf ns
        {| c_src := GlobalSource; c_src_slot := field;
           c_dst := dst; c_dst_slot := "inputnode." +:+ field |}
  | routed_default n up U D slot :
      ns_name ns = Some n → ns_input ns = Some up → up ≠ "qsiprep" →
      PyStr.has_dot n = false → PyStr.has_dot up = false →
      Engine.find_unit wf up = Some U → Engine.find_unit wf n = Some D →
      slot ∈ default_input_set env ∖ (c_outputs (u_contract U) ∩ c_inputs (u_contract D)) →
      routed env wf ns (from_global n slot)
  | routed_upstream n up U D slot :
      ns_name ns = Some n → ns_input ns = Some up → up ≠ "qsiprep" →
      PyStr.has_dot n = false → PyStr.has_dot up = false →
      Engine.find_unit wf up = Some U → Engine.find_unit wf n = Some D →
      slot ∈ c_outputs (u_contract U) ∩ c_inputs (u_contract D) →
      routed env wf ns (from_upstream up n slot).

(** The node [r] is the one named by a sink among [names]. *)
Definition hits (wf : Workflow) (r : NodeRef) (names : list string) : Prop :=
  ∃ node, node ∈ names ∧ is_sink node = true ∧ Engine.get_node wf node = Some r.

(** The wiring loop found the nodes it needs to wire node spec [ns]: the
    destination, and for an upstream [input] the two sub-workflows. *)
Definition wired (wf : Workflow) (ns : NodeSpec) : Prop :=
  ∃ n, ns_name ns = Some n ∧
    ((uses_global_source ns ∧
      ∃ dst, Engine.get_node wf n = Some dst ∧ dst ≠ GlobalSource) ∨
     (∃ up U D, ns_input ns = Some up ∧ up ≠ "qsiprep" ∧
        PyStr.has_dot n = false ∧ PyStr.has_dot up = false ∧
        Engine.find_unit wf up = Some U ∧ Engine.find_unit wf n = Some D)).

(** Node spec [ns] can be wired in [wf]: its name holds no dot and is the
    name of a sub-workflow, and so is its [input] unless that is absent or
    "qsiprep". *)
Definition wirable (wf : Workflow) (ns : NodeSpec) : Prop :=
  ∃ n, ns_name ns = Some n ∧ PyStr.has_dot n = false ∧
    is_Some (Engine.find_unit wf n) ∧
    (uses_global_source ns ∨
     ∃ up, ns_input ns = Some up ∧ PyStr.has_dot up = false ∧
           is_Some (Engine.find_unit wf up)).

(** ** Proof steps *)

(** Decide a closed proposition by evaluation. *)
Ltac by_evaluation := apply (bool_decide_unpack _); vm_compute; exact I.

(** Follow the tests on the action, in [select_builder] and in the table. *)
Ltac dispatch_action :=
  unfold lookup_registered, registered;
  repeat match goal with
    | |- context [String.eqb ?a ?s] =>
        destruct (String.eqb_spec a s) as [->|?]; [vm_compute; reflexivity|]
    end;
  cbn [List.find fst snd];
  repeat (rewrite bool_decide_false by congruence);
  reflexivity.

(** ** Notions used in the statements on the callers *)

(** The workflow spec with other node specs: the spec as a resolution that
    wrote into the stored parameters leaves it. *)
Definition with_nodes (workflow_spec : Spec) (nodes : list NodeSpec) : Spec :=
  {| spec_name := spec_name workflow_spec; spec_space := spec_space workflow_spec;
     spec_atlases := spec_atlases workflow_spec;
     spec_anatomical := spec_anatomical workflow_spec;
     spec_nodes := nodes |}.

(** The made-up spec of base.py:150-154. *)
Definition fake_spec : Spec :=
  {| spec_name := "fake"; spec_atlases := []; spec_space := "T1w";
     spec_anatomical := []; spec_nodes := [] |}.

(** The reconstruction workflows among the nodes of a subject's workflow. *)
Definition recon_workflows (workflow : SubjectWorkflow) : list Workflow :=
  omap (λ n, match n with ReconWf wf => Some wf | _ => None end) (sw_nodes workflow).

(** The name test of the sinks of the anatomical workflow, as for the sinks
    of a reconstruction workflow. *)
Definition anat_source_file (subject_id : string) : string :=
  "anat/sub-" +:+ subject_id +:+ "_desc-preproc_T1w.nii.gz".

(** ** A small environment to run the definitions on *)

Module Demo.

Definition fields : list string := ["dwi_file"; "bval_file"; "mask_file"].

(** The sub-workflows of the example builders.  The DSI Studio
    reconstruction produces a [fibgz] and has three data sinks; the
    tractography asks for a [fibgz] and has one sink; the conform workflow
    takes no mask.  Every other builder yields a sub-workflow with the two
    ports only. *)
Definition contract_of (b : Builder) (kw : Kwargs) : option Contract :=
  match b with
  | init_dsi_studio_recon_wf =>
      Some {| c_inputs := list_to_set fields;
              c_outputs := {["fibgz"; "mask_file"]};
              c_leaves := ["ds_gqi_fibgz"; "plot.ds_report_odfs"; "dsreport"] |}
  | init_dsi_studio_tractography_wf =>
      Some {| c_inputs := list_to_set ("fibgz" :: fields);
              c_outputs := {["trk_file"]};
              c_leaves := ["tracking"] |}
  | init_conform_dwi_wf =>
      Some {| c_inputs := {["dwi_file"; "bval_file"]};
              c_outputs := list_to_set fields;
              c_leaves := ["conform"] |}
  | _ =>
      Some {| c_inputs := list_to_set fields; c_outputs := ∅; c_leaves := [] |}
  end.

Definition env : Env :=
  {| recon_workflow_input_fields := fields;
     default_input_set := list_to_set fields;
     run_builder := contract_of |}.

Definition node (name software action : string) (input : option string) : NodeSpec :=
  {| ns_name := Some name; ns_software := Some software; ns_action := Some action;
     ns_parameters := None; ns_output_suffix := None; ns_input := input |}.

Definition spec_of (nodes : list NodeSpec) : Spec :=
  {| spec_name := "demo"; spec_space := "T1w"; spec_atlases := [];
     spec_anatomical := []; spec_nodes := nodes |}.

Definition build (nodes : list NodeSpec) : result Workflow :=
  init_dwi_recon_workflow env "out" "reportlets" ∅ 1 false (spec_of nodes) "recon_wf".

Definition the_workflow (r : result Workflow) : Workflow :=
  match r with
  | Ok wf => wf
  | Raise _ => Engine.new ""
  end.

(** A reconstruction followed by a tractography, listed downstream first. *)
Definition track : NodeSpec := node "track" "DSI Studio" "tractography" (Some "gqi").
Definition gqi : NodeSpec := node "gqi" "DSI Studio" "reconstruction" None.
Definition gqi_then_track : list NodeSpec := [track; gqi].
Definition gqi_then_track_wf : Workflow := the_workflow (build gqi_then_track).

(** A conform step after the reconstruction: the reconstruction produces a
    mask, the conform step takes none, the default input set has one. *)
Definition conf : NodeSpec := node "conf" "qsiprep" "conform" (Some "gqi").
Definition gqi_then_conf_wf : Workflow := the_workflow (build [gqi; conf]).

(** A tractography fed by the global source. *)
Definition lone_track : NodeSpec := node "track" "DSI Studio" "tractography" None.
Definition lone_track_wf : Workflow := the_workflow (build [lone_track]).


(** A node named "qsiprep", and a node whose [input] is "qsiprep". *)
Definition named_qsiprep : NodeSpec := node "qsiprep" "qsiprep" "conform" None.
Definition after_qsiprep : NodeSpec :=
  node "fit" "AMICO" "fit_noddi" (Some "qsiprep").
Definition qsiprep_wf : Workflow := the_workflow (build [named_qsiprep; after_qsiprep]).

(** A node spec that stores a parameters mapping, and one of an
    unregistered software. *)
Definition with_parameters : NodeSpec :=
  {| ns_name := Some "csd"; ns_software := Some "MRTrix3"; ns_action := Some "csd";
     ns_parameters := Some {["mtnormalize" := JBool true]};
     ns_output_suffix := None; ns_input := None |}.


(** A spec with the same name twice and a third node that does not resolve. *)
Definition twice : list NodeSpec :=
  [ node "n1" "qsiprep" "conform" None; node "n1" "MRTrix3" "csd" None ].
Definition twice_then_unknown : list NodeSpec :=
  twice ++ [ node "n2" "MRTrix3" "no_such_action" None ].

(** A world with one subject whose scans are in another space. *)
Definition world : World :=
  {| op_exists := λ p, bool_decide (p ∈ ["/data/sub-01"; "/specs/demo.json"]);
     prepackaged_dir := "/pipelines";
     prepackaged := ["mrtrix_msmt"];
     json_load := λ p, if bool_decide (p = "/specs/demo.json")
                       then Some (spec_of gqi_then_track) else None;
     make_sloppy := λ s, s;
     layout_get_dwi := λ root subject,
       [ {| path := "/data/sub-01/dwi/sub-01_space-MNI_dwi.nii.gz";
            filename := "sub-01_space-MNI_dwi.nii.gz" |} ];
     split_filename := λ p, ("", p, "");
     init_recon_anatomical_wf := λ _ _ _ _, Ok ([], ∅);
     init_dwi_recon_anatomical_workflow := λ _ _ avail, Ok avail;
     qsiprep_output_names := fields;
     anatomical_workflow_outputs := [];
     recon_workflow_anatomical_input_fields := [] |}.

End Demo.

(** ** A small study to run the callers on *)

Module Cohort.

Definition scan : string := "/data/qsiprep/sub-02/dwi/sub-02_space-T1w_dwi.nii.gz".

(** Subject 01 is in the input directory, with a scan in another space;
    subject 02 is in its [qsiprep] subdirectory, with a scan in the space of
    the spec; subject 03 is in neither.  The anatomical workflow has an
    output node and three sinks. *)
Definition world : World :=
  {| op_exists := λ p,
       bool_decide (p ∈ ["/data/sub-01"; "/data/qsiprep/sub-02"; "/specs/demo.json"]);
     prepackaged_dir := "/pipelines";
     prepackaged := ["mrtrix_msmt"];
     json_load := λ p, if bool_decide (p = "/specs/demo.json")
                       then Some (Demo.spec_of Demo.gqi_then_track) else None;
     make_sloppy := λ s, s;
     layout_get_dwi := λ root subject,
       if bool_decide (subject = "02") then
         [ {| path := scan; filename := "sub-02_space-T1w_dwi.nii.gz" |};
           {| path := "/data/qsiprep/sub-02/dwi/sub-02_space-MNI_dwi.nii.gz";
              filename := "sub-02_space-MNI_dwi.nii.gz" |} ]
       else
         [ {| path := "/data/sub-01/dwi/sub-01_space-MNI_dwi.nii.gz";
              filename := "sub-01_space-MNI_dwi.nii.gz" |} ];
     split_filename := λ p,
       if bool_decide (p = scan)
       then ("/data/qsiprep/sub-02/dwi", "sub-02_space-T1w_dwi", ".nii.gz")
       else ("", p, "");
     init_recon_anatomical_wf := λ _ _ _ _,
       Ok (["outputnode"; "ds_report_anat"; "dsmask"; "register.ds_t1_mask"], ∅);
     init_dwi_recon_anatomical_workflow := λ _ _ avail, Ok avail;
     qsiprep_output_names := Demo.fields;
     anatomical_workflow_outputs := ["t1_preproc"];
     recon_workflow_anatomical_input_fields := ["t1_brain_mask"] |}.

(** The workflow of one subject, as [init_qsirecon_wf] asks for it. *)
Definition single (subject_id : string) : result SubjectWorkflow :=
  init_single_subject_wf world Demo.env subject_id
    ("single_subject_" +:+ subject_id +:+ "_recon_wf")
    "/work/reportlets" "/out" "/freesurfer" false false 1 "/data" "/specs/demo.json"
    false.

Definition study (subject_list : list string) : result QsireconWorkflow :=
  init_qsirecon_wf world Demo.env subject_list "uuid" "/work" "/out" "/data"
    "/specs/demo.json" false 1 false "/freesurfer" 100 false "qsirecon_wf".

(** A spec whose second node spec has no action, and one whose second node
    spec names an [input] that is not in the spec. *)
Definition no_action : NodeSpec :=
  {| ns_name := Some "fit"; ns_software := Some "AMICO"; ns_action := None;
     ns_parameters := None; ns_output_suffix := None; ns_input := None |}.

Definition dangling : NodeSpec :=
  Demo.node "track" "DSI Studio" "tractography" (Some "csd").

End Cohort.

(** * Properties *)

(** ** Python strings *)

Section PyStr_facts.
Import PyStr.

Lemma split_nonempty sep s : split sep s ≠ [].
Proof.
  destruct s as [|c s]; simpl; [done|].
  case_decide; [done|]. by destruct (split sep s).
Qed.

Lemma append_String_sep a (sep : ascii) b :
  a +:+ String sep "" +:+ b = a +:+ String sep b.
Proof. done. Qed.

Lemma split_app sep a b :
  split sep (a +:+ String sep b) = split sep a ++ split sep b.
Proof.
  induction a as [|c a IH]; simpl.
  - by rewrite decide_True.
  - case_decide; [by rewrite IH|].
    rewrite IH. pose proof (split_nonempty sep a).
    by destruct (split sep a).
Qed.

Lemma join_split sep s : join (String sep "") (split sep s) = s.
Proof.
  induction s as [|c s IH]; simpl; [done|].
  pose proof (split_nonempty sep s) as Hne.
  case_decide as Hc.
  - subst c. destruct (split sep s) as [|h t] eqn:E; [done|].
    simpl in *. by rewrite IH.
  - destruct (split sep s) as [|h [|t1 t2]] eqn:E; [done| |].
    + simpl in *. by rewrite IH.
    + simpl in *. by rewrite <- IH.
Qed.

Lemma split_dot_no_dot s : has_dot s = false → split_dot s = [s].
Proof.
  unfold split_dot. induction s as [|c s IH]; simpl; [done|].
  case_decide; [done|]. intros Hs. by rewrite (IH Hs).
Qed.

Lemma split_dot_components s : Forall (λ p, has_dot p = false) (split_dot s).
Proof.
  unfold split_dot. induction s as [|c s IH]; simpl.
  - by constructor.
  - case_decide as Hc.
    + by constructor.
    + pose proof (split_nonempty "."%char s).
      destruct (split "." s) as [|h t]; [done|].
      inversion_clear IH. constructor; [|done].
      simpl. by rewrite decide_False.
Qed.

Lemma has_dot_app a b : has_dot (a +:+ "." +:+ b) = true.
Proof. induction a as [|c a IH]; simpl; [done|]. by case_decide. Qed.

Lemma split_dot_app a b : split_dot (a +:+ "." +:+ b) = split_dot a ++ split_dot b.
Proof. apply split_app. Qed.

Lemma join_split_dot s : join_dot (split_dot s) = s.
Proof. apply join_split. Qed.

Lemma split_dot_singleton s h : split_dot s = [h] → s = h ∧ has_dot s = false.
Proof.
  intros E. pose proof (join_split_dot s) as Hj. rewrite E in Hj.
  unfold join_dot in Hj. simpl in Hj. subst h. split; [done|].
  pose proof (split_dot_components s) as Hc. rewrite E in Hc.
  by inversion_clear Hc.
Qed.

Lemma split_dot_cons s h rest :
  split_dot s = h :: rest → rest ≠ [] →
  s = h +:+ "." +:+ join_dot rest ∧ has_dot h = false.
Proof.
  intros E Hrest. pose proof (join_split_dot s) as Hj. rewrite E in Hj.
  pose proof (split_dot_components s) as Hc. rewrite E in Hc.
  inversion_clear Hc. split; [|done].
  destruct rest; [done|]. by rewrite <- Hj.
Qed.

Lemma split_dot_path h p :
  has_dot h = false → split_dot (h +:+ "." +:+ p) = h :: split_dot p.
Proof. intros Hh. by rewrite split_dot_app, (split_dot_no_dot h). Qed.

Lemma last_app_nonempty (l1 l2 : list string) d :
  l2 ≠ [] → List.last (l1 ++ l2) d = List.last l2 d.
Proof.
  intros Hne. induction l1 as [|x l1 IH]; [done|].
  simpl. rewrite IH. destruct (l1 ++ l2) eqn:E; [|done].
  by destruct l1, l2.
Qed.

Lemma last_component_app a b : last_component (a +:+ "." +:+ b) = last_component b.
Proof.
  unfold last_component. rewrite split_dot_app.
  apply last_app_nonempty, split_nonempty.
Qed.

Lemma last_component_no_dot s : has_dot s = false → last_component s = s.
Proof. intros Hs. unfold last_component. by rewrite split_dot_no_dot. Qed.

Lemma append_inj_l a a' b b' :
  has_dot a = false → has_dot a' = false →
  a +:+ "." +:+ b = a' +:+ "." +:+ b' → a = a' ∧ b = b'.
Proof.
  intros Ha Ha' E.
  assert (split_dot (a +:+ "." +:+ b) = split_dot (a' +:+ "." +:+ b')) as Hs
    by by rewrite E.
  rewrite !split_dot_path in Hs by done.
  injection Hs as -> Hs. split; [done|].
  by rewrite <- (join_split_dot b), <- (join_split_dot b'), Hs.
Qed.

Lemma append_inj_r a a' b :
  has_dot b = false → a +:+ "." +:+ b = a' +:+ "." +:+ b → a = a'.
Proof.
  intros Hb E.
  assert (split_dot (a +:+ "." +:+ b) = split_dot (a' +:+ "." +:+ b)) as Hs
    by by rewrite E.
  rewrite !split_dot_app, (split_dot_no_dot b) in Hs by done.
  apply app_inj_tail in Hs as [Hs _].
  by rewrite <- (join_split_dot a), <- (join_split_dot a'), Hs.
Qed.

Lemma insert_sorted_perm x l : insert_sorted x l ≡ₚ x :: l.
Proof.
  induction l as [|y l IH]; simpl; [done|].
  destruct (String.leb x y); [done|].
  rewrite IH. apply Permutation_swap.
Qed.

Lemma sorted_perm l : sorted l ≡ₚ l.
Proof.
  induction l as [|x l IH]; simpl; [done|].
  by rewrite insert_sorted_perm, IH.
Qed.

Lemma elem_of_sorted x l : x ∈ sorted l ↔ x ∈ l.
Proof. by rewrite sorted_perm. Qed.

Lemma startswith_ds_ s : startswith "ds_" s = true → startswith "ds" s = true.
Proof.
  destruct s as [|a [|b s]]; simpl; try done.
  repeat case_decide; done.
Qed.

(** A prefix shared by "dsreport" and "ds_report_odfs" is a prefix of
    every name that starts with "ds". *)
Lemma common_prefix_of_report_sinks p :
  startswith p "dsreport" = true → startswith p "ds_report_odfs" = true →
  startswith p "ds_gqi_fibgz" = true.
Proof.
  destruct p as [|a [|b [|c p]]]; simpl; repeat case_decide; subst; try done.
Qed.

End PyStr_facts.

(** ** The name check *)

Lemma size_list_to_set_le (l : list string) :
  size (list_to_set l : gset string) ≤ length l.
Proof.
  induction l as [|x l IH].
  - by rewrite list_to_set_nil, size_empty.
  - rewrite list_to_set_cons, size_union_alt, size_singleton. simpl.
    assert (size ((list_to_set l : gset string) ∖ {[x]}) ≤ size (list_to_set l : gset string)) as Hd
      by (apply subseteq_size; set_solver).
    lia.
Qed.

Lemma size_list_to_set_NoDup (l : list string) :
  size (list_to_set l : gset string) = length l ↔ NoDup l.
Proof.
  split; [|apply size_list_to_set].
  induction l as [|x l IH]; intros Hsz; [constructor|].
  rewrite list_to_set_cons in Hsz. simpl in Hsz.
  pose proof (size_list_to_set_le l) as Hle.
  assert (x ∉ l) as Hx.
  { intros Hin.
    assert ({[x]} ∪ list_to_set l = (list_to_set l : gset string)) as E by set_solver.
    rewrite E in Hsz. lia. }
  constructor; [done|]. apply IH.
  rewrite size_union in Hsz by set_solver.
  rewrite size_singleton in Hsz. lia.
Qed.

Lemma _check_repeats_Ok nodelist : _check_repeats nodelist = Ok () ↔ NoDup nodelist.
Proof.
  unfold _check_repeats. rewrite <- size_list_to_set_NoDup.
  case_bool_decide; simpl; split; done.
Qed.


(** ** The workflow engine *)

Section Engine_facts.
Import PyStr Engine.

Lemma find_unit_Some wf n u :
  find_unit wf n = Some u → u ∈ wf_units wf ∧ u_name u = n.
Proof.
  unfold find_unit. intros H. apply find_some in H as [Hin Hn].
  split; [by apply list_elem_of_In|]. by apply bool_decide_eq_true in Hn.
Qed.

Lemma find_unit_None wf n u : find_unit wf n = None → u ∈ wf_units wf → u_name u ≠ n.
Proof.
  unfold find_unit. intros H Hin Hn.
  apply list_elem_of_In in Hin.
  pose proof (find_none _ _ H _ Hin) as Hf. simpl in Hf.
  by apply bool_decide_eq_false in Hf.
Qed.

Lemma find_unit_is_Some wf u : u ∈ wf_units wf → is_Some (find_unit wf (u_name u)).
Proof.
  intros Hin. destruct (find_unit wf (u_name u)) eqn:E; [by eexists|].
  by destruct (find_unit_None _ _ _ E Hin).
Qed.

Lemma find_unit_units wf wf' n :
  wf_units wf = wf_units wf' → find_unit wf n = find_unit wf' n.
Proof. unfold find_unit. by intros ->. Qed.

Lemma get_node_unit wf n h :
  get_node wf n = Some (UnitRef h) →
  h = n ∧ has_dot n = false ∧ is_Some (find_unit wf n).
Proof.
  unfold get_node. destruct (split_dot n) as [|head rest] eqn:E; [done|].
  destruct (find_unit wf head) eqn:Ef.
  - destruct rest; [|by case_bool_decide].
    intros [= <-]. apply split_dot_singleton in E as [-> ?]. by rewrite Ef.
  - by destruct (_ && _).
Qed.

Lemma get_node_leaf wf n h p :
  get_node wf n = Some (LeafRef h p) →
  n = h +:+ "." +:+ p ∧ has_dot h = false ∧
  ∃ u, find_unit wf h = Some u ∧ p ∈ leaf_names u.
Proof.
  unfold get_node. destruct (split_dot n) as [|head rest] eqn:E; [done|].
  destruct (find_unit wf head) eqn:Ef.
  - destruct rest as [|r rest]; [done|].
    case_bool_decide as Hin; [|done]. intros [= <- <-].
    apply split_dot_cons in E as [-> ?]; [|done]. eauto.
  - by destruct (_ && _).
Qed.

Lemma get_node_global wf n :
  get_node wf n = Some GlobalSource →
  n = "inputnode" ∧ wf_inputnode wf = true ∧ find_unit wf n = None.
Proof.
  unfold get_node. destruct (split_dot n) as [|head rest] eqn:E; [done|].
  destruct (find_unit wf head) eqn:Ef.
  - destruct rest; [done|by case_bool_decide].
  - destruct (wf_inputnode wf); [|done]. simpl.
    do 2 (case_bool_decide; [|done]); simpl. intros _. subst.
    by apply split_dot_singleton in E as [-> ?].
Qed.

(** A node has one name. *)
Lemma get_node_inj wf n n' r :
  get_node wf n = Some r → get_node wf n' = Some r → n = n'.
Proof.
  destruct r as [|h|h p]; intros H H'.
  - apply get_node_global in H as [-> _], H' as [-> _]. done.
  - apply get_node_unit in H as [-> _], H' as [<- _]. done.
  - apply get_node_leaf in H as [-> _], H' as [-> _]. done.
Qed.

(** Looking up a node depends on the sub-workflows only, except for the
    name of the workflow's own [inputnode]. *)
Lemma get_node_units wf wf' n :
  wf_units wf = wf_units wf' → n ≠ "inputnode" → get_node wf n = get_node wf' n.
Proof.
  intros Hu Hn. unfold get_node.
  destruct (split_dot n) as [|head rest] eqn:E; [done|].
  rewrite <- (find_unit_units wf wf') by done.
  destruct (find_unit wf head); [done|].
  destruct (decide (head = "inputnode")) as [->|]; [|by rewrite !bool_decide_false, !andb_false_r by done].
  destruct rest.
  - by apply split_dot_singleton in E as [-> ?].
  - by rewrite !andb_false_r.
Qed.


(** The name of a port of a sub-workflow resolves to that port, and only
    the name of a sub-workflow without a dot has ports. *)
Lemma get_node_port env wf x port fields :
  port = "inputnode" ∨ port = "outputnode" →
  get_node wf (x +:+ "." +:+ port) ≫= output_fields env wf = Some fields →
  has_dot x = false ∧
  get_node wf (x +:+ "." +:+ port) = Some (LeafRef x port) ∧
  ∃ u, find_unit wf x = Some u ∧
    fields = if bool_decide (port = "inputnode") then c_inputs (u_contract u)
             else c_outputs (u_contract u).
Proof.
  intros Hport H.
  destruct (get_node wf (x +:+ "." +:+ port)) as [[|h|h p]|] eqn:E; simpl in H; try done.
  - apply get_node_global in E as [E _].
    pose proof (has_dot_app x port) as Hd. by rewrite E in Hd.
  - apply get_node_leaf in E as (E & Hh & u & Hu & Hp).
    rewrite Hu in H. simpl in H.
    assert (has_dot port = false) as Hpd by (by destruct Hport as [-> | ->]).
    assert (p = "inputnode" ∨ p = "outputnode") as Hp'.
    { repeat case_bool_decide; auto; done. }
    assert (has_dot p = false) as Hpd' by (by destruct Hp' as [-> | ->]).
    assert (split_dot (x +:+ "." +:+ port) = split_dot (h +:+ "." +:+ p)) as Hs
      by by rewrite E.
    rewrite split_dot_app, (split_dot_no_dot port), split_dot_path,
      (split_dot_no_dot p) in Hs by done.
    destruct (split_dot x) as [|x1 [|x2 xs]] eqn:Ex; simplify_eq/=;
      [|by destruct xs].
    apply split_dot_singleton in Ex as [-> Hx].
    split; [done|]. split; [done|]. exists u. split; [done|].
    destruct Hport as [-> | ->]; simpl in H; by simplify_eq.
Qed.

Lemma is_connected_true conns dst slot :
  is_connected conns dst slot = true ↔ (dst, slot) ∈ (λ c, (c_dst c, c_dst_slot c)) <$> conns.
Proof.
  unfold is_connected. rewrite bool_decide_eq_true, Exists_exists, list_elem_of_fmap.
  split.
  - intros (c & ? & <- & <-). eauto.
  - intros (c & [= -> ->] & ?). eauto.
Qed.

Lemma is_connected_app conns conns' dst slot :
  is_connected (conns ++ conns') dst slot =
  is_connected conns dst slot || is_connected conns' dst slot.
Proof.
  apply eq_true_iff_eq. rewrite orb_true_iff, !is_connected_true, fmap_app, elem_of_app. done.
Qed.

Lemma add_connections_Ok conns src dst pairs conns' :
  add_connections conns src dst pairs = Ok conns' →
  conns' = conns ++ (connection_of src dst <$> pairs).
Proof.
  revert conns. induction pairs as [|[source dest] pairs IH]; simpl; intros conns H.
  - rewrite app_nil_r. congruence.
  - destruct (is_connected conns dst dest); [done|].
    apply IH in H. by rewrite H, <- app_assoc.
Qed.

Lemma add_connections_single_writer conns src dst pairs conns' :
  add_connections conns src dst pairs = Ok conns' →
  single_writer conns → single_writer conns'.
Proof.
  revert conns. induction pairs as [|[source dest] pairs IH]; simpl; intros conns H Hw.
  - congruence.
  - destruct (is_connected conns dst dest) eqn:Hc; [done|].
    apply IH in H; [done|].
    unfold single_writer in *. rewrite fmap_app. simpl.
    apply NoDup_app. split; [done|]. split; [|apply NoDup_singleton].
    intros x Hx Hx'. apply list_elem_of_singleton in Hx' as ->.
    apply is_connected_true in Hx. congruence.
Qed.

(** Connecting fails exactly on a destination slot that is taken. *)
Lemma add_connections_Raise conns src dst pairs e :
  add_connections conns src dst pairs = Raise e →
  ∃ slot, e = DuplicateConnection slot.
Proof.
  revert conns. induction pairs as [|[source dest] pairs IH]; simpl; intros conns H.
  - done.
  - destruct (is_connected conns dst dest); [|by eapply IH].
    injection H as <-. eauto.
Qed.

Lemma connect_Ok wf src dst pairs wf' :
  connect wf src dst pairs = Ok wf' →
  ∃ s d, src = Some s ∧ dst = Some d ∧
    wf_name wf' = wf_name wf ∧ wf_units wf' = wf_units wf ∧
    wf_base_directory wf' = wf_base_directory wf ∧
    wf_inputnode wf' = wf_inputnode wf || bool_decide (s = GlobalSource) ∧
    wf_connections wf' = wf_connections wf ++ (connection_of s d <$> pairs) ∧
    (single_writer (wf_connections wf) → single_writer (wf_connections wf')).
Proof.
  unfold connect. destruct src as [s|], dst as [d|]; try done.
  destruct (add_connections _ _ _ _) as [conns|] eqn:E; simpl; [|done].
  intros [= <-]. exists s, d. simpl.
  repeat split; try done.
  - by apply add_connections_Ok in E.
  - intros Hw. by eapply add_connections_single_writer.
Qed.

Lemma list_node_names_elem wf x :
  x ∈ list_node_names wf ↔
  (x = "inputnode" ∧ wf_inputnode wf = true) ∨
  ∃ u leaf, u ∈ wf_units wf ∧ leaf ∈ leaf_names u ∧ x = u_name u +:+ "." +:+ leaf.
Proof.
  unfold list_node_names. rewrite elem_of_sorted, elem_of_app, list_elem_of_bind.
  unfold unit_node_names. setoid_rewrite list_elem_of_fmap.
  split.
  - intros [H|(u & (leaf & -> & ?) & ?)]; [|naive_solver].
    destruct (wf_inputnode wf); [|by apply elem_of_nil in H].
    apply list_elem_of_singleton in H. auto.
  - intros [[-> ->]|(u & leaf & ? & ? & ->)]; [left; apply list_elem_of_here|].
    right. naive_solver.
Qed.

End Engine_facts.

(** ** Resolving the nodes of a spec *)

Arguments Engine.connect : simpl never.
Arguments Engine.get_node : simpl never.
Arguments Engine.list_node_names : simpl never.
Arguments Engine.set_base_directory : simpl never.
Arguments Engine.output_fields : simpl never.
Arguments _check_repeats : simpl never.
Arguments PyStr.startswith : simpl never.
Arguments PyStr.contains : simpl never.
Arguments PyStr.last_component : simpl never.

Section resolve_facts.
Context (env : Env) (omp_nthreads : nat) (available : gmap string json).
Context (skip_odf_plots : bool).

Lemma workflow_from_spec_fields node_spec :
  let node_spec' :=
    (workflow_from_spec env omp_nthreads available node_spec skip_odf_plots).1 in
  ns_name node_spec' = ns_name node_spec ∧ ns_input node_spec' = ns_input node_spec ∧
  ns_software node_spec' = ns_software node_spec ∧
  ns_action node_spec' = ns_action node_spec ∧
  ns_output_suffix node_spec' = ns_output_suffix node_spec.
Proof. unfold workflow_from_spec. by destruct skip_odf_plots. Qed.

Lemma workflow_from_spec_unit node_spec u :
  (workflow_from_spec env omp_nthreads available node_spec skip_odf_plots).2
    = Ok (Some u) →
  ns_name node_spec = Some (u_name u).
Proof.
  unfold workflow_from_spec.
  destruct skip_odf_plots; simpl;
    (destruct (ns_name node_spec) as [nm|]; [|done]);
    (destruct (ns_action node_spec) as [a|]; [|done]); simpl;
    (destruct (select_builder _ a) as [b|]; [|done]);
    (destruct (run_builder env b _) as [c|]; [|done]); simpl;
    by intros [= <-].
Qed.

Lemma resolve_node_Ok node_spec node_spec' u :
  resolve_node env available omp_nthreads skip_odf_plots node_spec = Ok (node_spec', u) →
  ns_name node_spec' = ns_name node_spec ∧ ns_input node_spec' = ns_input node_spec ∧
  ns_name node_spec = Some (u_name u) ∧ u_name u ≠ "".
Proof.
  unfold resolve_node.
  destruct (ns_name node_spec) as [nm|] eqn:Hn; [|done]. simpl.
  case_bool_decide as Hnm; [done|].
  pose proof (workflow_from_spec_fields node_spec) as (Hf1 & Hf2 & _).
  pose proof (workflow_from_spec_unit node_spec) as Hu.
  destruct (workflow_from_spec _ _ _ _ _) as [ns' [[u'|]|]]; simpl in *; try done.
  intros [= <- <-]. specialize (Hu _ eq_refl).
  rewrite Hf1, Hf2, Hn. rewrite Hn in Hu. injection Hu as ->. done.
Qed.

Lemma resolve_nodes_Ok nodes nodes' units :
  resolve_nodes env available omp_nthreads skip_odf_plots nodes = Ok (nodes', units) →
  Forall2 (λ ns ns', ns_name ns' = ns_name ns ∧ ns_input ns' = ns_input ns) nodes nodes' ∧
  Forall2 (λ ns u, ns_name ns = Some (u_name u) ∧ u_name u ≠ "") nodes units.
Proof.
  revert nodes' units. induction nodes as [|ns nodes IH]; simpl; intros nodes' units.
  - intros [= <- <-]. split; constructor.
  - destruct (resolve_node _ _ _ _ ns) as [[ns' u]|] eqn:E; simpl; [|done].
    destruct (resolve_nodes _ _ _ _ nodes) as [[nodes1 units1]|]; simpl; [|done].
    intros [= <- <-]. apply resolve_node_Ok in E as (? & ? & ? & ?).
    destruct (IH _ _ eq_refl). split; constructor; done.
Qed.

(** The loop stops at the first node spec that does not resolve. *)
Lemma resolve_nodes_Raise nodes e :
  resolve_nodes env available omp_nthreads skip_odf_plots nodes = Raise e →
  ∃ ns, ns ∈ nodes ∧
    resolve_node env available omp_nthreads skip_odf_plots ns = Raise e.
Proof.
  induction nodes as [|ns nodes IH]; simpl; [done|].
  destruct (resolve_node _ _ _ _ ns) as [[ns' u]|e'] eqn:E; simpl.
  - destruct (resolve_nodes _ _ _ _ nodes) as [[nodes1 units1]|e']; simpl; [done|].
    intros [= <-]. destruct (IH eq_refl) as (ns0 & ? & ?).
    exists ns0. split; [by apply list_elem_of_further|done].
  - intros [= <-]. exists ns. split; [apply list_elem_of_here|done].
Qed.

End resolve_facts.

(** ** Wiring the nodes *)

Section wiring_facts.
Import PyStr Engine.
Context (env : Env).

Lemma get_node_unit_intro wf n u :
  has_dot n = false → find_unit wf n = Some u → get_node wf n = Some (UnitRef n).
Proof.
  intros Hn Hu. unfold get_node. by rewrite (split_dot_no_dot n), Hu.
Qed.

Lemma get_node_transfer wf wf' n r :
  wf_units wf = wf_units wf' → r ≠ GlobalSource →
  get_node wf n = Some r → get_node wf' n = Some r.
Proof.
  intros Hu Hr H. destruct (decide (n = "inputnode")) as [->|Hn].
  - destruct r as [|h|h p]; [done| |].
    + apply get_node_unit in H as (-> & _ & [u Hfu]).
      rewrite (find_unit_units wf wf') in Hfu by done.
      by eapply get_node_unit_intro.
    + apply get_node_leaf in H as (E & _).
      pose proof (has_dot_app h p) as Hd. by rewrite <- E in Hd.
  - by rewrite <- (get_node_units wf wf').
Qed.

Lemma routed_units wf wf' ns c :
  wf_units wf = wf_units wf' → routed env wf ns c → routed env wf' ns c.
Proof.
  intros Hu [n dst f ? ? Hg ? ?|n up U D s ? ? ? ? ? HU HD ?|n up U D s ? ? ? ? ? HU HD ?].
  - eapply routed_sentinel; eauto using get_node_transfer.
  - rewrite (find_unit_units wf wf') in HU, HD by done. eapply routed_default; eauto.
  - rewrite (find_unit_units wf wf') in HU, HD by done. eapply routed_upstream; eauto.
Qed.

Lemma routed_same_fields wf ns ns' c :
  ns_name ns' = ns_name ns → ns_input ns' = ns_input ns →
  routed env wf ns c → routed env wf ns' c.
Proof.
  intros Hn Hi [n dst f ? Hg ? ? ?|n up U D s ? ? ? ? ? HU HD ?|n up U D s ? ? ? ? ? HU HD ?].
  - eapply routed_sentinel; eauto; try congruence.
    unfold uses_global_source in *. by rewrite Hi.
  - eapply routed_default; eauto; congruence.
  - eapply routed_upstream; eauto; congruence.
Qed.

Lemma wired_units wf wf' ns :
  wf_units wf = wf_units wf' → wired wf ns → wired wf' ns.
Proof.
  intros Hu (n & Hn & [[Hs (dst & Hg & Hd)]|(up & U & D & ? & ? & ? & ? & HU & HD)]);
    exists n; (split; [done|]).
  - left. split; [done|]. exists dst. eauto using get_node_transfer.
  - right. rewrite (find_unit_units wf wf') in HU, HD by done. eauto 10.
Qed.

Lemma wired_same_fields wf ns ns' :
  ns_name ns' = ns_name ns → ns_input ns' = ns_input ns → wired wf ns → wired wf ns'.
Proof.
  intros Hn Hi (n & ? & H). exists n. split; [congruence|].
  destruct H as [[Hs H]|(up & U & D & Hup & H)]; [left|right].
  - split; [|done]. unfold uses_global_source in *. by rewrite Hi.
  - exists up, U, D. split; [congruence|done].
Qed.

Lemma elem_of_as_connections src dst attr_list src_prefix dest_prefix c :
  c ∈ connection_of src dst <$> _as_connections attr_list src_prefix dest_prefix ↔
  ∃ item, item ∈ attr_list ∧
    c = {| c_src := src; c_src_slot := src_prefix +:+ item;
           c_dst := dst; c_dst_slot := dest_prefix +:+ item |}.
Proof.
  unfold _as_connections. rewrite <- list_fmap_compose, list_elem_of_fmap.
  naive_solver.
Qed.

(** What one turn of the wiring loop does, when the node spec has a
    sub-workflow of its name. *)
Lemma connect_node_Ok wf0 wf ns wf' :
  wf_units wf = wf_units wf0 →
  (∀ n, ns_name ns = Some n → is_Some (find_unit wf0 n)) →
  connect_node env wf ns = Ok wf' →
  wf_name wf' = wf_name wf ∧ wf_units wf' = wf_units wf ∧
  wf_base_directory wf' = wf_base_directory wf ∧
  wf_inputnode wf' = true ∧
  (∀ c, c ∈ wf_connections wf' ↔ c ∈ wf_connections wf ∨ routed env wf0 ns c) ∧
  (single_writer (wf_connections wf) → single_writer (wf_connections wf')) ∧
  wired wf0 ns.
Proof.
  intros Hunits Hnamed. unfold connect_node.
  destruct (ns_name ns) as [n|] eqn:Hn; [|done]. simpl.
  destruct (Hnamed n eq_refl) as [D0 HD0].
  rewrite <- (find_unit_units wf wf0) in HD0 by done.
  case_bool_decide as Hsent.
  - (* the global source *)
    intros H. apply connect_Ok in H
      as (s & d & [= <-] & Hd & ? & ? & ? & Hflag & Hconns & Hw).
    rewrite orb_true_r in Hflag. do 4 (split; [done|]).
    assert (d ≠ GlobalSource) as Hglob.
    { intros ->. apply get_node_global in Hd as (_ & _ & Hnone). congruence. }
    assert (uses_global_source ns) as Huses.
    { unfold uses_global_source.
      destruct (ns_input ns); simpl in Hsent; [right|left]; congruence. }
    split; [|split; [done|]]; last first.
    { exists n. split; [done|]. left. split; [done|].
      exists d. eauto using get_node_transfer. }
    intros c. rewrite Hconns, elem_of_app, elem_of_as_connections. simpl.
    apply or_iff_compat_l. split.
    + intros (f & ? & ->). eapply routed_sentinel; eauto using get_node_transfer.
    + intros [n' dst f Hn' _ Hg Hdst ?|n' up U D s _ Hup Hne|n' up U D s _ Hup Hne].
      * simplify_eq. apply (get_node_transfer wf0 wf) in Hg; [|done..].
        simplify_eq. eauto.
      * rewrite Hup in Hsent. simpl in Hsent. done.
      * rewrite Hup in Hsent. simpl in Hsent. done.
  - (* an upstream node *)
    destruct (ns_input ns) as [up|] eqn:Hup; [|done]. simpl in *.
    destruct (get_node wf (up +:+ ".outputnode") ≫= output_fields env wf)
      as [outs|] eqn:Houts; [|done]. simpl.
    destruct (get_node wf (n +:+ ".inputnode") ≫= output_fields env wf)
      as [ins|] eqn:Hins; [|done]. simpl.
    apply get_node_port in Houts as (Hdup & _ & U & HU & ->); [|by right].
    apply get_node_port in Hins as (Hdn & _ & D & HD & ->); [|by left].
    rewrite (bool_decide_false ("outputnode" = "inputnode")),
      (bool_decide_true ("inputnode" = "inputnode")) by done.
    rewrite (get_node_unit_intro wf n D), (get_node_unit_intro wf up U) by done.
    destruct (connect wf _ _ _) as [wf1|] eqn:E1; [|done]. simpl.
    destruct (_check_repeats (list_node_names wf1)); [|done]. simpl.
    destruct (connect wf1 _ _ _) as [wf2|] eqn:E2; [|done]. simpl.
    destruct (_check_repeats (list_node_names wf2)); [|done]. simpl.
    intros [= <-].
    apply connect_Ok in E1
      as (? & ? & [= <-] & [= <-] & ? & Hu1 & ? & Hflag1 & Hconns1 & Hw1).
    apply connect_Ok in E2
      as (? & ? & [= <-] & [= <-] & ? & Hu2 & ? & Hflag2 & Hconns2 & Hw2).
    rewrite orb_true_r in Hflag1. rewrite Hflag1 in Hflag2.
    split; [congruence|]. split; [congruence|]. split; [congruence|].
    split; [done|].
    rewrite (find_unit_units wf wf0) in HU, HD by done.
    split; [|split; [by auto|]]; last first.
    { exists n. split; [done|]. right. eauto 10. }
    intros c. rewrite Hconns2, Hconns1, !elem_of_app, !elem_of_as_connections.
    setoid_rewrite elem_of_elements.
    split.
    + intros [[?|(s & ? & ->)]|(s & ? & ->)]; [by left|right..].
      * eapply routed_default; eauto.
      * eapply routed_upstream; eauto.
    + intros [?|Hr]; [by left; left|].
      destruct Hr as [n' dst f _ [Hs|Hs]|n' up' U' D' s|n' up' U' D' s];
        try (by rewrite Hup in Hs; simplify_eq); simplify_eq.
      * left; right. eauto.
      * right. eauto.
Qed.

Lemma connect_nodes_Ok wf0 wf nodes wf' :
  wf_units wf = wf_units wf0 →
  (∀ ns n, ns ∈ nodes → ns_name ns = Some n → is_Some (find_unit wf0 n)) →
  connect_nodes env wf nodes = Ok wf' →
  wf_name wf' = wf_name wf ∧ wf_units wf' = wf_units wf ∧
  wf_base_directory wf' = wf_base_directory wf ∧
  wf_inputnode wf' = wf_inputnode wf || bool_decide (nodes ≠ []) ∧
  (∀ c, c ∈ wf_connections wf' ↔
        c ∈ wf_connections wf ∨ ∃ ns, ns ∈ nodes ∧ routed env wf0 ns c) ∧
  (single_writer (wf_connections wf) → single_writer (wf_connections wf')) ∧
  (∀ ns, ns ∈ nodes → wired wf0 ns).
Proof.
  revert wf. induction nodes as [|ns nodes IH]; simpl; intros wf Hunits Hnamed H.
  - injection H as <-. rewrite orb_false_r. repeat split; try done.
    + by left.
    + intros [?|(ns & Hin & _)]; [done|]. by apply elem_of_nil in Hin.
    + intros ns Hin. by apply elem_of_nil in Hin.
  - destruct (connect_node env wf ns) as [wf1|] eqn:E; [|done]. simpl in H.
    eapply connect_node_Ok in E as (? & Hu1 & ? & Hflag & Hconns & Hw & Hwired); [|done|];
      [|intros n; apply Hnamed, list_elem_of_here].
    apply IH in H as (? & ? & ? & Hflag' & Hconns' & Hw' & Hwired');
      [|congruence|intros ns' n ?; by apply Hnamed, list_elem_of_further].
    rewrite Hflag in Hflag'. simpl in Hflag'.
    split; [congruence|]. split; [congruence|]. split; [congruence|].
    split.
    { rewrite Hflag'. by destruct (wf_inputnode wf). }
    split; [|split; [by auto|]].
    + intros c. rewrite Hconns', Hconns. setoid_rewrite elem_of_cons. naive_solver.
    + intros ns' [->|?]%elem_of_cons; auto.
Qed.

End wiring_facts.

(** ** The sink pass *)

Section sink_facts.
Import PyStr Engine.
Context (output_dir reportlets_dir : string).

Lemma has_source_file_is_sink node : has_source_file node = true → is_sink node = true.
Proof. apply startswith_ds_. Qed.

Lemma is_sink_not_inputnode node : is_sink node = true → node ≠ "inputnode".
Proof. intros H ->. vm_compute in H. done. Qed.

Lemma get_node_sink wf wf' node :
  wf_units wf = wf_units wf' → is_sink node = true →
  get_node wf node = get_node wf' node.
Proof. intros ? ?. by apply get_node_units, is_sink_not_inputnode. Qed.

(** One turn of the sink pass, written out. *)
Lemma fill_datasink_unfold wf node :
  fill_datasink output_dir reportlets_dir wf node =
  if is_sink node then
    match get_node wf node with
    | None => Raise AttributeError
    | Some r =>
        let base := <[r := sink_directory output_dir reportlets_dir node]> (wf_base_directory wf) in
        if has_source_file node then
          if is_connected (wf_connections wf) r "source_file"
          then Raise (DuplicateConnection "source_file")
          else Ok {| wf_name := wf_name wf; wf_units := wf_units wf;
                     wf_inputnode := true;
                     wf_connections := wf_connections wf ++ [source_file_connection r];
                     wf_base_directory := base |}
        else Ok {| wf_name := wf_name wf; wf_units := wf_units wf;
                   wf_inputnode := wf_inputnode wf;
                   wf_connections := wf_connections wf;
                   wf_base_directory := base |}
    end
  else Ok wf.
Proof.
  unfold fill_datasink, is_sink, has_source_file, sink_directory, is_reportlet.
  destruct (startswith "ds" (last_component node)); [|done].
  unfold set_base_directory.
  destruct (get_node wf node) as [r|] eqn:E; [|done]. simpl.
  destruct (startswith "ds_" (last_component node)); [|done].
  change (get_node _ node) with (get_node wf node). rewrite E.
  unfold connect. simpl.
  destruct (is_connected _ _ _); [done|]. simpl.
  by rewrite orb_true_r.
Qed.

Lemma sink_connections_cons wf a names :
  sink_connections wf (a :: names) = sink_connections wf [a] ++ sink_connections wf names.
Proof.
  unfold sink_connections. simpl.
  destruct (has_source_file a); [|done]. by destruct (get_node wf a).
Qed.

Lemma sink_connections_units wf wf' names :
  wf_units wf = wf_units wf' → sink_connections wf names = sink_connections wf' names.
Proof.
  intros Hu. induction names as [|a names IH]; [done|].
  rewrite (sink_connections_cons wf), (sink_connections_cons wf'), IH. f_equal.
  unfold sink_connections. simpl.
  destruct (has_source_file a) eqn:Ha; [|done].
  by rewrite (get_node_sink wf wf') by auto using has_source_file_is_sink.
Qed.

Lemma elem_of_sink_connections wf names c :
  c ∈ sink_connections wf names ↔
  ∃ node r, node ∈ names ∧ has_source_file node = true ∧
    get_node wf node = Some r ∧ c = source_file_connection r.
Proof.
  unfold sink_connections. rewrite list_elem_of_omap. split.
  - intros (node & ? & H). destruct (has_source_file node) eqn:?; [|done].
    destruct (get_node wf node) as [r|] eqn:?; simplify_eq/=. eauto 10.
  - intros (node & r & ? & Hs & Hg & ->). exists node. by rewrite Hs, Hg.
Qed.

Lemma fill_datasink_Ok wf a wf1 :
  fill_datasink output_dir reportlets_dir wf a = Ok wf1 →
  wf_name wf1 = wf_name wf ∧ wf_units wf1 = wf_units wf ∧
  wf_inputnode wf1 = wf_inputnode wf || has_source_file a ∧
  wf_connections wf1 = wf_connections wf ++ sink_connections wf [a] ∧
  (is_sink a = true → ∃ r, get_node wf a = Some r ∧
     wf_base_directory wf1 =
       <[r := sink_directory output_dir reportlets_dir a]> (wf_base_directory wf)) ∧
  (is_sink a = false → wf_base_directory wf1 = wf_base_directory wf).
Proof.
  rewrite fill_datasink_unfold. unfold sink_connections. simpl.
  destruct (is_sink a) eqn:Ha.
  - destruct (get_node wf a) as [r|] eqn:Hr; [|done]. simpl.
    destruct (has_source_file a) eqn:Hs; simpl.
    + destruct (is_connected _ _ _); [done|]. intros [= <-]. simpl.
      rewrite orb_true_r. repeat split; eauto; done.
    + intros [= <-]. simpl. rewrite orb_false_r, app_nil_r. repeat split; eauto; done.
  - intros [= <-].
    assert (has_source_file a = false) as ->.
    { destruct (has_source_file a) eqn:Hs; [|done].
      apply has_source_file_is_sink in Hs. congruence. }
    rewrite orb_false_r, app_nil_r. repeat split; done.
Qed.

Lemma hits_units wf wf' r names :
  wf_units wf = wf_units wf' → hits wf r names → hits wf' r names.
Proof.
  intros Hu (node & ? & ? & Hg). exists node. split; [done|]. split; [done|].
  by rewrite <- (get_node_sink wf wf').
Qed.

Lemma fill_datasinks_Ok wf names wf' :
  fill_datasinks output_dir reportlets_dir wf names = Ok wf' →
  wf_name wf' = wf_name wf ∧ wf_units wf' = wf_units wf ∧
  wf_inputnode wf' = wf_inputnode wf || existsb has_source_file names ∧
  wf_connections wf' = wf_connections wf ++ sink_connections wf names ∧
  (∀ node, node ∈ names → is_sink node = true → ∃ r,
     get_node wf node = Some r ∧
     wf_base_directory wf' !! r = Some (sink_directory output_dir reportlets_dir node)) ∧
  (∀ r, ¬ hits wf r names → wf_base_directory wf' !! r = wf_base_directory wf !! r).
Proof.
  revert wf. induction names as [|a names IH]; intros wf H; simpl in H.
  - injection H as <-. simpl. rewrite orb_false_r, app_nil_r. repeat split; try done.
    intros node Hin. by apply elem_of_nil in Hin.
  - destruct (fill_datasink _ _ wf a) as [wf1|] eqn:E1; [|done]. simpl in H.
    rename H into Hrest.
    apply fill_datasink_Ok in E1 as (Hn1 & Hu1 & Hf1 & Hc1 & Hsink1 & Hnot1).
    apply IH in Hrest as (Hn & Hu & Hf & Hc & Hset & Hkeep).
    split; [congruence|]. split; [congruence|].
    split; [cbn [existsb]; by rewrite Hf, Hf1, orb_assoc|].
    split.
    { rewrite Hc, Hc1, <- app_assoc, (sink_connections_cons wf a names).
      by rewrite (sink_connections_units wf1 wf) by done. }
    assert (∀ r, ¬ hits wf r (a :: names) →
              wf_base_directory wf1 !! r = wf_base_directory wf !! r) as Hstep.
    { intros r Hr. destruct (is_sink a) eqn:Ha; [|by rewrite Hnot1].
      destruct (Hsink1 eq_refl) as (ra & Hra & ->).
      rewrite lookup_insert_ne; [done|]. intros ->. apply Hr.
      exists a. split; [apply list_elem_of_here|done]. }
    split.
    + intros node Hin Hsink.
      destruct (decide (node ∈ names)) as [Hin'|Hnin].
      * destruct (Hset node Hin' Hsink) as (r & Hg & Hl).
        exists r. split; [|done]. by rewrite (get_node_sink wf wf1).
      * apply elem_of_cons in Hin as [->|?]; [|done].
        destruct (Hsink1 Hsink) as (ra & Hra & Hbase).
        exists ra. split; [done|]. rewrite Hkeep.
        { by rewrite Hbase, lookup_insert_eq. }
        intros (node & Hin' & Hs & Hg). apply Hnin.
        rewrite <- (get_node_sink wf wf1) in Hg by done.
        by rewrite (get_node_inj _ _ _ _ Hra Hg).
    + intros r Hr. rewrite Hkeep.
      * by apply Hstep.
      * intros Hh. apply (hits_units wf1 wf) in Hh; [|done].
        destruct Hh as (node & ? & ? & ?). apply Hr.
        exists node. split; [by apply list_elem_of_further|done].
Qed.

(** The sink pass succeeds exactly when every sink it visits is a node of
    the workflow, none of those that get a source file is visited twice,
    and none has its [source_file] input connected already. *)
Lemma fill_datasinks_is_Ok wf names :
  is_Ok (fill_datasinks output_dir reportlets_dir wf names) ↔
  (∀ node, node ∈ names → is_sink node = true → is_Some (get_node wf node)) ∧
  NoDup (filter (λ node, has_source_file node = true) names) ∧
  (∀ node r, node ∈ names → has_source_file node = true →
     get_node wf node = Some r →
     is_connected (wf_connections wf) r "source_file" = false).
Proof.
  revert wf. induction names as [|a names IH]; intros wf; simpl.
  - split; [|by eexists]. intros _. split; [|split; [constructor|]].
    + intros node Hin. by apply elem_of_nil in Hin.
    + intros node r Hin. by apply elem_of_nil in Hin.
  - split.
    + intros [wf' H].
      destruct (fill_datasink _ _ wf a) as [wf1|] eqn:E1; [|done]. simpl in H.
      pose proof E1 as Hstep. rewrite fill_datasink_unfold in Hstep.
      apply fill_datasink_Ok in E1 as (Hn1 & Hu1 & Hf1 & Hc1 & Hsink1 & Hnot1).
      destruct (proj1 (IH wf1) (ex_intro _ _ H)) as (Hres & Hnd & Hfree).
      split; [|split].
      * intros node [->|Hin]%elem_of_cons Hs.
        { destruct (Hsink1 Hs) as (r & -> & _). by eexists. }
        rewrite (get_node_sink wf wf1) by done. by apply Hres.
      * rewrite filter_cons. case_decide as Hsa; [|done].
        constructor; [|done]. intros Hin%list_elem_of_filter.
        destruct Hin as [_ Hin].
        pose proof (has_source_file_is_sink _ Hsa) as Hs.
        destruct (Hsink1 Hs) as (r & Hr & _).
        rewrite (get_node_sink wf wf1) in Hr by done.
        specialize (Hfree a r Hin Hsa Hr).
        rewrite Hc1, is_connected_app in Hfree.
        apply orb_false_iff in Hfree as [_ Hfree].
        rewrite (sink_connections_units wf wf1) in Hfree by done.
        unfold sink_connections in Hfree. simpl in Hfree.
        rewrite Hsa, Hr in Hfree. simpl in Hfree.
        unfold is_connected in Hfree. apply bool_decide_eq_false in Hfree.
        apply Hfree, Exists_cons. by left.
      * intros node r [->|Hin]%elem_of_cons Hsa Hr.
        { rewrite (has_source_file_is_sink _ Hsa), Hr, Hsa in Hstep.
          simpl in Hstep. by destruct (is_connected _ _ _). }
        pose proof (has_source_file_is_sink _ Hsa) as Hs.
        rewrite (get_node_sink wf wf1) in Hr by done.
        specialize (Hfree node r Hin Hsa Hr).
        rewrite Hc1, is_connected_app in Hfree.
        by apply orb_false_iff in Hfree as [? _].
    + intros (Hres & Hnd & Hfree).
      assert (∃ wf1, fill_datasink output_dir reportlets_dir wf a = Ok wf1) as [wf1 E1].
      { rewrite fill_datasink_unfold. destruct (is_sink a) eqn:Hs; [|by eexists].
        destruct (Hres a (list_elem_of_here _ _) Hs) as [r Hr]. rewrite Hr. simpl.
        destruct (has_source_file a) eqn:Hsa; [|by eexists].
        rewrite (Hfree a r (list_elem_of_here _ _) Hsa Hr). by eexists. }
      rewrite E1. simpl.
      apply fill_datasink_Ok in E1 as (Hn1 & Hu1 & Hf1 & Hc1 & Hsink1 & Hnot1).
      apply IH. split; [|split].
      * intros node Hin Hs. rewrite <- (get_node_sink wf wf1) by done.
        by apply Hres; [apply list_elem_of_further|].
      * rewrite filter_cons in Hnd. case_decide; [|done]. by inversion Hnd.
      * intros node r Hin Hsa Hr.
        pose proof (has_source_file_is_sink _ Hsa) as Hs.
        rewrite <- (get_node_sink wf wf1) in Hr by done.
        rewrite Hc1, is_connected_app.
        rewrite (Hfree node r (list_elem_of_further _ _ _ Hin) Hsa Hr). simpl.
        unfold sink_connections. simpl.
        destruct (has_source_file a) eqn:Hsa'; [|done].
        destruct (get_node wf a) as [ra|] eqn:Hra; [|done]. simpl.
        unfold is_connected. apply bool_decide_eq_false.
        intros [[Heq _]|H]%Exists_cons; [|by apply Exists_nil in H].
        simpl in Heq. subst ra. rewrite (get_node_inj _ _ _ _ Hr Hra) in *.
        rewrite filter_cons in Hnd. rewrite decide_True in Hnd by done.
        inversion_clear Hnd as [|? ? Hnin _]. apply Hnin.
        by apply list_elem_of_filter.
Qed.


End sink_facts.

(** ** The workflow that [init_dwi_recon_workflow] returns *)

Section pipeline_facts.
Import PyStr Engine.
Context (env : Env) (output_dir reportlets_dir : string).
Context (available : gmap string json) (omp_nthreads : nat) (skip_odf_plots : bool).

Lemma unit_names_NoDup (units : list Unit) :
  NoDup (units ≫= unit_node_names) → NoDup (u_name <$> units).
Proof.
  induction units as [|u units IH]; [constructor|].
  rewrite bind_cons, fmap_cons. intros (_ & Hdisj & Hrest)%NoDup_app.
  constructor; [|by apply IH].
  intros (u' & Hname & Hin)%list_elem_of_fmap.
  apply (Hdisj (u_name u +:+ "." +:+ "inputnode")).
  - unfold unit_node_names, leaf_names. rewrite fmap_cons. apply list_elem_of_here.
  - apply list_elem_of_bind. exists u'. split; [|done].
    unfold unit_node_names, leaf_names. rewrite fmap_cons, Hname.
    apply list_elem_of_here.
Qed.

Lemma list_node_names_NoDup wf :
  NoDup (list_node_names wf) → NoDup (u_name <$> wf_units wf).
Proof.
  unfold list_node_names. rewrite sorted_perm.
  intros (_ & _ & H)%NoDup_app. by apply unit_names_NoDup.
Qed.

Lemma find_unit_NoDup wf u :
  NoDup (u_name <$> wf_units wf) → u ∈ wf_units wf →
  find_unit wf (u_name u) = Some u.
Proof.
  unfold find_unit. induction (wf_units wf) as [|u' units IH]; simpl.
  - intros _ Hin. by apply elem_of_nil in Hin.
  - intros [Hnin Hnd]%NoDup_cons [->|Hin]%elem_of_cons.
    + by rewrite bool_decide_true.
    + rewrite bool_decide_false; [by apply IH|].
      intros Heq. apply Hnin. rewrite Heq. by apply list_elem_of_fmap_2.
Qed.

Lemma list_node_names_eq wf wf' :
  wf_units wf = wf_units wf' → wf_inputnode wf = wf_inputnode wf' →
  list_node_names wf = list_node_names wf'.
Proof. unfold list_node_names. by intros -> ->. Qed.

Lemma fill_datasinks_single_writer wf names wf' :
  fill_datasinks output_dir reportlets_dir wf names = Ok wf' →
  single_writer (wf_connections wf) → single_writer (wf_connections wf').
Proof.
  revert wf. induction names as [|a names IH]; intros wf H Hw; simpl in H.
  - by injection H as <-.
  - destruct (fill_datasink _ _ wf a) as [wf1|] eqn:E1; [|done]. simpl in H.
    apply (IH wf1); [done|]. clear H IH.
    rewrite fill_datasink_unfold in E1.
    destruct (is_sink a); [|by simplify_eq].
    destruct (get_node wf a) as [r|]; [|done]. simpl in E1.
    destruct (has_source_file a); [|by simplify_eq].
    destruct (is_connected _ _ _) eqn:Hc; [done|]. injection E1 as <-. simpl.
    unfold single_writer in *. rewrite fmap_app. simpl.
    apply NoDup_app. split; [done|]. split; [|apply NoDup_singleton].
    intros x Hx Hx'. apply list_elem_of_singleton in Hx' as ->.
    apply is_connected_true in Hx. congruence.
Qed.

(** The nodes, the connections and the sink directories of the workflow
    built from a spec. *)
Lemma init_dwi_recon_workflow_Ok workflow_spec name wf :
  init_dwi_recon_workflow env output_dir reportlets_dir available omp_nthreads
    skip_odf_plots workflow_spec name = Ok wf →
  wf_name wf = name ∧
  Forall2 (λ ns u, ns_name ns = Some (u_name u) ∧ u_name u ≠ "")
    (spec_nodes workflow_spec) (wf_units wf) ∧
  NoDup (u_name <$> wf_units wf) ∧
  wf_inputnode wf = bool_decide (spec_nodes workflow_spec ≠ []) ∧
  (∀ c, c ∈ wf_connections wf ↔
        (∃ ns, ns ∈ spec_nodes workflow_spec ∧ routed env wf ns c) ∨
        c ∈ sink_connections wf (list_node_names wf)) ∧
  single_writer (wf_connections wf) ∧
  (∀ node, node ∈ list_node_names wf → is_sink node = true → ∃ r,
     get_node wf node = Some r ∧
     wf_base_directory wf !! r =
       Some (sink_directory output_dir reportlets_dir node)) ∧
  (∀ r, ¬ hits wf r (list_node_names wf) → wf_base_directory wf !! r = None) ∧
  (∀ ns, ns ∈ spec_nodes workflow_spec → wired wf ns).
Proof.
  unfold init_dwi_recon_workflow.
  destruct (resolve_nodes _ _ _ _ _) as [[nodes units]|] eqn:Hres; [|done]. simpl.
  set (wf1 := add_nodes (new name) units).
  destruct (_check_repeats (list_node_names wf1)) eqn:Hrep; [|done]. simpl.
  destruct (connect_nodes env wf1 nodes) as [wf2|] eqn:Hcon; [|done]. simpl.
  intros Hfill.
  apply resolve_nodes_Ok in Hres as [Hsame Hunits].
  destruct a. apply _check_repeats_Ok, list_node_names_NoDup in Hrep.
  assert (wf_units wf1 = units) as Hu1 by done.
  rewrite Hu1 in Hrep.
  eapply (connect_nodes_Ok env wf1) in Hcon
    as (Hn2 & Hu2 & Hb2 & Hf2 & Hc2 & Hw2 & Hwired); [|done|]; last first.
  { intros ns' n Hin Hname.
    apply list_elem_of_lookup in Hin as [i Hi].
    destruct (Forall2_lookup_r _ _ _ _ _ Hsame Hi) as (ns & Hi' & Hn & _).
    destruct (Forall2_lookup_l _ _ _ _ _ Hunits Hi') as (u & Hiu & Hnu & _).
    assert (n = u_name u) as -> by congruence.
    apply find_unit_is_Some. rewrite Hu1. by eapply list_elem_of_lookup_2. }
  pose proof (fill_datasinks_single_writer _ _ _ Hfill) as Hw.
  apply fill_datasinks_Ok in Hfill as (Hn & Hu & Hf & Hc & Hset & Hkeep).
  assert (length nodes = length (spec_nodes workflow_spec)) as Hlen
    by (symmetry; by eapply Forall2_length).
  assert (wf_inputnode wf = wf_inputnode wf2) as Hflag.
  { rewrite Hf, Hf2. simpl. destruct nodes as [|ns nodes]; [|done].
    destruct (spec_nodes workflow_spec); [|done].
    apply Forall2_nil_inv_l in Hunits. subst units.
    unfold list_node_names. by rewrite Hu2, Hu1, Hf2. }
  assert (list_node_names wf = list_node_names wf2) as Hnames
    by by apply list_node_names_eq.
  split; [by rewrite Hn, Hn2|]. split; [by rewrite Hu, Hu2, Hu1|].
  split; [by rewrite Hu, Hu2, Hu1|].
  split.
  { rewrite Hflag, Hf2. simpl.
    destruct nodes, (spec_nodes workflow_spec); simpl in *; done. }
  split; [|split; [|split; [|split]]].
  - intros c. rewrite Hc, elem_of_app, Hc2, Hnames.
    rewrite (sink_connections_units wf wf2) by done.
    apply or_iff_compat_r. split.
    + intros [Hnil|(ns' & Hin & Hr)]; [by apply elem_of_nil in Hnil|].
      apply list_elem_of_lookup in Hin as [i Hi].
      destruct (Forall2_lookup_r _ _ _ _ _ Hsame Hi) as (ns & Hi' & Hname & Hinput).
      exists ns. split; [by eapply list_elem_of_lookup_2|].
      eapply routed_same_fields; [..|eapply (routed_units env wf1 wf); [congruence|done]];
        done.
    + intros (ns & Hin & Hr). right.
      apply list_elem_of_lookup in Hin as [i Hi].
      destruct (Forall2_lookup_l _ _ _ _ _ Hsame Hi) as (ns' & Hi' & Hname & Hinput).
      exists ns'. split; [by eapply list_elem_of_lookup_2|].
      eapply routed_same_fields; [..|eapply (routed_units env wf wf1); [congruence|done]];
        done.
  - apply Hw, Hw2. constructor.
  - intros node Hin Hsink. rewrite Hnames in Hin.
    destruct (Hset node Hin Hsink) as (r & Hg & Hl). exists r. split; [|done].
    by rewrite (get_node_sink wf wf2).
  - intros r Hr. rewrite Hkeep, Hb2; [done|].
    intros Hh. apply Hr. rewrite Hnames. by eapply hits_units.
  - intros ns Hin.
    apply list_elem_of_lookup in Hin as [i Hi].
    destruct (Forall2_lookup_l _ _ _ _ _ Hsame Hi) as (ns' & Hi' & Hname & Hinput).
    apply (wired_same_fields _ ns'); [done..|].
    apply (wired_units wf1 wf); [congruence|].
    apply Hwired. by eapply list_elem_of_lookup_2.
Qed.

End pipeline_facts.

(** * The claims *)

(** ** Routing (C1, C6, C10) *)

Section routing.
Import PyStr Engine.
Context (env : Env) (output_dir reportlets_dir : string).
Context (available : gmap string json) (omp_nthreads : nat) (skip_odf_plots : bool).

Lemma built_names_unique workflow_spec name wf ns1 ns2 :
  init_dwi_recon_workflow env output_dir reportlets_dir available omp_nthreads
    skip_odf_plots workflow_spec name = Ok wf →
  ns1 ∈ spec_nodes workflow_spec → ns2 ∈ spec_nodes workflow_spec →
  ns_name ns1 = ns_name ns2 → ns1 = ns2.
Proof.
  intros (_ & Hunits & Hnd & _)%init_dwi_recon_workflow_Ok
    [i Hi]%list_elem_of_lookup [j Hj]%list_elem_of_lookup Heq.
  destruct (Forall2_lookup_l _ _ _ _ _ Hunits Hi) as (u1 & Hu1 & Hn1 & _).
  destruct (Forall2_lookup_l _ _ _ _ _ Hunits Hj) as (u2 & Hu2 & Hn2 & _).
  assert (u_name u1 = u_name u2) as Hu by congruence.
  assert (i = j) as ->; [|congruence].
  eapply (NoDup_lookup _ i j (u_name u1) Hnd); rewrite list_lookup_fmap.
  - by rewrite Hu1.
  - by rewrite Hu2, Hu.
Qed.

Lemma sink_connection_not_to_unit wf c n :
  c ∈ sink_connections wf (list_node_names wf) → c_dst c ≠ UnitRef n.
Proof.
  intros (node & r & Hin & Hs & Hg & ->)%elem_of_sink_connections Hdst.
  simpl in Hdst. subst r. apply get_node_unit in Hg as (-> & Hdot & _).
  apply list_node_names_elem in Hin as [[-> _]|(u & leaf & _ & _ & ->)].
  - by vm_compute in Hs.
  - by rewrite has_dot_app in Hdot.
Qed.

(** A connection into a sub-workflow was made when the node spec of that
    name was wired. *)
Lemma connection_to_unit workflow_spec name wf c n :
  init_dwi_recon_workflow env output_dir reportlets_dir available omp_nthreads
    skip_odf_plots workflow_spec name = Ok wf →
  c ∈ wf_connections wf → c_dst c = UnitRef n →
  ∃ ns, ns ∈ spec_nodes workflow_spec ∧ ns_name ns = Some n ∧ routed env wf ns c.
Proof.
  intros (_ & _ & _ & _ & Hconns & _)%init_dwi_recon_workflow_Ok Hc Hdst.
  apply Hconns in Hc as [(ns & Hin & Hr)|Hsink];
    [|by destruct (sink_connection_not_to_unit _ _ n Hsink)].
  exists ns. split; [done|]. split; [|done].
  destruct Hr as [n' dst f Hn' _ Hg _ _|n' up U D s Hn'|n' up U D s Hn'];
    simpl in Hdst; simplify_eq; [|done..].
  by apply get_node_unit in Hg as (-> & _).
Qed.

(** C1, as amended.  A node spec whose [input] names another node of the
    spec is connected, from the outputs of that upstream sub-workflow, on
    exactly the slots in [available ∩ needed] (the declared outputs of the
    upstream sub-workflow that are declared inputs of the destination), and
    from the global source on exactly the slots of the default input set
    outside that intersection.  The global remainder is not filtered by
    [needed]; a slot of the intersection is never wired from the global
    source; and a slot that the destination does not declare is never wired
    from upstream, also when the upstream sub-workflow produces it. *)
Theorem upstream_routing workflow_spec name wf ns n up :
  init_dwi_recon_workflow env output_dir reportlets_dir available omp_nthreads
    skip_odf_plots workflow_spec name = Ok wf →
  ns ∈ spec_nodes workflow_spec →
  ns_name ns = Some n → ns_input ns = Some up → up ≠ "qsiprep" →
  ∃ U D, find_unit wf up = Some U ∧ find_unit wf n = Some D ∧
    let available := c_outputs (u_contract U) in
    let needed := c_inputs (u_contract D) in
    (∀ c, c ∈ wf_connections wf ∧ c_dst c = UnitRef n ↔
          (∃ slot, slot ∈ available ∩ needed ∧ c = from_upstream up n slot) ∨
          (∃ slot, slot ∈ default_input_set env ∖ (available ∩ needed) ∧
                   c = from_global n slot)) ∧
    (∀ slot, slot ∈ default_input_set env → slot ∉ needed →
             from_global n slot ∈ wf_connections wf) ∧
    (∀ slot, slot ∈ available ∩ needed → from_global n slot ∉ wf_connections wf) ∧
    (∀ slot, slot ∉ needed → from_upstream up n slot ∉ wf_connections wf).
Proof.
  intros Hbuild Hin Hn Hup Hne.
  pose proof (init_dwi_recon_workflow_Ok _ _ _ _ _ _ _ _ _ Hbuild)
    as (_ & _ & _ & _ & Hconns & _ & _ & _ & Hwired).
  destruct (Hwired ns Hin) as (n' & Hn' & [[[Hs|Hs] _]|Hw]); [congruence..|].
  destruct Hw as (up' & U & D & Hup' & _ & Hdn & Hdup & HU & HD).
  assert (n' = n) as -> by congruence. assert (up' = up) as -> by congruence.
  exists U, D. split; [done|]. split; [done|]. simpl.
  assert (∀ c, c ∈ wf_connections wf ∧ c_dst c = UnitRef n ↔
    (∃ slot, slot ∈ c_outputs (u_contract U) ∩ c_inputs (u_contract D) ∧
             c = from_upstream up n slot) ∨
    (∃ slot, slot ∈ default_input_set env ∖
               (c_outputs (u_contract U) ∩ c_inputs (u_contract D)) ∧
             c = from_global n slot)) as Hexact.
  { intros c. split.
    - intros [Hc Hdst].
      destruct (connection_to_unit _ _ _ _ _ Hbuild Hc Hdst) as (ns' & Hin' & Hn'' & Hr).
      assert (ns' = ns) as -> by (eapply built_names_unique; [done..|congruence]).
      destruct Hr as [? ? ? _ [Hs|Hs]|n1 up1 U1 D1 s ? ? _ _ _ HU1 HD1 Hs
                     |n1 up1 U1 D1 s ? ? _ _ _ HU1 HD1 Hs]; [congruence..| |];
        simplify_eq; eauto.
    - intros [(slot & Hs & ->)|(slot & Hs & ->)]; (split; [|done]); apply Hconns; left;
        exists ns; (split; [done|]).
      + by eapply routed_upstream.
      + by eapply routed_default. }
  split; [done|]. split; [|split].
  - intros slot Hd Hneed. apply (Hexact (from_global n slot)). right.
    exists slot. split; [set_solver|done].
  - intros slot Hs Hc.
    destruct (proj1 (Hexact (from_global n slot)) (conj Hc eq_refl))
      as [(slot' & _ & Heq)|(slot' & Hs' & Heq)]; [done|].
    injection Heq as <-. set_solver.
  - intros slot Hneed Hc.
    destruct (proj1 (Hexact (from_upstream up n slot)) (conj Hc eq_refl))
      as [(slot' & Hs' & Heq)|(slot' & _ & Heq)]; [|done].
    injection Heq as <-. set_solver.
Qed.

End routing.

(** The instance of C1 on the example: a tractography fed by a
    reconstruction. *)
Lemma upstream_routing_witness :
  ∃ U D, Engine.find_unit Demo.gqi_then_track_wf "gqi" = Some U ∧
         Engine.find_unit Demo.gqi_then_track_wf "track" = Some D ∧
    let available := c_outputs (u_contract U) in
    let needed := c_inputs (u_contract D) in
    (∀ c, c ∈ wf_connections Demo.gqi_then_track_wf ∧ c_dst c = UnitRef "track" ↔
          (∃ slot, slot ∈ available ∩ needed ∧ c = from_upstream "gqi" "track" slot) ∨
          (∃ slot, slot ∈ default_input_set Demo.env ∖ (available ∩ needed) ∧
                   c = from_global "track" slot)) ∧
    (∀ slot, slot ∈ default_input_set Demo.env → slot ∉ needed →
             from_global "track" slot ∈ wf_connections Demo.gqi_then_track_wf) ∧
    (∀ slot, slot ∈ available ∩ needed →
             from_global "track" slot ∉ wf_connections Demo.gqi_then_track_wf) ∧
    (∀ slot, slot ∉ needed →
             from_upstream "gqi" "track" slot ∉ wf_connections Demo.gqi_then_track_wf).
Proof.
  apply (upstream_routing Demo.env "out" "reportlets" ∅ 1 false
           (Demo.spec_of Demo.gqi_then_track) "recon_wf"
           Demo.gqi_then_track_wf Demo.track "track" "gqi").
  - vm_compute. reflexivity.
  - apply list_elem_of_here.
  - reflexivity.
  - reflexivity.
  - discriminate.
Defined.

(** C1 as stated fails in its last clause: the slot [mask_file] is an output
    of the upstream reconstruction and is in the default input set, but the
    conform step does not declare it, so it is wired from the global source
    and not from upstream. *)
Lemma unneeded_upstream_output_comes_from_global :
  Demo.build [Demo.gqi; Demo.conf] = Ok Demo.gqi_then_conf_wf ∧
  (∃ U D, Engine.find_unit Demo.gqi_then_conf_wf "gqi" = Some U ∧
          Engine.find_unit Demo.gqi_then_conf_wf "conf" = Some D ∧
          "mask_file" ∈ c_outputs (u_contract U) ∧
          "mask_file" ∉ c_inputs (u_contract D)) ∧
  "mask_file" ∈ default_input_set Demo.env ∧
  from_global "conf" "mask_file" ∈ wf_connections Demo.gqi_then_conf_wf ∧
  from_upstream "gqi" "conf" "mask_file" ∉ wf_connections Demo.gqi_then_conf_wf.
Proof.
  split; [vm_compute; reflexivity|]. split.
  { do 2 eexists. split; [vm_compute; reflexivity|].
    split; [vm_compute; reflexivity|]. split; by_evaluation. }
  repeat split; by_evaluation.
Qed.

Section sentinel.
Import PyStr Engine.
Context (env : Env) (output_dir reportlets_dir : string).
Context (available : gmap string json) (omp_nthreads : nat) (skip_odf_plots : bool).

(** C6, as amended.  A node spec whose [input] is absent or "qsiprep" (and
    whose name holds no dot) is connected from the global source on exactly
    the fields of [recon_workflow_input_fields], each to the input of the
    same name, whether or not the destination declares that input; no
    connection into that sub-workflow comes from another node. *)
Theorem sentinel_routing workflow_spec name wf ns n :
  init_dwi_recon_workflow env output_dir reportlets_dir available omp_nthreads
    skip_odf_plots workflow_spec name = Ok wf →
  ns ∈ spec_nodes workflow_spec →
  ns_name ns = Some n → uses_global_source ns → has_dot n = false →
  (∀ c, c ∈ wf_connections wf ∧ c_dst c = UnitRef n ↔
        ∃ field, field ∈ recon_workflow_input_fields env ∧ c = from_global n field) ∧
  (∀ c, c ∈ wf_connections wf → c_dst c = UnitRef n → c_src c = GlobalSource).
Proof.
  intros Hbuild Hin Hn Huses Hdot.
  pose proof (init_dwi_recon_workflow_Ok _ _ _ _ _ _ _ _ _ Hbuild)
    as (_ & Hunits & _ & _ & Hconns & _ & _ & _ & Hwired).
  assert (∀ c, c ∈ wf_connections wf ∧ c_dst c = UnitRef n ↔
    ∃ field, field ∈ recon_workflow_input_fields env ∧ c = from_global n field)
    as Hexact.
  { intros c. split.
    - intros [Hc Hdst].
      destruct (connection_to_unit _ _ _ _ _ _ _ _ _ _ _ Hbuild Hc Hdst)
        as (ns' & Hin' & Hn' & Hr).
      assert (ns' = ns) as -> by (eapply built_names_unique; [done..|congruence]).
      destruct Hr as [? dst f _ _ Hg _ ?|? up ? ? ? _ Hup Hne|? up ? ? ? _ Hup Hne].
      + simpl in Hdst. subst dst. by exists f.
      + destruct Huses; congruence.
      + destruct Huses; congruence.
    - intros (f & Hf & ->). split; [|done]. apply Hconns. left.
      exists ns. split; [done|].
      destruct (Hwired ns Hin) as (n' & Hn' & [[_ (dst & Hg & Hdst)]|Hw]).
      + assert (n' = n) as -> by congruence.
        apply list_elem_of_lookup in Hin as [i Hi].
        destruct (Forall2_lookup_l _ _ _ _ _ Hunits Hi) as (u & Hu & Hnu & _).
        destruct (find_unit_is_Some wf u) as [u' Hu']; [by eapply list_elem_of_lookup_2|].
        assert (u_name u = n) as Hname by congruence. rewrite Hname in Hu'.
        rewrite (get_node_unit_intro wf n u') in Hg by done. injection Hg as <-.
        apply (routed_sentinel env wf ns n (UnitRef n) f); try done.
        by eapply get_node_unit_intro.
      + destruct Hw as (up & ? & ? & Hup & Hne & _). destruct Huses; congruence. }
  split; [done|].
  intros c Hc Hdst. by destruct (proj1 (Hexact c) (conj Hc Hdst)) as (f & _ & ->).
Qed.


End sentinel.

(** The instance of C6 on the example: a lone tractography. *)
Lemma sentinel_routing_witness :
  (∀ c, c ∈ wf_connections Demo.lone_track_wf ∧ c_dst c = UnitRef "track" ↔
        ∃ field, field ∈ recon_workflow_input_fields Demo.env ∧
                 c = from_global "track" field) ∧
  (∀ c, c ∈ wf_connections Demo.lone_track_wf → c_dst c = UnitRef "track" →
        c_src c = GlobalSource).
Proof.
  apply (sentinel_routing Demo.env "out" "reportlets" ∅ 1 false
           (Demo.spec_of [Demo.lone_track]) "recon_wf"
           Demo.lone_track_wf Demo.lone_track "track").
  - vm_compute. reflexivity.
  - apply list_elem_of_here.
  - reflexivity.
  - by left.
  - reflexivity.
Defined.

(** C6 as stated fails: the tractography declares the input [fibgz], the
    global source has no such field, and with the sentinel as [input]
    nothing is connected to it. *)
Lemma sentinel_leaves_declared_input_unconnected :
  Demo.build [Demo.lone_track] = Ok Demo.lone_track_wf ∧
  ∃ D, Engine.find_unit Demo.lone_track_wf "track" = Some D ∧
    "fibgz" ∈ c_inputs (u_contract D) ∧
    Forall (λ c, c_dst_slot c ≠ "inputnode.fibgz") (wf_connections Demo.lone_track_wf).
Proof.
  split; [vm_compute; reflexivity|].
  eexists. split; [vm_compute; reflexivity|].
  split; by_evaluation.
Qed.


(** ** Resolving a node spec (C2, C3, C5) *)

Section resolver.
Import PyStr Engine.
Context (env : Env) (output_dir reportlets_dir : string).
Context (available : gmap string json) (omp_nthreads : nat).

(** C2, as amended.  With the plot-skip flag set, every sub-workflow that
    [workflow_from_spec] returns is built with [plot_reports] set to false,
    whatever the backend.  The override is written into the parameters
    mapping that the node spec stores, when it stores one: after the call
    (also a failed one) the stored mapping is the original one with
    [plot_reports] set to false.  A node spec that stores no parameters, and
    any node spec when the flag is not set, is left as it was. *)
Theorem plot_skip_override node_spec :
  let after := (workflow_from_spec env omp_nthreads available node_spec true).1 in
  let returned := (workflow_from_spec env omp_nthreads available node_spec true).2 in
  (∀ u, returned = Ok (Some u) →
        kw_params (u_kwargs u) !! "plot_reports" = Some (JBool false)) ∧
  ns_parameters after = <["plot_reports" := JBool false]> <$> ns_parameters node_spec ∧
  (ns_parameters node_spec = None → after = node_spec) ∧
  (workflow_from_spec env omp_nthreads available node_spec false).1 = node_spec.
Proof.
  unfold workflow_from_spec. simpl. split; [|split; [done|split; [|done]]].
  - intros u.
    destruct (ns_name node_spec) as [nm|]; [|done].
    destruct (ns_action node_spec) as [a|]; [|done]. simpl.
    destruct (select_builder _ a) as [b|]; [|done].
    destruct (run_builder env b _) as [c|]; [|done]. simpl.
    intros [= <-]. simpl. apply lookup_insert_eq.
  - intros Hnone. unfold set_plot_reports. rewrite Hnone.
    destruct node_spec. simpl in *. by subst.
Qed.

(** The dispatch of [workflow_from_spec] is a lookup in the table of
    registered builders, after every software tag that is none of the five
    external backends has been taken for "qsiprep". *)
Lemma select_builder_registered software action :
  select_builder software action = lookup_registered (backend_of software) action.
Proof.
  unfold select_builder, backend_of, external_backends.
  destruct (String.eqb_spec software "DSI Studio") as [->|?].
  { rewrite bool_decide_true by by_evaluation. dispatch_action. }
  destruct (String.eqb_spec software "MRTrix3") as [->|?].
  { rewrite bool_decide_true by by_evaluation. dispatch_action. }
  destruct (String.eqb_spec software "Dipy") as [->|?].
  { rewrite bool_decide_true by by_evaluation. dispatch_action. }
  destruct (String.eqb_spec software "AMICO") as [->|?].
  { rewrite bool_decide_true by by_evaluation. dispatch_action. }
  destruct (String.eqb_spec software "pyAFQ") as [->|?].
  { rewrite bool_decide_true by by_evaluation. dispatch_action. }
  rewrite bool_decide_false by (rewrite !elem_of_cons, elem_of_nil; naive_solver).
  dispatch_action.
Qed.



End resolver.

(** C2 as stated fails: resolving a node spec that stores parameters, with
    the plot-skip flag set, changes the stored mapping. *)
Lemma plot_skip_mutates_stored_parameters :
  ns_parameters Demo.with_parameters = Some {["mtnormalize" := JBool true]} ∧
  ns_parameters (workflow_from_spec Demo.env 1 ∅ Demo.with_parameters true).1
    = Some (<["plot_reports" := JBool false]> {["mtnormalize" := JBool true]}) ∧
  ns_parameters (workflow_from_spec Demo.env 1 ∅ Demo.with_parameters true).1
    ≠ ns_parameters Demo.with_parameters.
Proof.
  split; [done|]. split; [done|].
  intros H. apply (f_equal (λ o, o ≫= (.!! "plot_reports"))) in H.
  vm_compute in H. discriminate.
Qed.



(** The duplicate is found when all nodes resolve, and not before: with a
    later node that does not resolve, its exception is the one raised. *)
Example duplicate_names_checked_last :
  Demo.build Demo.twice = Raise RepeatedNames ∧
  Demo.build Demo.twice_then_unknown = Raise UnknownNode.
Proof. split; vm_compute; reflexivity. Qed.

(** ** The connection graph (C4) *)

Section graph.
Import PyStr Engine.
Context (env : Env) (output_dir reportlets_dir : string).
Context (available : gmap string json) (omp_nthreads : nat) (skip_odf_plots : bool).




End graph.



(** ** Attaching the sinks (C7, C8) *)

Section sink_claims.
Import PyStr Engine.
Context (env : Env) (output_dir reportlets_dir : string).
Context (available : gmap string json) (omp_nthreads : nat) (skip_odf_plots : bool).

Lemma hits_Exists wf r names :
  hits wf r names ↔
  Exists (λ node, is_sink node = true ∧ get_node wf node = Some r) names.
Proof. unfold hits. rewrite Exists_exists. naive_solver. Qed.

(** C7, as amended.  In a built workflow every node whose trailing name
    component starts with "ds" is given a base directory: the reportlets
    directory when that component contains "report" anywhere, the output
    directory otherwise.  No other node is given one.  The sinks whose
    trailing component starts with "ds_", and no other node, have their
    [source_file] input connected from [dwi_file] of the global source. *)
Theorem sink_attachment workflow_spec name wf :
  init_dwi_recon_workflow env output_dir reportlets_dir available omp_nthreads
    skip_odf_plots workflow_spec name = Ok wf →
  (∀ node, node ∈ list_node_names wf → is_sink node = true → ∃ r,
     get_node wf node = Some r ∧
     wf_base_directory wf !! r =
       Some (if is_reportlet node then reportlets_dir else output_dir) ∧
     (source_file_connection r ∈ wf_connections wf ↔ has_source_file node = true)) ∧
  (∀ r, is_Some (wf_base_directory wf !! r) →
     ∃ node, node ∈ list_node_names wf ∧ is_sink node = true ∧
             get_node wf node = Some r) ∧
  (∀ c, c ∈ wf_connections wf → c_dst_slot c = "source_file" →
     ∃ node r, node ∈ list_node_names wf ∧ has_source_file node = true ∧
               get_node wf node = Some r ∧ c = source_file_connection r).
Proof.
  intros (_ & _ & _ & _ & Hconns & _ & Hset & Hnone & _)%init_dwi_recon_workflow_Ok.
  assert (∀ c, c ∈ wf_connections wf → c_dst_slot c = "source_file" →
     ∃ node r, node ∈ list_node_names wf ∧ has_source_file node = true ∧
               get_node wf node = Some r ∧ c = source_file_connection r) as Hsource.
  { intros c [(ns & _ & Hr)|Hsink]%Hconns Hslot.
    - by destruct Hr.
    - by apply elem_of_sink_connections in Hsink. }
  split; [|split; [|done]].
  - intros node Hin Hsink. destruct (Hset node Hin Hsink) as (r & Hg & Hdir).
    exists r. split; [done|]. split; [done|]. split.
    + intros Hc. destruct (Hsource _ Hc eq_refl) as (node' & r' & _ & Hs & Hg' & [= <-]).
      by rewrite (get_node_inj _ _ _ _ Hg Hg').
    + intros Hs. apply Hconns. right. apply elem_of_sink_connections. eauto 10.
  - intros r Hsome.
    destruct (decide (Exists (λ node, is_sink node = true ∧ get_node wf node = Some r)
                        (list_node_names wf))) as [Hh|Hh].
    + apply Exists_exists in Hh. naive_solver.
    + rewrite <- hits_Exists in Hh. rewrite (Hnone r Hh) in Hsome.
      by destruct Hsome.
Qed.








End sink_claims.

(** The instance of C7 on the example. *)
Lemma sink_attachment_witness :
  (∀ node, node ∈ Engine.list_node_names Demo.gqi_then_track_wf →
     is_sink node = true → ∃ r,
     Engine.get_node Demo.gqi_then_track_wf node = Some r ∧
     wf_base_directory Demo.gqi_then_track_wf !! r =
       Some (if is_reportlet node then "reportlets" else "out") ∧
     (source_file_connection r ∈ wf_connections Demo.gqi_then_track_wf ↔
      has_source_file node = true)) ∧
  (∀ r, is_Some (wf_base_directory Demo.gqi_then_track_wf !! r) →
     ∃ node, node ∈ Engine.list_node_names Demo.gqi_then_track_wf ∧
             is_sink node = true ∧
             Engine.get_node Demo.gqi_then_track_wf node = Some r) ∧
  (∀ c, c ∈ wf_connections Demo.gqi_then_track_wf → c_dst_slot c = "source_file" →
     ∃ node r, node ∈ Engine.list_node_names Demo.gqi_then_track_wf ∧
               has_source_file node = true ∧
               Engine.get_node Demo.gqi_then_track_wf node = Some r ∧
               c = source_file_connection r).
Proof.
  apply (sink_attachment Demo.env "out" "reportlets" ∅ 1 false
           (Demo.spec_of Demo.gqi_then_track) "recon_wf").
  vm_compute. reflexivity.
Defined.

(** C7 as stated fails: the reportlet test is no test of a prefix.  The
    sinks "dsreport" and "plot.ds_report_odfs" get the reportlets directory
    and "ds_gqi_fibgz" gets the output directory, and no prefix tells the
    first two from the third. *)
Lemma reportlet_test_is_no_prefix :
  Demo.build Demo.gqi_then_track = Ok Demo.gqi_then_track_wf ∧
  wf_base_directory Demo.gqi_then_track_wf !! LeafRef "gqi" "dsreport"
    = Some "reportlets" ∧
  wf_base_directory Demo.gqi_then_track_wf !! LeafRef "gqi" "plot.ds_report_odfs"
    = Some "reportlets" ∧
  wf_base_directory Demo.gqi_then_track_wf !! LeafRef "gqi" "ds_gqi_fibgz"
    = Some "out" ∧
  (∀ p, PyStr.startswith p "dsreport" = true →
        PyStr.startswith p "ds_report_odfs" = true →
        PyStr.startswith p "ds_gqi_fibgz" = true).
Proof.
  split; [vm_compute; reflexivity|].
  do 3 (split; [vm_compute; reflexivity|]).
  apply common_prefix_of_report_sinks.
Qed.



(** ** The workflow of a subject without scans (C9) *)

Section subject.
Context (world : World) (env : Env).

Lemma filter_none {A} (P : A → Prop) `{∀ x, Decision (P x)} (l : list A) :
  (∀ x, x ∈ l → ¬ P x) → filter P l = [].
Proof.
  induction l as [|x l IH]; [done|]. intros Hl.
  rewrite filter_cons, decide_False by (apply Hl, list_elem_of_here).
  apply IH. intros y Hy. by apply Hl, list_elem_of_further.
Qed.

(** C9.  When the subject directory is found, the spec is loaded and no
    scan of the subject is in the space of the spec, the per-subject
    assembly returns a workflow without nodes and without connections, and
    raises nothing: it returns before any anatomical or reconstruction
    workflow is made. *)
Theorem no_scans_empty_workflow subject_id name reportlets_dir output_dir
    freesurfer_input skip_odf_plots low_mem omp_nthreads recon_input recon_spec
    sloppy spec :
  name ∉ ["single_subject_wf"; "single_subject_test_recon_wf"] →
  op_exists world (op_join recon_input ("sub-" +:+ subject_id)) = true ∨
  op_exists world (op_join (op_join recon_input "qsiprep") ("sub-" +:+ subject_id))
    = true →
  _load_recon_spec world recon_spec sloppy = Ok spec →
  (∀ dir f, f ∈ layout_get_dwi world dir subject_id →
     PyStr.contains ("space-" +:+ spec_space spec) (filename f) = false) →
  init_single_subject_wf world env subject_id name reportlets_dir output_dir
    freesurfer_input skip_odf_plots low_mem omp_nthreads recon_input recon_spec sloppy
  = Ok {| sw_name := "sub-" +:+ subject_id +:+ "_" +:+ spec_name spec;
          sw_nodes := []; sw_connections := [] |}.
Proof.
  intros Hname Hdir Hload Hnone.
  unfold init_single_subject_wf, find_scans.
  rewrite bool_decide_false by done.
  assert (∀ dir,
    path <$> filter (λ f, Is_true (PyStr.contains ("space-" +:+ spec_space spec)
                                     (filename f)))
               (layout_get_dwi world dir subject_id) = []) as Hfiles.
  { intros dir. rewrite filter_none; [done|].
    intros f Hf. rewrite (Hnone dir f Hf). simpl. tauto. }
  destruct (op_exists world (op_join recon_input _)) eqn:E1; simpl.
  - rewrite Hload. simpl. by rewrite Hfiles.
  - destruct Hdir as [?|Hdir]; [done|]. rewrite Hdir. simpl.
    rewrite Hload. simpl. by rewrite Hfiles.
Qed.

End subject.

(** The instance of C9 on the example: the scans of the subject are in
    another space than the spec asks for. *)
Lemma no_scans_empty_workflow_witness :
  init_single_subject_wf Demo.world Demo.env "01" "single_subject_01_recon_wf"
    "/work/reportlets" "/out" "/freesurfer" false false 1 "/data" "/specs/demo.json"
    false
  = Ok {| sw_name := "sub-01_demo"; sw_nodes := []; sw_connections := [] |}.
Proof.
  apply (no_scans_empty_workflow Demo.world Demo.env "01" "single_subject_01_recon_wf"
           "/work/reportlets" "/out" "/freesurfer" false false 1 "/data"
           "/specs/demo.json" false (Demo.spec_of Demo.gqi_then_track)).
  - by_evaluation.
  - left. reflexivity.
  - reflexivity.
  - intros dir f Hf. apply list_elem_of_singleton in Hf as ->. reflexivity.
Defined.

(** ** Specs that are built *)

Section success.
Import PyStr Engine.
Context (env : Env) (output_dir reportlets_dir : string).
Context (available : gmap string json) (omp_nthreads : nat) (skip_odf_plots : bool).

Lemma append_inj_prefix p a b : p +:+ a = p +:+ b → a = b.
Proof. induction p as [|c p IH]; simpl; [done|]. intros [= ?]. auto. Qed.

Lemma as_connections_dests attr_list src_prefix dest_prefix :
  (_as_connections attr_list src_prefix dest_prefix).*2
  = (λ item, dest_prefix +:+ item) <$> attr_list.
Proof. unfold _as_connections. by rewrite <- list_fmap_compose. Qed.

Lemma as_connections_NoDup attr_list src_prefix dest_prefix :
  NoDup attr_list → NoDup (_as_connections attr_list src_prefix dest_prefix).*2.
Proof.
  intros Hnd. rewrite as_connections_dests.
  apply NoDup_fmap_2; [|done]. intros a b. apply append_inj_prefix.
Qed.

Lemma add_connections_succeeds conns src dst pairs :
  NoDup pairs.*2 →
  (∀ p, p ∈ pairs → is_connected conns dst p.2 = false) →
  add_connections conns src dst pairs = Ok (conns ++ (connection_of src dst <$> pairs)).
Proof.
  revert conns. induction pairs as [|[source dest] pairs IH]; intros conns Hnd Hfree.
  - simpl. by rewrite app_nil_r.
  - simpl in *. apply NoDup_cons in Hnd as [Hnin Hnd].
    pose proof (Hfree (source, dest) (list_elem_of_here _ _)) as Hhere.
    simpl in Hhere. rewrite Hhere.
    rewrite IH; [by rewrite <- app_assoc|done|].
    intros p Hp. rewrite is_connected_app, (Hfree p) by by apply list_elem_of_further.
    simpl. unfold is_connected. apply bool_decide_eq_false.
    intros [[_ Heq]|H]%Exists_cons; [|by apply Exists_nil in H].
    simpl in Heq. apply Hnin. rewrite Heq. by apply list_elem_of_fmap_2.
Qed.

Lemma connect_succeeds wf s d pairs :
  NoDup pairs.*2 →
  (∀ p, p ∈ pairs → is_connected (wf_connections wf) d p.2 = false) →
  is_Ok (connect wf (Some s) (Some d) pairs).
Proof.
  intros Hnd Hfree. unfold connect.
  rewrite add_connections_succeeds by done. by eexists.
Qed.

Lemma get_node_leaf_intro wf h u leaf :
  has_dot h = false → find_unit wf h = Some u → leaf ∈ leaf_names u →
  get_node wf (h +:+ "." +:+ leaf) = Some (LeafRef h leaf).
Proof.
  intros Hh Hu Hleaf. unfold get_node.
  rewrite split_dot_path, Hu by done.
  pose proof (split_nonempty "."%char leaf) as Hne.
  pose proof (join_split_dot leaf) as Hj. unfold split_dot in *.
  destruct (split "." leaf) as [|x xs]; [done|].
  by rewrite Hj, bool_decide_true.
Qed.

(** The names that [list_node_names] lists are distinct when the dotted
    names of the leaves are: the name of the workflow's [inputnode] holds no
    dot.  So the checks that follow each connection never raise. *)
Lemma list_node_names_NoDup_intro wf :
  NoDup (wf_units wf ≫= unit_node_names) → NoDup (list_node_names wf).
Proof.
  intros Hnd. unfold list_node_names. rewrite sorted_perm.
  apply NoDup_app. split; [|split; [|done]].
  - destruct (wf_inputnode wf); [apply NoDup_singleton|constructor].
  - intros x Hx (u & (leaf & -> & _)%list_elem_of_fmap & _)%list_elem_of_bind.
    destruct (wf_inputnode wf); [|by apply elem_of_nil in Hx].
    apply list_elem_of_singleton in Hx.
    pose proof (has_dot_app (u_name u) leaf) as Hd. by rewrite Hx in Hd.
Qed.

(** The two calls of [_check_repeats] that follow a [connect]
    (build_workflow.py:98 and :108) never raise: connecting adds no
    sub-workflow, and the name [inputnode] it may add has no dot, so it is
    none of the dotted names already listed. *)
Lemma later_checks_never_raise wf src dst pairs wf' :
  _check_repeats (list_node_names wf) = Ok () →
  connect wf src dst pairs = Ok wf' →
  _check_repeats (list_node_names wf') = Ok ().
Proof.
  intros Hcheck (? & ? & _ & _ & _ & Hu & _)%connect_Ok.
  apply _check_repeats_Ok. apply _check_repeats_Ok in Hcheck.
  apply list_node_names_NoDup_intro. rewrite Hu.
  unfold list_node_names in Hcheck. rewrite sorted_perm in Hcheck.
  by apply NoDup_app in Hcheck as (_ & _ & ?).
Qed.

Lemma unit_node_names_NoDup (units : list Unit) :
  NoDup (u_name <$> units) →
  (∀ u, u ∈ units → has_dot (u_name u) = false ∧ NoDup (leaf_names u)) →
  NoDup (units ≫= unit_node_names).
Proof.
  induction units as [|u units IH]; [constructor|].
  rewrite fmap_cons, bind_cons. intros [Hnin Hnd]%NoDup_cons Hunits.
  destruct (Hunits u (list_elem_of_here _ _)) as [Hdot Hleaves].
  apply NoDup_app. split; [|split].
  - unfold unit_node_names. apply NoDup_fmap_2; [|done].
    intros a b Hab. apply append_inj_prefix in Hab. by injection Hab.
  - intros x (leaf & -> & Hleaf)%list_elem_of_fmap
             (u' & (leaf' & Heq & _)%list_elem_of_fmap & Hin')%list_elem_of_bind.
    destruct (Hunits u' (list_elem_of_further _ _ _ Hin')) as [Hdot' _].
    apply append_inj_l in Heq as [Heq _]; [|done..].
    apply Hnin. rewrite Heq. by apply list_elem_of_fmap_2.
  - apply IH; [done|]. intros u' Hu'. by apply Hunits, list_elem_of_further.
Qed.

Lemma output_fields_port wf h u :
  find_unit wf h = Some u →
  output_fields env wf (LeafRef h "inputnode") = Some (c_inputs (u_contract u)) ∧
  output_fields env wf (LeafRef h "outputnode") = Some (c_outputs (u_contract u)).
Proof. intros Hu. unfold output_fields. by rewrite Hu. Qed.

(** One turn of the wiring loop succeeds when the node and its upstream
    node are sub-workflows of the workflow and nothing is connected to the
    node yet. *)
Lemma connect_node_succeeds wf ns n :
  ns_name ns = Some n → has_dot n = false → is_Some (find_unit wf n) →
  (∀ c, c ∈ wf_connections wf → c_dst c ≠ UnitRef n) →
  NoDup (recon_workflow_input_fields env) →
  NoDup (wf_units wf ≫= unit_node_names) →
  (uses_global_source ns ∨
   ∃ up, ns_input ns = Some up ∧ has_dot up = false ∧ is_Some (find_unit wf up)) →
  is_Ok (connect_node env wf ns).
Proof.
  intros Hn Hdot [D HD] Hfresh Hfields Hleaves Hinput.
  assert (∀ conns slot, (∀ c, c ∈ conns → c_dst c ≠ UnitRef n) →
            is_connected conns (UnitRef n) slot = false) as Hfree.
  { intros conns slot Hc. apply not_true_is_false.
    intros (c & [= Hdst _] & Hin)%is_connected_true%list_elem_of_fmap.
    by apply (Hc c). }
  unfold connect_node. rewrite Hn. simpl.
  rewrite (get_node_unit_intro wf n D) by done.
  case_bool_decide as Hsent.
  - apply connect_succeeds; [by apply as_connections_NoDup|].
    intros p _. by apply Hfree.
  - destruct Hinput as [[Hs|Hs]|(up & Hup & Hdup & [U HU])];
      [by rewrite Hs in Hsent..|].
    rewrite Hup. simpl.
    assert ("outputnode" ∈ leaf_names U) as HoutU
      by apply list_elem_of_further, list_elem_of_here.
    assert ("inputnode" ∈ leaf_names D) as HinD by apply list_elem_of_here.
    change (up +:+ ".outputnode") with (up +:+ "." +:+ "outputnode").
    change (n +:+ ".inputnode") with (n +:+ "." +:+ "inputnode").
    rewrite (get_node_leaf_intro wf up U "outputnode") by done.
    rewrite (get_node_leaf_intro wf n D "inputnode") by done.
    simpl.
    rewrite (proj2 (output_fields_port wf up U HU)).
    rewrite (proj1 (output_fields_port wf n D HD)). simpl.
    rewrite (get_node_unit_intro wf up U) by done.
    set (S := c_outputs (u_contract U) ∩ c_inputs (u_contract D)).
    destruct (connect wf (Some GlobalSource) (Some (UnitRef n)) _) as [wf1|] eqn:E1;
      last first.
    { destruct (connect_succeeds wf GlobalSource (UnitRef n)
        (_as_connections (elements (default_input_set env ∖ S)) "" "inputnode."))
        as [? E]; [apply as_connections_NoDup, NoDup_elements| |congruence].
      intros p _. by apply Hfree. }
    simpl.
    pose proof (connect_Ok _ _ _ _ _ E1) as (? & ? & _ & _ & _ & Hu1 & _ & _ & Hc1 & _).
    rewrite (proj2 (_check_repeats_Ok _)); last first.
    { apply list_node_names_NoDup_intro. by rewrite Hu1. }
    simpl.
    destruct (connect wf1 (Some (UnitRef up)) (Some (UnitRef n)) _) as [wf2|] eqn:E2;
      last first.
    { destruct (connect_succeeds wf1 (UnitRef up) (UnitRef n)
        (_as_connections (elements S) "outputnode." "inputnode."))
        as [? E]; [apply as_connections_NoDup, NoDup_elements| |congruence].
      intros [src slot] Hp. simpl.
      apply list_elem_of_fmap in Hp as (s & [= -> ->] & Hs%elem_of_elements).
      rewrite Hc1, is_connected_app, Hfree by done. simpl.
      apply not_true_is_false.
      intros (c & [= _ Hslot] & Hin)%is_connected_true%list_elem_of_fmap.
      apply elem_of_as_connections in Hin as (s' & Hs'%elem_of_elements & ->).
      simpl in Hslot. apply append_inj_prefix in Hslot as ->. set_solver. }
    simpl.
    pose proof (connect_Ok _ _ _ _ _ E2) as (? & ? & _ & _ & _ & Hu2 & _).
    rewrite (proj2 (_check_repeats_Ok _)); [by eexists|].
    apply list_node_names_NoDup_intro. by rewrite Hu2, Hu1.
Qed.

Lemma routed_wirable_dst wf ns c n :
  wirable wf ns → ns_name ns = Some n → routed env wf ns c → c_dst c = UnitRef n.
Proof.
  intros (n' & Hn' & Hdot & [u Hu] & _) Hn Hr. assert (n' = n) as -> by congruence.
  destruct Hr as [? dst f ? _ Hg|? ? ? ? ? ?|? ? ? ? ? ?]; simplify_eq/=; [|done..].
  rewrite (get_node_unit_intro wf n u) in Hg by done. by injection Hg as <-.
Qed.

Lemma connect_nodes_succeeds wf0 wf nodes :
  wf_units wf = wf_units wf0 →
  NoDup (ns_name <$> nodes) →
  (∀ ns, ns ∈ nodes → wirable wf0 ns) →
  (∀ c ns n, c ∈ wf_connections wf → ns ∈ nodes → ns_name ns = Some n →
             c_dst c ≠ UnitRef n) →
  NoDup (recon_workflow_input_fields env) →
  NoDup (wf_units wf0 ≫= unit_node_names) →
  is_Ok (connect_nodes env wf nodes).
Proof.
  revert wf. induction nodes as [|ns nodes IH]; intros wf Hu Hnd Hwirable Hfresh Hf Hl.
  - by eexists.
  - rewrite fmap_cons in Hnd. apply NoDup_cons in Hnd as [Hnin Hnd].
    pose proof (Hwirable ns (list_elem_of_here _ _)) as Hns.
    destruct Hns as (n & Hn & Hdot & Hunit & Hinput).
    destruct (connect_node_succeeds wf ns n) as [wf1 E1]; try done.
    { by rewrite (find_unit_units wf wf0). }
    { intros c Hc. apply (Hfresh c ns n Hc (list_elem_of_here _ _) Hn). }
    { by rewrite Hu. }
    { destruct Hinput as [?|(up & ? & ? & ?)]; [by left|right].
      exists up. by rewrite (find_unit_units wf wf0). }
    simpl. rewrite E1. simpl.
    eapply (connect_node_Ok env wf0) in E1 as (_ & Hu1 & _ & _ & Hc1 & _); [|done|];
      last first.
    { intros n' Hn'. by simplify_eq. }
    apply IH; try done.
    + congruence.
    + intros ns' Hin'. by apply Hwirable, list_elem_of_further.
    + intros c ns' n' [Hc|Hr]%Hc1 Hin' Hn'.
      * apply (Hfresh c ns' n' Hc (list_elem_of_further _ _ _ Hin') Hn').
      * rewrite (routed_wirable_dst wf0 ns c n) by (try done; by apply Hwirable, list_elem_of_here).
        intros [= <-]. apply Hnin. rewrite Hn, <- Hn'. by apply list_elem_of_fmap_2.
Qed.

(** A spec whose node specs all resolve, with distinct names without dots
    and with every [input] absent, "qsiprep" or the name of a node of the
    spec, is built: the workflow has one sub-workflow for each node spec. *)
Theorem well_formed_spec_is_built workflow_spec name nodes units :
  resolve_nodes env available omp_nthreads skip_odf_plots (spec_nodes workflow_spec)
    = Ok (nodes, units) →
  NoDup (ns_name <$> spec_nodes workflow_spec) →
  (∀ u, u ∈ units → has_dot (u_name u) = false ∧ NoDup (leaf_names u)) →
  NoDup (recon_workflow_input_fields env) →
  (∀ ns, ns ∈ spec_nodes workflow_spec →
     uses_global_source ns ∨
     ∃ ns', ns' ∈ spec_nodes workflow_spec ∧ ns_input ns = ns_name ns') →
  ∃ wf,
    init_dwi_recon_workflow env output_dir reportlets_dir available omp_nthreads
      skip_odf_plots workflow_spec name = Ok wf ∧
    wf_units wf = units ∧
    length (wf_units wf) = length (spec_nodes workflow_spec).
Proof.
  intros Hres Hnames Hunits Hfields Hinputs.
  pose proof (resolve_nodes_Ok _ _ _ _ _ _ _ Hres) as [Hsame Hnu].
  assert (ns_name <$> spec_nodes workflow_spec = Some <$> (u_name <$> units)) as Hmap.
  { clear -Hnu. induction Hnu as [|ns u nodes' units' [Hn _] _ IH]; [done|].
    by rewrite !fmap_cons, Hn, IH. }
  assert (NoDup (u_name <$> units)) as Hnd.
  { rewrite Hmap in Hnames. by apply NoDup_fmap_1 in Hnames. }
  assert (NoDup (units ≫= unit_node_names)) as Hleaves
    by by apply unit_node_names_NoDup.
  set (wf1 := add_nodes (new name) units).
  assert (wf_units wf1 = units) as Hu1 by done.
  assert (∀ u, u ∈ units → find_unit wf1 (u_name u) = Some u) as Hfind.
  { intros u Hu. apply find_unit_NoDup; by rewrite Hu1. }
  assert (∀ ns, ns ∈ spec_nodes workflow_spec →
            ∃ u, u ∈ units ∧ ns_name ns = Some (u_name u)) as Hunit_of.
  { intros ns [i Hi]%list_elem_of_lookup.
    destruct (Forall2_lookup_l _ _ _ _ _ Hnu Hi) as (u & Hu & Hn & _).
    exists u. split; [by eapply list_elem_of_lookup_2|done]. }
  assert (∀ ns', ns' ∈ nodes → wirable wf1 ns') as Hwirable.
  { intros ns' [i Hi]%list_elem_of_lookup.
    destruct (Forall2_lookup_r _ _ _ _ _ Hsame Hi) as (ns & Hi' & Hn & Hin).
    apply list_elem_of_lookup_2 in Hi'.
    destruct (Hunit_of ns Hi') as (u & Hu & Hnu').
    exists (u_name u). rewrite Hn. split; [done|].
    split; [by apply Hunits|]. split; [by rewrite Hfind|].
    unfold uses_global_source. rewrite Hin.
    destruct (Hinputs ns Hi') as [?|(ns2 & Hin2 & Heq)]; [by left|].
    destruct (Hunit_of ns2 Hin2) as (u2 & Hu2 & Hn2).
    right. exists (u_name u2). split; [congruence|].
    split; [by apply Hunits|]. by rewrite Hfind. }
  assert (NoDup (ns_name <$> nodes)) as Hnames'.
  { assert (ns_name <$> nodes = ns_name <$> spec_nodes workflow_spec) as ->; [|done].
    clear -Hsame. induction Hsame as [|ns ns' l l' [Hn _] _ IH]; [done|].
    by rewrite !fmap_cons, Hn, IH. }
  destruct (connect_nodes_succeeds wf1 wf1 nodes) as [wf2 Hcon]; try done.
  { intros c ns n Hc. by apply elem_of_nil in Hc. }
  pose proof Hcon as Hcon'.
  eapply (connect_nodes_Ok env wf1) in Hcon'
    as (Hn2 & Hu2 & _ & _ & Hc2 & _); [|done|]; last first.
  { intros ns' n Hin Hn. destruct (Hwirable ns' Hin) as (n' & ? & _ & ? & _).
    by simplify_eq. }
  assert (∀ node, node ∈ list_node_names wf2 → is_sink node = true →
            ∃ h leaf, get_node wf2 node = Some (LeafRef h leaf)) as Hsinks.
  { intros node [[-> _]|(u & leaf & Hu & Hleaf & ->)]%list_node_names_elem Hs.
    - by vm_compute in Hs.
    - rewrite Hu2, Hu1 in Hu. exists (u_name u), leaf.
      apply (get_node_leaf_intro wf2 (u_name u) u); [by apply Hunits| |done].
      rewrite (find_unit_units wf2 wf1) by done. by apply Hfind. }
  destruct (proj2 (fill_datasinks_is_Ok output_dir reportlets_dir wf2
                     (list_node_names wf2))) as [wf Hfill].
  { split; [|split].
    - intros node Hin Hs. destruct (Hsinks node Hin Hs) as (h & leaf & ->). by eexists.
    - apply NoDup_filter, list_node_names_NoDup_intro. by rewrite Hu2, Hu1.
    - intros node r Hin Hsf Hg.
      destruct (Hsinks node Hin (has_source_file_is_sink _ Hsf)) as (h & leaf & Hg').
      rewrite Hg in Hg'. injection Hg' as ->.
      apply not_true_is_false.
      intros (c & [= Hdst _] & [Hc|(ns & Hin' & Hr)]%Hc2)%is_connected_true%list_elem_of_fmap.
      + by apply elem_of_nil in Hc.
      + destruct (Hwirable ns Hin') as (n & Hn & Hw).
        rewrite (routed_wirable_dst wf1 ns c n) in Hdst; [done|by apply Hwirable|done..]. }
  exists wf. unfold init_dwi_recon_workflow. rewrite Hres. simpl. fold wf1.
  rewrite (proj2 (_check_repeats_Ok _)); last first.
  { apply list_node_names_NoDup_intro. by rewrite Hu1. }
  simpl. rewrite Hcon. simpl. split; [done|].
  apply fill_datasinks_Ok in Hfill as (_ & Hu & _).
  assert (wf_units wf = units) as Hunits' by congruence.
  split; [done|]. rewrite Hunits'. symmetry. by eapply Forall2_length.
Qed.

End success.

(** The example spec is well formed, so it is built. *)
Lemma well_formed_spec_is_built_witness :
  ∃ wf, Demo.build Demo.gqi_then_track = Ok wf ∧
        length (wf_units wf) = length Demo.gqi_then_track.
Proof.
  destruct (well_formed_spec_is_built Demo.env "out" "reportlets" ∅ 1 false
              (Demo.spec_of Demo.gqi_then_track) "recon_wf"
              Demo.gqi_then_track (wf_units Demo.gqi_then_track_wf))
    as (wf & Hbuild & _ & Hlen).
  - vm_compute. reflexivity.
  - by_evaluation.
  - intros u Hu. split; revert u Hu; apply Forall_forall; by_evaluation.
  - by_evaluation.
  - intros ns [->|[->|[]%elem_of_nil]%elem_of_cons]%elem_of_cons.
    + right. exists Demo.gqi.
      split; [apply list_elem_of_further, list_elem_of_here|done].
    + left. by left.
  - exists wf. by split.
Defined.

(** The later checks on the example: one more connection into the
    tractography step leaves the names without repeats. *)
Lemma later_checks_never_raise_witness :
  ∃ wf',
    Engine.connect Demo.lone_track_wf (Some GlobalSource) (Some (UnitRef "track"))
      [("t1_preproc", "inputnode.extra")] = Ok wf' ∧
    _check_repeats (Engine.list_node_names Demo.lone_track_wf) = Ok () ∧
    _check_repeats (Engine.list_node_names wf') = Ok ().
Proof.
  eexists. split; [vm_compute; reflexivity|].
  split; [vm_compute; reflexivity|].
  apply (later_checks_never_raise Demo.lone_track_wf (Some GlobalSource)
           (Some (UnitRef "track")) [("t1_preproc", "inputnode.extra")]);
    vm_compute; reflexivity.
Defined.

(** ** What a build needs, and how it fails *)

Section build_errors.
Import PyStr Engine.
Context (env : Env) (output_dir reportlets_dir : string).
Context (available : gmap string json) (omp_nthreads : nat) (skip_odf_plots : bool).

Lemma resolve_node_inv node_spec node_spec' u :
  resolve_node env available omp_nthreads skip_odf_plots node_spec = Ok (node_spec', u) →
  ∃ n action,
    ns_name node_spec = Some n ∧ n ≠ "" ∧ ns_action node_spec = Some action ∧
    select_builder (default "qsiprep" (ns_software node_spec)) action
      = Some (u_builder u) ∧
    kw_name (u_kwargs u) = n ∧
    kw_output_suffix (u_kwargs u) = default "" (ns_output_suffix node_spec) ∧
    kw_omp_nthreads (u_kwargs u) = omp_nthreads ∧
    kw_available_anatomical_data (u_kwargs u) = available ∧
    run_builder env (u_builder u) (u_kwargs u) = Some (u_contract u).
Proof.
  unfold resolve_node, workflow_from_spec.
  destruct (ns_name node_spec) as [n|] eqn:Hn; simpl; [|done].
  case_bool_decide as Hne; [done|].
  destruct skip_odf_plots; simpl;
    (destruct (ns_action node_spec) as [action|]; simpl; [|done]);
    (destruct (select_builder _ action) as [b|] eqn:Hb; simpl; [|done]);
    (destruct (run_builder env b _) as [c|] eqn:Hc; simpl; [|done]);
    intros [= <- <-]; exists n, action; simpl; by repeat split.
Qed.

Lemma connect_node_units wf ns wf' :
  connect_node env wf ns = Ok wf' → wf_units wf' = wf_units wf.
Proof.
  unfold connect_node.
  destruct (ns_name ns) as [n|]; simpl; [|done].
  case_bool_decide.
  { by intros (? & ? & _ & _ & _ & ? & _)%connect_Ok. }
  destruct (ns_input ns) as [up|]; simpl; [|done].
  destruct (get_node wf (up +:+ ".outputnode") ≫= output_fields env wf); simpl; [|done].
  destruct (get_node wf (n +:+ ".inputnode") ≫= output_fields env wf); simpl; [|done].
  destruct (connect wf _ _ _) as [wf1|] eqn:E1; simpl; [|done].
  destruct (_check_repeats (list_node_names wf1)) as [[]|]; simpl; [|done].
  destruct (connect wf1 _ _ _) as [wf2|] eqn:E2; simpl; [|done].
  destruct (_check_repeats (list_node_names wf2)) as [[]|]; simpl; [|done].
  intros [= <-].
  apply connect_Ok in E1 as (? & ? & _ & _ & _ & ? & _).
  apply connect_Ok in E2 as (? & ? & _ & _ & _ & ? & _). congruence.
Qed.

Lemma connect_nodes_units wf nodes wf' :
  connect_nodes env wf nodes = Ok wf' → wf_units wf' = wf_units wf.
Proof.
  revert wf. induction nodes as [|ns nodes IH]; simpl; intros wf Hcon.
  - congruence.
  - destruct (connect_node env wf ns) as [wf1|] eqn:E; simpl in Hcon; [|done].
    rewrite (IH _ Hcon). by eapply connect_node_units.
Qed.

Lemma connect_nodes_app wf l1 l2 :
  connect_nodes env wf (l1 ++ l2) = wf1 ← connect_nodes env wf l1; connect_nodes env wf1 l2.
Proof.
  revert wf. induction l1 as [|ns l1 IH]; simpl; intros wf; [done|].
  destruct (connect_node env wf ns); simpl; [apply IH|done].
Qed.

Lemma init_dwi_recon_workflow_units workflow_spec name wf :
  init_dwi_recon_workflow env output_dir reportlets_dir available omp_nthreads
    skip_odf_plots workflow_spec name = Ok wf →
  ∃ nodes,
    resolve_nodes env available omp_nthreads skip_odf_plots (spec_nodes workflow_spec)
      = Ok (nodes, wf_units wf).
Proof.
  unfold init_dwi_recon_workflow.
  destruct (resolve_nodes _ _ _ _ _) as [[nodes units]|] eqn:Hres; simpl; [|done].
  destruct (_check_repeats _) as [[]|]; simpl; [|done].
  destruct (connect_nodes _ _ _) as [wf1|] eqn:Hcon; simpl; [|done].
  intros (_ & Hu & _)%fill_datasinks_Ok.
  apply connect_nodes_units in Hcon. simpl in Hcon.
  exists nodes. congruence.
Qed.

Lemma resolve_nodes_inv nodes nodes' units :
  resolve_nodes env available omp_nthreads skip_odf_plots nodes = Ok (nodes', units) →
  Forall2 (λ ns u, ∃ ns',
    resolve_node env available omp_nthreads skip_odf_plots ns = Ok (ns', u)) nodes units.
Proof.
  revert nodes' units. induction nodes as [|ns nodes IH]; simpl; intros nodes' units.
  - intros [= <- <-]. constructor.
  - destruct (resolve_node _ _ _ _ ns) as [[ns1 u]|] eqn:E; simpl; [|done].
    destruct (resolve_nodes _ _ _ _ nodes) as [[nodes1 units1]|]; simpl; [|done].
    intros [= <- <-]. constructor; eauto.
Qed.

(** A workflow is only built from a spec in which every node spec has a
    name that is not empty and is not the name of another node spec, has an
    action, is dispatched to a builder that returned a sub-workflow for the
    keyword arguments of build_workflow.py:136-141, and has an [input] that
    is absent, "qsiprep" or the name of a node spec of the spec.  The
    sub-workflow is a node of the workflow under the name of the node
    spec. *)
Theorem built_spec_is_resolved workflow_spec name wf :
  init_dwi_recon_workflow env output_dir reportlets_dir available omp_nthreads
    skip_odf_plots workflow_spec name = Ok wf →
  NoDup (ns_name <$> spec_nodes workflow_spec) ∧
  ∀ ns, ns ∈ spec_nodes workflow_spec →
    ∃ n action u,
      ns_name ns = Some n ∧ n ≠ "" ∧ ns_action ns = Some action ∧
      select_builder (default "qsiprep" (ns_software ns)) action = Some (u_builder u) ∧
      run_builder env (u_builder u) (u_kwargs u) = Some (u_contract u) ∧
      find_unit wf n = Some u ∧
      kw_name (u_kwargs u) = n ∧
      kw_output_suffix (u_kwargs u) = default "" (ns_output_suffix ns) ∧
      (uses_global_source ns ∨
       ∃ ns', ns' ∈ spec_nodes workflow_spec ∧ ns_input ns = ns_name ns').
Proof.
  intros Hbuild.
  pose proof (init_dwi_recon_workflow_Ok _ _ _ _ _ _ _ _ _ Hbuild)
    as (_ & Hnu & Hnd & _ & _ & _ & _ & _ & Hwired).
  destruct (init_dwi_recon_workflow_units _ _ _ Hbuild) as [nodes Hres].
  apply resolve_nodes_inv in Hres.
  assert (ns_name <$> spec_nodes workflow_spec = Some <$> (u_name <$> wf_units wf))
    as Hmap.
  { clear -Hnu. induction Hnu as [|ns u nodes' units' [Hn _] _ IH]; [done|].
    by rewrite !fmap_cons, Hn, IH. }
  split.
  { rewrite Hmap. apply (NoDup_fmap_2 _). done. }
  intros ns Hin. pose proof Hin as [i Hi]%list_elem_of_lookup.
  destruct (Forall2_lookup_l _ _ _ _ _ Hres Hi) as (u & Hu & ns' & Hr).
  apply resolve_node_inv in Hr
    as (n & action & Hn & Hne & Ha & Hb & Hkn & Hks & _ & _ & Hrun).
  exists n, action, u. do 5 (split; [done|]).
  split; [|split; [done|split; [done|]]].
  { rewrite <- Hkn. apply find_unit_NoDup; [done|]. by eapply list_elem_of_lookup_2. }
  destruct (Hwired ns Hin) as (n' & Hn' & [[Hs _]|Hw]); [by left|right].
  destruct Hw as (up & U & D & Hup & _ & _ & _ & HU & _).
  apply find_unit_Some in HU as [HU Hname].
  apply list_elem_of_lookup in HU as [j Hj].
  destruct (Forall2_lookup_r _ _ _ _ _ Hnu Hj) as (ns2 & Hj2 & Hn2 & _).
  exists ns2. split; [by eapply list_elem_of_lookup_2|]. congruence.
Qed.

Lemma get_node_no_unit wf h p :
  has_dot h = false → find_unit wf h = None → get_node wf (h +:+ "." +:+ p) = None.
Proof.
  intros Hdot Hnone. unfold get_node. rewrite split_dot_path by done. rewrite Hnone.
  pose proof (split_nonempty "."%char p) as Hne. fold (split_dot p) in Hne.
  rewrite (bool_decide_false (split_dot p = [])) by done.
  by rewrite andb_false_r.
Qed.

Lemma connect_node_dangling wf ns n up :
  ns_name ns = Some n → ns_input ns = Some up → up ≠ "qsiprep" →
  has_dot up = false → find_unit wf up = None →
  connect_node env wf ns = Raise AttributeError.
Proof.
  intros Hn Hup Hne Hdot Hnone. unfold connect_node. rewrite Hn, Hup. simpl.
  rewrite bool_decide_false by done.
  change (up +:+ ".outputnode") with (up +:+ "." +:+ "outputnode").
  by rewrite get_node_no_unit.
Qed.

(** A node spec whose [input] names no node spec of the spec is not wired:
    the turn of the wiring loop that meets it raises the [AttributeError] of
    the node that [get_node] did not find, and so does the build, when the
    node specs resolve, their names are distinct, and the node specs before
    it can be wired. *)
Theorem dangling_input_raises workflow_spec name nodes units l1 ns l2 up :
  resolve_nodes env available omp_nthreads skip_odf_plots (spec_nodes workflow_spec)
    = Ok (nodes, units) →
  NoDup (ns_name <$> spec_nodes workflow_spec) →
  (∀ u, u ∈ units → has_dot (u_name u) = false ∧ NoDup (leaf_names u)) →
  NoDup (recon_workflow_input_fields env) →
  spec_nodes workflow_spec = l1 ++ ns :: l2 →
  (∀ x, x ∈ l1 →
     uses_global_source x ∨
     ∃ x', x' ∈ spec_nodes workflow_spec ∧ ns_input x = ns_name x') →
  ns_input ns = Some up → up ≠ "qsiprep" → has_dot up = false →
  (∀ x, x ∈ spec_nodes workflow_spec → ns_name x ≠ Some up) →
  init_dwi_recon_workflow env output_dir reportlets_dir available omp_nthreads
    skip_odf_plots workflow_spec name = Raise AttributeError.
Proof.
  intros Hres Hnames Hunits Hfields Hsplit Hl1 Hup Hne Hdot Hnone.
  pose proof (resolve_nodes_Ok _ _ _ _ _ _ _ Hres) as [Hsame Hnu].
  assert (ns_name <$> spec_nodes workflow_spec = Some <$> (u_name <$> units)) as Hmap.
  { clear -Hnu. induction Hnu as [|x u nodes' units' [Hn _] _ IH]; [done|].
    by rewrite !fmap_cons, Hn, IH. }
  assert (NoDup (u_name <$> units)) as Hnd.
  { rewrite Hmap in Hnames. by apply NoDup_fmap_1 in Hnames. }
  assert (NoDup (units ≫= unit_node_names)) as Hleaves
    by by apply unit_node_names_NoDup.
  set (wf1 := add_nodes (new name) units).
  assert (wf_units wf1 = units) as Hu1 by done.
  assert (∀ u, u ∈ units → find_unit wf1 (u_name u) = Some u) as Hfind.
  { intros u Hu. apply find_unit_NoDup; by rewrite Hu1. }
  assert (∀ x, x ∈ spec_nodes workflow_spec →
            ∃ u, u ∈ units ∧ ns_name x = Some (u_name u)) as Hunit_of.
  { intros x [i Hi]%list_elem_of_lookup.
    destruct (Forall2_lookup_l _ _ _ _ _ Hnu Hi) as (u & Hu & Hn & _).
    exists u. split; [by eapply list_elem_of_lookup_2|done]. }
  assert (ns_name <$> nodes = ns_name <$> spec_nodes workflow_spec) as Hnames_eq.
  { clear -Hsame. induction Hsame as [|x x' l l' [Hn _] _ IH]; [done|].
    by rewrite !fmap_cons, Hn, IH. }
  rewrite Hsplit in Hsame.
  apply Forall2_app_inv_l in Hsame as (l1' & rest & Hsame1 & Hsame2 & Hnodes).
  apply Forall2_cons_inv_l in Hsame2 as (ns' & l2' & [Hn' Hin'] & _ & ->).
  assert (∀ x', x' ∈ l1' → wirable wf1 x') as Hwirable.
  { intros x' [i Hi]%list_elem_of_lookup.
    destruct (Forall2_lookup_r _ _ _ _ _ Hsame1 Hi) as (x & Hi' & Hn & Hin).
    apply list_elem_of_lookup_2 in Hi'.
    assert (x ∈ spec_nodes workflow_spec) as Hx
      by (rewrite Hsplit; apply elem_of_app; by left).
    destruct (Hunit_of x Hx) as (u & Hu & Hnu').
    exists (u_name u). rewrite Hn. split; [done|].
    split; [by apply Hunits|]. split; [by rewrite Hfind|].
    unfold uses_global_source. rewrite Hin.
    destruct (Hl1 x Hi') as [?|(x2 & Hin2 & Heq)]; [by left|].
    destruct (Hunit_of x2 Hin2) as (u2 & Hu2 & Hn2).
    right. exists (u_name u2). split; [congruence|].
    split; [by apply Hunits|]. by rewrite Hfind. }
  assert (NoDup (ns_name <$> l1')) as Hnames1.
  { rewrite <- Hnames_eq, Hnodes, fmap_app in Hnames.
    by apply NoDup_app in Hnames as (? & _). }
  destruct (connect_nodes_succeeds env wf1 wf1 l1') as [wf2 Hcon]; try done.
  { intros c x n Hc. by apply elem_of_nil in Hc. }
  pose proof (connect_nodes_units _ _ _ Hcon) as Hu2.
  assert (ns ∈ spec_nodes workflow_spec) as Hns
    by (rewrite Hsplit; apply elem_of_app; right; apply list_elem_of_here).
  destruct (Hunit_of ns Hns) as (u & _ & Hn).
  assert (find_unit wf2 up = None) as Hnone2.
  { rewrite (find_unit_units wf2 wf1) by done.
    destruct (find_unit wf1 up) as [U|] eqn:HU; [|done].
    apply find_unit_Some in HU as [[j Hj]%list_elem_of_lookup Hname].
    rewrite Hu1 in Hj.
    destruct (Forall2_lookup_r _ _ _ _ _ Hnu Hj) as (x & Hx & Hxn & _).
    destruct (Hnone x); [by eapply list_elem_of_lookup_2|congruence]. }
  unfold init_dwi_recon_workflow. rewrite Hres. simpl. fold wf1.
  rewrite (proj2 (_check_repeats_Ok _)); last first.
  { apply list_node_names_NoDup_intro. by rewrite Hu1. }
  simpl. rewrite Hnodes, connect_nodes_app, Hcon. simpl.
  rewrite (connect_node_dangling wf2 ns' (u_name u) up); [done|congruence..|done|done].
Qed.

Lemma resolve_nodes_app l1 l2 :
  resolve_nodes env available omp_nthreads skip_odf_plots (l1 ++ l2) =
  '(nodes1, units1) ← resolve_nodes env available omp_nthreads skip_odf_plots l1;
  '(nodes2, units2) ← resolve_nodes env available omp_nthreads skip_odf_plots l2;
  Ok (nodes1 ++ nodes2, units1 ++ units2).
Proof.
  induction l1 as [|ns l1 IH]; simpl.
  - by destruct (resolve_nodes _ _ _ _ l2) as [[??]|].
  - destruct (resolve_node _ _ _ _ ns) as [[ns' u]|]; simpl; [|done].
    rewrite IH.
    destruct (resolve_nodes _ _ _ _ l1) as [[??]|]; simpl; [|done].
    by destruct (resolve_nodes _ _ _ _ l2) as [[??]|].
Qed.

Lemma resolve_nodes_is_Ok nodes :
  (∀ ns, ns ∈ nodes →
     is_Ok (resolve_node env available omp_nthreads skip_odf_plots ns)) →
  is_Ok (resolve_nodes env available omp_nthreads skip_odf_plots nodes).
Proof.
  induction nodes as [|ns nodes IH]; intros Hall; simpl; [by eexists|].
  destruct (Hall ns (list_elem_of_here _ _)) as [[ns' u] ->]. simpl.
  destruct IH as [[nodes' units] ->]; [|by eexists].
  intros x Hx. by apply Hall, list_elem_of_further.
Qed.

(** The build raises the exception of the first node spec that does not
    resolve: the node specs after it are not looked at, and the names are
    not compared. *)
Theorem first_unresolved_node_decides workflow_spec name l1 ns l2 e :
  spec_nodes workflow_spec = l1 ++ ns :: l2 →
  (∀ x, x ∈ l1 → is_Ok (resolve_node env available omp_nthreads skip_odf_plots x)) →
  resolve_node env available omp_nthreads skip_odf_plots ns = Raise e →
  init_dwi_recon_workflow env output_dir reportlets_dir available omp_nthreads
    skip_odf_plots workflow_spec name = Raise e.
Proof.
  intros Hsplit Hl1 Hns. unfold init_dwi_recon_workflow.
  rewrite Hsplit, resolve_nodes_app.
  destruct (resolve_nodes_is_Ok l1 Hl1) as [[nodes1 units1] ->]. simpl.
  by rewrite Hns.
Qed.

(** A node spec with a name and without an [action] raises the [KeyError]
    of the subscript [node_spec["action"]], whatever its software: the key
    is read before the action is compared with anything.  A node spec whose
    builder returns [None] raises "Unable to create a node". *)
Lemma unresolved_node_exceptions node_spec n :
  ns_name node_spec = Some n → n ≠ "" →
  (ns_action node_spec = None →
     (workflow_from_spec env omp_nthreads available node_spec skip_odf_plots).2
       = Raise (KeyError "action") ∧
     resolve_node env available omp_nthreads skip_odf_plots node_spec
       = Raise (KeyError "action")) ∧
  (∀ action builder,
     ns_action node_spec = Some action →
     select_builder (default "qsiprep" (ns_software node_spec)) action = Some builder →
     (∀ kwargs, kw_name kwargs = n → run_builder env builder kwargs = None) →
     (workflow_from_spec env omp_nthreads available node_spec skip_odf_plots).2
       = Ok None ∧
     resolve_node env available omp_nthreads skip_odf_plots node_spec
       = Raise UnableToCreateNode).
Proof.
  intros Hn Hne. unfold resolve_node, workflow_from_spec. rewrite Hn. simpl.
  rewrite bool_decide_false by done. split.
  - intros Ha. destruct skip_odf_plots; simpl; by rewrite Ha.
  - intros action builder Ha Hb Hrun.
    destruct skip_odf_plots; simpl; rewrite Ha; simpl; rewrite Hb, Hrun by done; done.
Qed.

Lemma workflow_from_spec_again available' omp_nthreads' node_spec :
  workflow_from_spec env omp_nthreads' available'
    (workflow_from_spec env omp_nthreads available node_spec skip_odf_plots).1
    skip_odf_plots
  = ((workflow_from_spec env omp_nthreads available node_spec skip_odf_plots).1,
     (workflow_from_spec env omp_nthreads' available' node_spec skip_odf_plots).2).
Proof.
  unfold workflow_from_spec. destruct skip_odf_plots; simpl; [|done].
  assert (<["plot_reports" := JBool false]>
            (default ∅ (<["plot_reports" := JBool false]> <$> ns_parameters node_spec))
          = <["plot_reports" := JBool false]> (default ∅ (ns_parameters node_spec)))
    as ->.
  { destruct (ns_parameters node_spec) as [m|]; simpl; [|done]. apply insert_insert_eq. }
  f_equal. unfold set_plot_reports. simpl. f_equal.
  destruct (ns_parameters node_spec) as [m|]; simpl; [|done].
  by rewrite insert_insert_eq.
Qed.

Lemma resolve_node_again available' omp_nthreads' node_spec node_spec' u :
  resolve_node env available omp_nthreads skip_odf_plots node_spec = Ok (node_spec', u) →
  node_spec' = (workflow_from_spec env omp_nthreads available node_spec skip_odf_plots).1 ∧
  resolve_node env available' omp_nthreads' skip_odf_plots node_spec'
  = resolve_node env available' omp_nthreads' skip_odf_plots node_spec.
Proof.
  intros Hres.
  assert (node_spec' =
    (workflow_from_spec env omp_nthreads available node_spec skip_odf_plots).1) as ->.
  { revert Hres. unfold resolve_node.
    destruct (ns_name node_spec); simpl; [|done]. case_bool_decide; [done|].
    destruct (workflow_from_spec _ _ _ _ _) as [ns1 [[u1|]|]]; simpl; [|done..].
    by intros [= <- _]. }
  split; [done|]. unfold resolve_node.
  destruct (workflow_from_spec_fields env omp_nthreads available skip_odf_plots node_spec)
    as (-> & _).
  destruct (ns_name node_spec) as [n|]; simpl; [|done].
  case_bool_decide; [done|].
  rewrite workflow_from_spec_again.
  assert ((workflow_from_spec env omp_nthreads available node_spec skip_odf_plots).1
          = (workflow_from_spec env omp_nthreads' available' node_spec skip_odf_plots).1)
    as ->; [by unfold workflow_from_spec; destruct skip_odf_plots|].
  by destruct (workflow_from_spec env omp_nthreads' available' node_spec skip_odf_plots).
Qed.

Lemma resolve_nodes_again available' omp_nthreads' nodes nodes' units :
  resolve_nodes env available omp_nthreads skip_odf_plots nodes = Ok (nodes', units) →
  resolve_nodes env available' omp_nthreads' skip_odf_plots nodes'
  = resolve_nodes env available' omp_nthreads' skip_odf_plots nodes.
Proof.
  revert nodes' units. induction nodes as [|ns nodes IH]; simpl; intros nodes' units.
  - by intros [= <- <-].
  - destruct (resolve_node _ _ _ _ ns) as [[ns1 u]|] eqn:E; simpl; [|done].
    destruct (resolve_nodes _ _ _ _ nodes) as [[nodes1 units1]|] eqn:E'; simpl; [|done].
    intros [= <- <-]. simpl.
    destruct (resolve_node_again available' omp_nthreads' _ _ _ E) as [_ ->].
    by rewrite (IH _ _ eq_refl).
Qed.

(** The spec as a resolution leaves it (with [plot_reports] written into
    the stored parameters when the flag is set) resolves to the same node
    specs and the same sub-workflows, and a workflow built from it later,
    for any scan, is the workflow built from the spec as it was read: the
    write is made once and changes nothing for the scans that follow. *)
Theorem spec_left_by_a_build_builds_the_same workflow_spec nodes units
    output_dir' reportlets_dir' available' omp_nthreads' name :
  resolve_nodes env available omp_nthreads skip_odf_plots (spec_nodes workflow_spec)
    = Ok (nodes, units) →
  resolve_nodes env available omp_nthreads skip_odf_plots nodes = Ok (nodes, units) ∧
  init_dwi_recon_workflow env output_dir' reportlets_dir' available' omp_nthreads'
    skip_odf_plots (with_nodes workflow_spec nodes) name
  = init_dwi_recon_workflow env output_dir' reportlets_dir' available' omp_nthreads'
      skip_odf_plots workflow_spec name.
Proof.
  intros Hres. split.
  - by rewrite (resolve_nodes_again _ _ _ _ _ Hres).
  - unfold init_dwi_recon_workflow. simpl.
    by rewrite (resolve_nodes_again _ _ _ _ _ Hres).
Qed.

(** Every connection of a built workflow that leaves the workflow's
    [inputnode] reads a field that the [inputnode] has, when the default
    input set and [dwi_file] are among the fields of
    [recon_workflow_input_fields]: these are the fields with which the
    [inputnode] is made at build_workflow.py:41-43. *)
Theorem global_source_fields_exist workflow_spec name wf c :
  init_dwi_recon_workflow env output_dir reportlets_dir available omp_nthreads
    skip_odf_plots workflow_spec name = Ok wf →
  default_input_set env ⊆ list_to_set (recon_workflow_input_fields env) →
  "dwi_file" ∈ recon_workflow_input_fields env →
  c ∈ wf_connections wf → c_src c = GlobalSource →
  c_src_slot c ∈ recon_workflow_input_fields env.
Proof.
  intros Hbuild Hdefault Hdwi Hc Hsrc.
  pose proof (init_dwi_recon_workflow_Ok _ _ _ _ _ _ _ _ _ Hbuild)
    as (_ & _ & _ & _ & Hconns & _).
  apply Hconns in Hc as [(ns & _ & Hr)|Hsink].
  - destruct Hr as [? ? f _ _ _ _ Hf|? ? ? ? slot _ _ _ _ _ _ _ Hslot|]; simpl in *.
    + done.
    + apply elem_of_difference in Hslot as [Hslot _].
      apply Hdefault in Hslot. by apply elem_of_list_to_set in Hslot.
    + done.
  - apply elem_of_sink_connections in Hsink as (node & r & _ & _ & _ & ->). done.
Qed.

End build_errors.

(** The example spec is built, so its node specs are resolved. *)
Lemma built_spec_is_resolved_witness :
  Demo.build Demo.gqi_then_track = Ok Demo.gqi_then_track_wf ∧
  NoDup (ns_name <$> Demo.gqi_then_track) ∧
  ∃ u, Engine.find_unit Demo.gqi_then_track_wf "track" = Some u ∧
       u_builder u = init_dsi_studio_tractography_wf.
Proof.
  destruct (built_spec_is_resolved Demo.env "out" "reportlets" ∅ 1 false
              (Demo.spec_of Demo.gqi_then_track) "recon_wf" Demo.gqi_then_track_wf)
    as [Hnd Hall]; [vm_compute; reflexivity|].
  split; [vm_compute; reflexivity|]. split; [exact Hnd|].
  destruct (Hall Demo.track (list_elem_of_here _ _))
    as (n & action & u & Hn & _ & Ha & Hb & _ & Hu & _).
  injection Hn as <-. injection Ha as <-.
  exists u. split; [exact Hu|].
  change (Some init_dsi_studio_tractography_wf = Some (u_builder u)) in Hb.
  by injection Hb as <-.
Defined.

(** A tractography whose [input] names a node that is not in the spec. *)
Lemma dangling_input_raises_witness :
  Demo.build [Demo.gqi; Cohort.dangling] = Raise AttributeError.
Proof.
  apply (dangling_input_raises Demo.env "out" "reportlets" ∅ 1 false
           (Demo.spec_of [Demo.gqi; Cohort.dangling]) "recon_wf"
           [Demo.gqi; Cohort.dangling]
           (reverse (wf_units Demo.gqi_then_track_wf))
           [Demo.gqi] Cohort.dangling [] "csd").
  - vm_compute. reflexivity.
  - by_evaluation.
  - intros u Hu. split; revert u Hu; apply Forall_forall; by_evaluation.
  - by_evaluation.
  - reflexivity.
  - intros x ->%list_elem_of_singleton. left. by left.
  - reflexivity.
  - done.
  - reflexivity.
  - intros x [->|[->|[]%elem_of_nil]%elem_of_cons]%elem_of_cons; done.
Defined.

(** A node spec without action after one that resolves, and before one of
    an unknown action: the build raises the [KeyError] of the first. *)
Lemma first_unresolved_node_decides_witness :
  Demo.build [Demo.gqi; Cohort.no_action; Demo.node "n2" "MRTrix3" "no_such_action" None]
  = Raise (KeyError "action").
Proof.
  apply (first_unresolved_node_decides Demo.env "out" "reportlets" ∅ 1 false
           (Demo.spec_of [Demo.gqi; Cohort.no_action;
                          Demo.node "n2" "MRTrix3" "no_such_action" None])
           "recon_wf" [Demo.gqi] Cohort.no_action
           [Demo.node "n2" "MRTrix3" "no_such_action" None]).
  - reflexivity.
  - intros x ->%list_elem_of_singleton. eexists. vm_compute. reflexivity.
  - apply (unresolved_node_exceptions Demo.env ∅ 1 false Cohort.no_action "fit");
      done.
Defined.

(** With the flag set, the spec that stores parameters is left with
    [plot_reports] written, and is built as before. *)
Lemma spec_left_by_a_build_builds_the_same_witness :
  ∃ nodes units,
    resolve_nodes Demo.env ∅ 1 true [Demo.with_parameters] = Ok (nodes, units) ∧
    nodes ≠ [Demo.with_parameters] ∧
    resolve_nodes Demo.env ∅ 1 true nodes = Ok (nodes, units) ∧
    init_dwi_recon_workflow Demo.env "out" "reportlets" ∅ 1 true
      (with_nodes (Demo.spec_of [Demo.with_parameters]) nodes) "recon_wf"
    = init_dwi_recon_workflow Demo.env "out" "reportlets" ∅ 1 true
        (Demo.spec_of [Demo.with_parameters]) "recon_wf".
Proof.
  destruct (resolve_nodes Demo.env ∅ 1 true [Demo.with_parameters])
    as [[nodes units]|] eqn:Hres; [|by vm_compute in Hres].
  exists nodes, units. split; [reflexivity|].
  split.
  { intros ->. vm_compute in Hres. discriminate Hres. }
  apply (spec_left_by_a_build_builds_the_same Demo.env ∅ 1 true
           (Demo.spec_of [Demo.with_parameters]) nodes units
           "out" "reportlets" ∅ 1 "recon_wf" Hres).
Defined.

(** In the example the default input set is the set of the fields: the
    sink of the reconstruction reads [dwi_file], which is one of them. *)
Lemma global_source_fields_exist_witness :
  source_file_connection (LeafRef "gqi" "ds_gqi_fibgz")
    ∈ wf_connections Demo.gqi_then_track_wf ∧
  c_src_slot (source_file_connection (LeafRef "gqi" "ds_gqi_fibgz")) ∈ Demo.fields.
Proof.
  assert (source_file_connection (LeafRef "gqi" "ds_gqi_fibgz")
            ∈ wf_connections Demo.gqi_then_track_wf) as Hc by by_evaluation.
  split; [exact Hc|].
  apply (global_source_fields_exist Demo.env "out" "reportlets" ∅ 1 false
           (Demo.spec_of Demo.gqi_then_track) "recon_wf" Demo.gqi_then_track_wf
           (source_file_connection (LeafRef "gqi" "ds_gqi_fibgz"))).
  - vm_compute. reflexivity.
  - done.
  - by_evaluation.
  - exact Hc.
  - reflexivity.
Defined.

(** ** The dispatch on the software and the action *)

Lemma lookup_registered_elem software action builder :
  lookup_registered software action = Some builder →
  (software, action, builder) ∈ registered.
Proof.
  unfold lookup_registered.
  destruct (List.find _ registered) as [[[s a] b]|] eqn:E; simpl; [|done].
  intros [= <-]. apply find_some in E as [Hin Heq].
  apply bool_decide_eq_true in Heq. simpl in Heq. injection Heq as <- <-.
  by apply list_elem_of_In.
Qed.

Lemma elem_of_NoDup_snd {K V} (l : list (K * V)) k1 k2 v :
  NoDup l.*2 → (k1, v) ∈ l → (k2, v) ∈ l → k1 = k2.
Proof.
  intros Hnd [i Hi]%list_elem_of_lookup [j Hj]%list_elem_of_lookup.
  assert (i = j) as ->; [|congruence].
  apply (NoDup_lookup l.*2 i j v Hnd); rewrite list_lookup_fmap; [by rewrite Hi|by rewrite Hj].
Qed.

(** The dispatch of [workflow_from_spec] is one to one: two keys that select
    the same builder have the same action and softwares handled as the same
    backend, and each of the twenty imported builders is selected by some
    key. *)
Theorem select_builder_one_to_one :
  (∀ software action software' action' builder,
     select_builder software action = Some builder →
     select_builder software' action' = Some builder →
     backend_of software = backend_of software' ∧ action = action') ∧
  (∀ builder, ∃ software action, select_builder software action = Some builder).
Proof.
  split.
  - intros s a s' a' b H1 H2.
    rewrite select_builder_registered in H1, H2.
    apply lookup_registered_elem in H1, H2.
    assert (NoDup registered.*2) as Hnd by by_evaluation.
    pose proof (elem_of_NoDup_snd registered _ _ _ Hnd H1 H2) as [= ? ?]. done.
  - intros b.
    assert (∃ e, e ∈ registered ∧ e.2 = b) as ([[s a] b'] & Hin & Hb).
    { apply (proj1 (Exists_exists _ _)). destruct b; by_evaluation. }
    simpl in Hb. subst b'. exists s, a.
    assert (Forall (λ e, select_builder e.1.1 e.1.2 = Some e.2) registered) as Hall
      by by_evaluation.
    by apply (proj1 (Forall_forall _ _) Hall _ Hin).
Qed.

(** ** Connection lists and workflow names *)

Section names.
Import PyStr.

Lemma contains_char_cons (c x : ascii) s :
  contains (String c "") (String x s) = bool_decide (c = x) || contains (String c "") s.
Proof.
  change (contains (String c "") (String x s))
    with (startswith (String c "") (String x s) || contains (String c "") s).
  done.
Qed.

Lemma split_no_sep (sep : ascii) s :
  contains (String sep "") s = false → split sep s = [s].
Proof.
  induction s as [|x s IH]; [done|].
  rewrite contains_char_cons. intros [Hx Hs]%orb_false_elim.
  apply bool_decide_eq_false in Hx. simpl.
  rewrite decide_False by done. by rewrite IH.
Qed.

Lemma contains_replace_char (a b : ascii) s :
  a ≠ b → contains (String a "") (replace_char a b s) = false.
Proof.
  intros Hab. induction s as [|x s IH]; [done|].
  change (replace_char a b (String x s))
    with (String (if decide (x = a) then b else x) (replace_char a b s)).
  rewrite contains_char_cons, IH, orb_false_r.
  apply bool_decide_eq_false. by destruct (decide (x = a)).
Qed.

Lemma as_connections_sources attr_list src_prefix dest_prefix :
  (_as_connections attr_list src_prefix dest_prefix).*1
  = (λ item, src_prefix +:+ item) <$> attr_list.
Proof. unfold _as_connections. rewrite <- list_fmap_compose. done. Qed.

Lemma NoDup_prefixed p (l : list string) : NoDup ((λ item, p +:+ item) <$> l) ↔ NoDup l.
Proof.
  split; [apply NoDup_fmap_1|].
  apply NoDup_fmap_2. intros a b. apply append_inj_prefix.
Qed.

(** [_as_connections] names each item once on each side, in the order of
    the list: no source and no destination is named twice unless an item is
    listed twice, and the item is read back from either side of a pair. *)
Theorem _as_connections_pairs attr_list src_prefix dest_prefix :
  let pairs := _as_connections attr_list src_prefix dest_prefix in
  length pairs = length attr_list ∧
  (∀ i item, attr_list !! i = Some item ↔
             pairs !! i = Some (src_prefix +:+ item, dest_prefix +:+ item)) ∧
  (NoDup pairs.*1 ↔ NoDup attr_list) ∧
  (NoDup pairs.*2 ↔ NoDup attr_list).
Proof.
  simpl. split; [|split; [|split]].
  - unfold _as_connections. by rewrite length_fmap.
  - intros i item. unfold _as_connections. rewrite list_lookup_fmap. split.
    + by intros ->.
    + destruct (attr_list !! i) as [x|]; simpl; [|done].
      intros [= Hs _]. by apply append_inj_prefix in Hs as ->.
  - rewrite as_connections_sources. apply NoDup_prefixed.
  - rewrite as_connections_dests. apply NoDup_prefixed.
Qed.

Context (world : World).

(** [_get_wf_name] drops the last token of the file name, tokens being
    separated by underscores, and writes an underscore for every hyphen of
    what is left: the name holds no hyphen, and it is empty when the file
    name holds no underscore. *)
Theorem _get_wf_name_drops_last_token dwi_file basedir fname ext :
  split_filename world dwi_file = (basedir, fname, ext) →
  contains "-" (_get_wf_name world dwi_file) = false ∧
  (contains "_" fname = false → _get_wf_name world dwi_file = "") ∧
  (∀ a b, fname = a +:+ "_" +:+ b → contains "_" b = false →
          _get_wf_name world dwi_file = replace_char "-" "_" a).
Proof.
  intros Hsplit. unfold _get_wf_name. rewrite Hsplit. split; [|split].
  - by apply contains_replace_char.
  - intros Hno. by rewrite split_no_sep.
  - intros a b -> Hno. change (a +:+ "_" +:+ b) with (a +:+ String "_" b).
    rewrite split_app, (split_no_sep _ b Hno), removelast_last.
    by rewrite join_split.
Qed.

End names.

(** The name of the workflows of a scan. *)
Lemma _get_wf_name_drops_last_token_witness :
  _get_wf_name Demo.world "sub-01_space-T1w_dwi" = "sub_01_space_T1w" ∧
  PyStr.contains "-" (_get_wf_name Demo.world "sub-01_space-T1w_dwi") = false.
Proof.
  destruct (_get_wf_name_drops_last_token Demo.world "sub-01_space-T1w_dwi"
              "" "sub-01_space-T1w_dwi" "" eq_refl) as (Hhyphen & _ & Hname).
  split; [|exact Hhyphen].
  apply (Hname "sub-01_space-T1w" "dwi"); reflexivity.
Defined.

(** ** The workflow of a subject, and of all subjects *)

Section subjects.
Context (world : World) (env : Env).

(** The loop of base.py:223-229 gives a base directory and a source file to
    exactly the nodes of the anatomical workflow whose last name component
    starts with "ds": the reportlets directory when that component holds
    "report", the output directory otherwise, and the preprocessed T1w of
    the subject as source file, also for a sink that does not start with
    "ds_". *)
Theorem anatomical_sinks output_dir reportlets_dir subject_id names :
  ∃ base_directory source_file,
    fill_anat_datasinks output_dir reportlets_dir subject_id names
      = AnatIngressWf base_directory source_file ∧
    ∀ node,
      base_directory !! node =
        (if bool_decide (node ∈ names) && is_sink node
         then Some (sink_directory output_dir reportlets_dir node) else None) ∧
      source_file !! node =
        (if bool_decide (node ∈ names) && is_sink node
         then Some (anat_source_file subject_id) else None).
Proof.
  eexists _, _. split; [reflexivity|]. intros node.
  assert (∀ (f : string → string),
    (list_to_map ((λ n, (n, f n)) <$>
       filter (λ n, Is_true (PyStr.startswith "ds" (PyStr.last_component n))) names)
       : gmap string string) !! node
    = if bool_decide (node ∈ names) && is_sink node then Some (f node) else None) as Hmap.
  { intros f. unfold is_sink. induction names as [|n names IH]; [done|].
    rewrite filter_cons.
    destruct (decide (n = node)) as [->|Hne].
    - rewrite (bool_decide_true (node ∈ node :: names)) by apply list_elem_of_here.
      destruct (decide (Is_true (PyStr.startswith "ds" (PyStr.last_component node))))
        as [Hs|Hs].
      + apply Is_true_true in Hs. rewrite Hs. rewrite fmap_cons. simpl.
        by rewrite lookup_insert_eq.
      + apply Is_true_false in Hs. rewrite IH, Hs. by rewrite andb_false_r.
    - assert (bool_decide (node ∈ n :: names) = bool_decide (node ∈ names)) as ->.
      { apply bool_decide_ext. rewrite elem_of_cons. naive_solver. }
      destruct (decide (Is_true (PyStr.startswith "ds" (PyStr.last_component n))));
        [|done].
      rewrite fmap_cons. simpl. by rewrite lookup_insert_ne. }
  split; [apply (Hmap (λ n, sink_directory output_dir reportlets_dir n))|].
  apply (Hmap (λ _, anat_source_file subject_id)).
Qed.

Lemma assemble_scans_Ok output_dir reportlets_dir freesurfer_input omp_nthreads
    skip_odf_plots spec available workflow dwi_files workflow' :
  assemble_scans world env output_dir reportlets_dir freesurfer_input omp_nthreads
    skip_odf_plots spec available workflow dwi_files = Ok workflow' →
  sw_name workflow' = sw_name workflow ∧
  length (sw_nodes workflow') = length (sw_nodes workflow) + 4 * length dwi_files ∧
  length (sw_connections workflow')
    = length (sw_connections workflow) + 5 * length dwi_files ∧
  ∃ recon_wfs,
    recon_workflows workflow' = recon_workflows workflow ++ recon_wfs ∧
    Forall2 (λ dwi_file wf, ∃ dwi_available,
      init_dwi_recon_anatomical_workflow world (spec_atlases spec)
        (_get_wf_name world dwi_file +:+ "_anat_wf") available = Ok dwi_available ∧
      init_dwi_recon_workflow env output_dir reportlets_dir dwi_available omp_nthreads
        skip_odf_plots spec (_get_wf_name world dwi_file +:+ "_recon_wf") = Ok wf)
      dwi_files recon_wfs.
Proof.
  revert workflow. induction dwi_files as [|dwi_file dwi_files IH]; simpl; intros workflow.
  - intros [= <-]. split; [done|]. split; [lia|]. split; [lia|].
    exists []. by rewrite app_nil_r.
  - unfold assemble_scan at 1.
    destruct (init_dwi_recon_anatomical_workflow world _ _ _)
      as [dwi_available|] eqn:Ha; simpl; [|done].
    destruct (init_dwi_recon_workflow env _ _ _ _ _ _ _) as [wf|] eqn:Hw; simpl; [|done].
    intros (Hn & Hnodes & Hconns & recon_wfs & Hrw & Hall)%IH. simpl in *.
    split; [done|]. rewrite length_app in Hnodes, Hconns. simpl in *.
    split; [lia|]. split; [lia|].
    exists (wf :: recon_wfs). split.
    + rewrite Hrw. unfold recon_workflows. simpl. rewrite omap_app. simpl.
      by rewrite <- app_assoc.
    + constructor; [|done]. by exists dwi_available.
Qed.

(** A subject's workflow is named after the subject and the spec; with no
    scan it has no node, and otherwise it has the anatomical workflow, four
    nodes for each scan and five connection lists for each scan.  There is
    one reconstruction workflow for each scan, in the order of the scans:
    it is the workflow that [init_dwi_recon_workflow] builds from the spec
    under the name of the scan, with one sub-workflow for each node spec. *)
Theorem one_recon_workflow_per_scan subject_id name reportlets_dir output_dir
    freesurfer_input skip_odf_plots low_mem omp_nthreads recon_input recon_spec sloppy
    spec dwi_files recon_input' workflow :
  find_scans world subject_id name recon_input recon_spec sloppy
    = Ok (spec, dwi_files, recon_input') →
  init_single_subject_wf world env subject_id name reportlets_dir output_dir
    freesurfer_input skip_odf_plots low_mem omp_nthreads recon_input recon_spec sloppy
    = Ok workflow →
  sw_name workflow = "sub-" +:+ subject_id +:+ "_" +:+ spec_name spec ∧
  (dwi_files = [] → sw_nodes workflow = [] ∧ sw_connections workflow = []) ∧
  (dwi_files ≠ [] →
     length (sw_nodes workflow) = 1 + 4 * length dwi_files ∧
     length (sw_connections workflow) = 5 * length dwi_files) ∧
  Forall2 (λ dwi_file wf,
    wf_name wf = _get_wf_name world dwi_file +:+ "_recon_wf" ∧
    length (wf_units wf) = length (spec_nodes spec) ∧
    ∃ dwi_available,
      init_dwi_recon_workflow env output_dir reportlets_dir dwi_available omp_nthreads
        skip_odf_plots spec (_get_wf_name world dwi_file +:+ "_recon_wf") = Ok wf)
    dwi_files (recon_workflows workflow).
Proof.
  intros Hfind. unfold init_single_subject_wf. rewrite Hfind. simpl.
  case_bool_decide as Hlen.
  - intros [= <-]. simpl. apply nil_length_inv in Hlen as ->.
    repeat split; try done.
  - destruct (init_recon_anatomical_wf world _ _ _ _) as [[names available]|]; simpl;
      [|done].
    intros (Hn & Hnodes & Hconns & recon_wfs & Hrw & Hall)%assemble_scans_Ok.
    simpl in *. split; [done|].
    split; [by intros ->|]. split; [intros _; split; lia|].
    rewrite Hrw. eapply Forall2_impl; [exact Hall|].
    intros dwi_file wf (dwi_available & _ & Hbuild). simpl.
    pose proof (init_dwi_recon_workflow_Ok _ _ _ _ _ _ _ _ _ Hbuild)
      as (Hname & Hnu & _).
    split; [done|]. split; [symmetry; by eapply Forall2_length|]. by exists dwi_available.
Qed.

(** When the subject directory is not in the input directory, the
    workflow is the one built for the [qsiprep] subdirectory of the input
    directory if the subject directory is there, and "Unable to find subject
    directory" is raised if it is not, whatever the spec: the spec is not
    read before the directory is found. *)
Theorem subject_directory_lookup subject_id name reportlets_dir output_dir
    freesurfer_input skip_odf_plots low_mem omp_nthreads recon_input recon_spec sloppy :
  name ∉ ["single_subject_wf"; "single_subject_test_recon_wf"] →
  op_exists world (op_join recon_input ("sub-" +:+ subject_id)) = false →
  let qp_recon_input := op_join recon_input "qsiprep" in
  let build :=
    init_single_subject_wf world env subject_id name reportlets_dir output_dir
      freesurfer_input skip_odf_plots low_mem omp_nthreads in
  if op_exists world (op_join qp_recon_input ("sub-" +:+ subject_id))
  then build recon_input recon_spec sloppy = build qp_recon_input recon_spec sloppy
  else build recon_input recon_spec sloppy = Raise SubjectDirNotFound.
Proof.
  intros Hname Hdir. simpl. unfold init_single_subject_wf, find_scans.
  rewrite bool_decide_false by done. rewrite Hdir. simpl.
  destruct (op_exists world (op_join (op_join recon_input "qsiprep") _)) eqn:Hqp;
    simpl; done.
Qed.

Arguments init_single_subject_wf : simpl never.
Arguments op_join : simpl never.
Arguments op_join_all : simpl never.

Section qsirecon_wf.
Context (run_uuid work_dir output_dir recon_input recon_spec : string).
Context (low_mem : bool) (omp_nthreads : nat) (sloppy : bool).
Context (freesurfer_input : string) (b0_threshold : Z) (skip_odf_plots : bool).

Lemma add_subjects_Ok reportlets_dir qsiprep_wf subject_list qsiprep_wf' :
  add_subjects world env run_uuid output_dir recon_input recon_spec low_mem
    omp_nthreads sloppy freesurfer_input skip_odf_plots reportlets_dir
    qsiprep_wf subject_list = Ok qsiprep_wf' →
  qw_name qsiprep_wf' = qw_name qsiprep_wf ∧
  qw_base_dir qsiprep_wf' = qw_base_dir qsiprep_wf ∧
  ∃ entries,
    qw_nodes qsiprep_wf' = qw_nodes qsiprep_wf ++ entries ∧
    Forall2 (λ subject_id entry,
      init_single_subject_wf world env subject_id
        ("single_subject_" +:+ subject_id +:+ "_recon_wf")
        reportlets_dir output_dir freesurfer_input skip_odf_plots low_mem
        omp_nthreads recon_input recon_spec sloppy = Ok (se_workflow entry) ∧
      se_crashdump_dir entry =
        op_join_all output_dir ["qsirecon"; "sub-" +:+ subject_id; "log"; run_uuid])
      subject_list entries.
Proof.
  revert qsiprep_wf.
  induction subject_list as [|subject_id subject_list IH]; intros qsiprep_wf;
    cbn [add_subjects].
  - intros [= <-]. do 2 (split; [done|]). exists []. by rewrite app_nil_r.
  - destruct (init_single_subject_wf world env subject_id _ _ _ _ _ _ _ _ _ _)
      as [wf|] eqn:E; cbn [mbind result_bind]; [|done].
    intros (Hn & Hb & entries & Hnodes & Hall)%IH.
    cbn [qw_name qw_base_dir qw_nodes] in Hn, Hb, Hnodes.
    do 2 (split; [done|]). eexists (_ :: entries).
    split; [by rewrite Hnodes, <- app_assoc|].
    constructor; [|done]. by split.
Qed.

Lemma add_subjects_app reportlets_dir qsiprep_wf l1 l2 :
  add_subjects world env run_uuid output_dir recon_input recon_spec low_mem
    omp_nthreads sloppy freesurfer_input skip_odf_plots reportlets_dir
    qsiprep_wf (l1 ++ l2)
  = wf1 ← add_subjects world env run_uuid output_dir recon_input recon_spec low_mem
            omp_nthreads sloppy freesurfer_input skip_odf_plots reportlets_dir
            qsiprep_wf l1;
    add_subjects world env run_uuid output_dir recon_input recon_spec low_mem
      omp_nthreads sloppy freesurfer_input skip_odf_plots reportlets_dir wf1 l2.
Proof.
  revert qsiprep_wf. induction l1 as [|s l1 IH]; intros qsiprep_wf; [done|].
  cbn [app add_subjects].
  destruct (init_single_subject_wf world env s _ _ _ _ _ _ _ _ _ _);
    cbn [mbind result_bind]; [|done].
  apply IH.
Qed.

Lemma add_subjects_is_Ok reportlets_dir qsiprep_wf subject_list :
  (∀ s, s ∈ subject_list →
     is_Ok (init_single_subject_wf world env s
              ("single_subject_" +:+ s +:+ "_recon_wf")
              reportlets_dir output_dir freesurfer_input skip_odf_plots low_mem
              omp_nthreads recon_input recon_spec sloppy)) →
  is_Ok (add_subjects world env run_uuid output_dir recon_input recon_spec low_mem
           omp_nthreads sloppy freesurfer_input skip_odf_plots reportlets_dir
           qsiprep_wf subject_list).
Proof.
  revert qsiprep_wf.
  induction subject_list as [|s l IH]; intros qsiprep_wf Hall; cbn [add_subjects];
    [by eexists|].
  destruct (Hall s (list_elem_of_here _ _)) as [wf Hwf].
  rewrite Hwf. cbn [mbind result_bind].
  apply IH. intros x Hx. by apply Hall, list_elem_of_further.
Qed.

(** [init_qsirecon_wf] returns a workflow, named as asked and based in the
    work directory, that holds one workflow for each subject, in the order
    of the list: the workflow [init_single_subject_wf] builds for the
    subject under the name "single_subject_<id>_recon_wf", with reportlets
    under the work directory, and with the crash directory of the subject
    and the run under the output directory. *)
Theorem init_qsirecon_wf_subjects subject_list name qsiprep_wf :
  init_qsirecon_wf world env subject_list run_uuid work_dir output_dir recon_input
    recon_spec low_mem omp_nthreads sloppy freesurfer_input b0_threshold
    skip_odf_plots name = Ok qsiprep_wf →
  qw_name qsiprep_wf = name ∧ qw_base_dir qsiprep_wf = work_dir ∧
  Forall2 (λ subject_id entry,
    init_single_subject_wf world env subject_id
      ("single_subject_" +:+ subject_id +:+ "_recon_wf")
      (op_join work_dir "reportlets") output_dir freesurfer_input skip_odf_plots
      low_mem omp_nthreads recon_input recon_spec sloppy = Ok (se_workflow entry) ∧
    se_crashdump_dir entry =
      op_join_all output_dir ["qsirecon"; "sub-" +:+ subject_id; "log"; run_uuid])
    subject_list (qw_nodes qsiprep_wf).
Proof.
  unfold init_qsirecon_wf.
  intros (Hn & Hb & entries & Hnodes & Hall)%add_subjects_Ok.
  cbn [qw_name qw_base_dir qw_nodes app] in Hn, Hb, Hnodes.
  by rewrite Hnodes.
Qed.

(** The first subject whose workflow is not built ends [init_qsirecon_wf]
    with its exception: no workflow is returned for the subjects before it,
    and the subjects after it are not looked at.  The list is taken without
    repeats: what [add_nodes] does with a second workflow of the same
    subject is the engine's matter. *)
Theorem first_failing_subject_aborts subject_list name l1 subject_id l2 e :
  subject_list = l1 ++ subject_id :: l2 →
  NoDup subject_list →
  (∀ s, s ∈ l1 →
     is_Ok (init_single_subject_wf world env s
              ("single_subject_" +:+ s +:+ "_recon_wf")
              (op_join work_dir "reportlets") output_dir freesurfer_input
              skip_odf_plots low_mem omp_nthreads recon_input recon_spec sloppy)) →
  init_single_subject_wf world env subject_id
    ("single_subject_" +:+ subject_id +:+ "_recon_wf")
    (op_join work_dir "reportlets") output_dir freesurfer_input
    skip_odf_plots low_mem omp_nthreads recon_input recon_spec sloppy = Raise e →
  init_qsirecon_wf world env subject_list run_uuid work_dir output_dir recon_input
    recon_spec low_mem omp_nthreads sloppy freesurfer_input b0_threshold
    skip_odf_plots name = Raise e.
Proof.
  intros -> _ Hl1 Hfail. unfold init_qsirecon_wf. rewrite add_subjects_app.
  destruct (add_subjects_is_Ok (op_join work_dir "reportlets")
              {| qw_name := name; qw_base_dir := work_dir; qw_nodes := [] |} l1 Hl1)
    as [wf1 ->].
  cbn [mbind result_bind add_subjects]. by rewrite Hfail.
Qed.

End qsirecon_wf.

(** Asking for sloppy parameters changes the spec that is returned and
    nothing else: the same file is read, the same exception is raised when
    the spec is not found or cannot be read, and the spec returned is
    [make_sloppy] of the spec returned otherwise.  A name that is neither an
    existing path nor a packaged pipeline is not found. *)
Theorem _load_recon_spec_sloppy spec_name :
  match _load_recon_spec world spec_name false with
  | Ok spec => _load_recon_spec world spec_name true = Ok (make_sloppy world spec)
  | Raise e => _load_recon_spec world spec_name true = Raise e
  end ∧
  (∀ sloppy, op_exists world spec_name = false → spec_name ∉ prepackaged world →
     _load_recon_spec world spec_name sloppy = Raise SpecNotFound).
Proof.
  unfold _load_recon_spec. split.
  - destruct (op_exists world spec_name); simpl.
    + by destruct (json_load world spec_name).
    + case_bool_decide; simpl; [|done].
      by destruct (json_load world _).
  - intros sloppy -> Hnot. by rewrite bool_decide_false.
Qed.

Lemma string_length_app (a b : string) :
  String.length (a +:+ b) = String.length a + String.length b.
Proof. induction a as [|c a IH]; simpl; [done|]. by rewrite IH. Qed.

(** The name under which [init_qsirecon_wf] asks for the workflow of a
    subject is one of the two names of the documentation exactly for the
    subject "test"; under such a name the spec is the made-up one, with no
    node spec and one made-up scan, and neither the input directory nor the
    spec file is read. *)
Theorem subject_test_gets_the_made_up_spec :
  (∀ subject_id,
     "single_subject_" +:+ subject_id +:+ "_recon_wf"
       ∈ ["single_subject_wf"; "single_subject_test_recon_wf"] ↔ subject_id = "test") ∧
  (∀ subject_id recon_input recon_spec sloppy,
     find_scans world subject_id "single_subject_test_recon_wf" recon_input recon_spec
       sloppy
     = Ok (fake_spec, ["/made/up/outputs/sub-X_dwi.nii.gz"], recon_input)).
Proof.
  split; [|done]. intros s. split; [|intros ->; by_evaluation].
  intros [H|[H|[]%elem_of_nil]%elem_of_cons]%elem_of_cons.
  - apply (append_inj_prefix "single_subject_" _ "wf") in H.
    apply (f_equal String.length) in H. rewrite string_length_app in H.
    simpl in H. lia.
  - apply (append_inj_prefix "single_subject_" _ "test_recon_wf") in H.
    pose proof (f_equal String.length H) as Hlen.
    rewrite string_length_app in Hlen. simpl in Hlen.
    destruct s as [|a [|b [|c [|d [|e s]]]]]; simpl in Hlen; try lia.
    by injection H as -> -> -> ->.
Qed.

End subjects.

(** Subject 02 has a scan in the space of the spec: its workflow has the
    anatomical workflow and four nodes for the scan, and the
    reconstruction workflow is named after the scan. *)
Lemma one_recon_workflow_per_scan_witness :
  ∃ workflow,
    Cohort.single "02" = Ok workflow ∧
    sw_name workflow = "sub-02_demo" ∧
    length (sw_nodes workflow) = 5 ∧
    wf_name <$> recon_workflows workflow = ["sub_02_space_T1w_recon_wf"].
Proof.
  destruct (Cohort.single "02") as [workflow|] eqn:Hwf; [|by vm_compute in Hwf].
  exists workflow. split; [reflexivity|].
  destruct (one_recon_workflow_per_scan Cohort.world Demo.env "02"
              "single_subject_02_recon_wf" "/work/reportlets" "/out" "/freesurfer"
              false false 1 "/data" "/specs/demo.json" false
              (Demo.spec_of Demo.gqi_then_track) [Cohort.scan] "/data/qsiprep" workflow)
    as (Hname & _ & Hlen & Hall).
  - vm_compute. reflexivity.
  - exact Hwf.
  - split; [exact Hname|]. split; [by apply Hlen|].
    destruct (recon_workflows workflow) as [|wf [|??]];
      inversion Hall as [|???? [Hn _] Hrest]; subst; [|inversion Hrest].
    simpl. rewrite Hn. reflexivity.
Defined.

(** Subject 02 is found in the [qsiprep] subdirectory of the input
    directory. *)
Lemma subject_directory_lookup_witness :
  Cohort.single "02" =
  init_single_subject_wf Cohort.world Demo.env "02" "single_subject_02_recon_wf"
    "/work/reportlets" "/out" "/freesurfer" false false 1 "/data/qsiprep"
    "/specs/demo.json" false.
Proof.
  apply (subject_directory_lookup Cohort.world Demo.env "02"
           "single_subject_02_recon_wf" "/work/reportlets" "/out" "/freesurfer"
           false false 1 "/data" "/specs/demo.json" false).
  - by_evaluation.
  - reflexivity.
Defined.

(** The study of subjects 01 and 02. *)
Lemma init_qsirecon_wf_subjects_witness :
  ∃ qsiprep_wf,
    Cohort.study ["01"; "02"] = Ok qsiprep_wf ∧
    qw_base_dir qsiprep_wf = "/work" ∧
    se_crashdump_dir <$> qw_nodes qsiprep_wf
      = ["/out/qsirecon/sub-01/log/uuid"; "/out/qsirecon/sub-02/log/uuid"].
Proof.
  destruct (Cohort.study ["01"; "02"]) as [qsiprep_wf|] eqn:Hwf; [|by vm_compute in Hwf].
  exists qsiprep_wf. split; [reflexivity|].
  destruct (init_qsirecon_wf_subjects Cohort.world Demo.env "uuid" "/work" "/out" "/data"
              "/specs/demo.json" false 1 false "/freesurfer" 100 false
              ["01"; "02"] "qsirecon_wf" qsiprep_wf Hwf) as (_ & Hbase & Hall).
  split; [exact Hbase|].
  destruct (qw_nodes qsiprep_wf) as [|e1 [|e2 [|??]]];
    inversion Hall as [|???? [_ H1] Hrest]; subst;
    inversion Hrest as [|???? [_ H2] Hrest']; subst; [|inversion Hrest'].
  simpl. rewrite H1, H2. reflexivity.
Defined.

(** Subject 03 has no directory: the study that lists it is not built, and
    subject 02 after it is not looked at. *)
Lemma first_failing_subject_aborts_witness :
  Cohort.study ["01"; "03"; "02"] = Raise SubjectDirNotFound.
Proof.
  apply (first_failing_subject_aborts Cohort.world Demo.env "uuid" "/work" "/out" "/data"
           "/specs/demo.json" false 1 false "/freesurfer" 100 false
           ["01"; "03"; "02"] "qsirecon_wf" ["01"] "03" ["02"]).
  - reflexivity.
  - by_evaluation.
  - intros s ->%list_elem_of_singleton. eexists. vm_compute. reflexivity.
  - vm_compute. reflexivity.
Defined.
